(** * Initial synchronisation engine of the beacon node

    A shallow embedding of [beacon-chain/sync/initial-sync/service.go]:
    the [InitialSync] service, its block-processing transition, the
    next-slot dispatch, and the event loop [run], followed by the
    properties of the engine that the specification states and by further
    invariants of whole runs.

    Conventions.
    - [uint64] values are [N] with the wrap-around of [+ 1] written out
      ([wrap64]); a [[32]byte] root is the 256-bit number it spells, so the
      zero array is [0].
    - The collaborators behind the interfaces [p2pAPI], [beaconDB] and
      [syncService] are not part of the engine.  Every call the engine makes
      on them is recorded, in order, in a trace of [Event]s; what a store
      call answers is given by a [beaconDB] value whose answers may depend
      on the whole history of calls so far.
    - [processBlock] and [requestNextBlockBySlot] call each other and, with
      a store that keeps refusing a buffered block, never return.  The
      embedding therefore carries fuel: [None] means the fuel ran out, and
      one unit of fuel is spent per call of [processBlock].  With a store
      that takes every block the transition returns on fuel linear in the
      size of the buffer ([processBlock_returns]).
    - [checkInMemoryBlocks] runs in a goroutine of its own and shares the
      struct with [run] without a lock.  Here one turn of its loop is one
      more kind of input, taken while [run] waits in its [select]:
      interleavings inside a transition of [run] are not modelled.  A
      property of whole runs that such an interleaving would break is
      stated for the runs in which [checkInMemoryBlocks] has returned
      ([stop_checker]), where [run] alone works on the struct.
    - [Unsubscribe] stops the feed of a channel and leaves what is queued
      in it: an input of the loop is a message its [select] takes, whether
      it was queued before or after the call. *)

From Stdlib Require Import NArith Lia List Bool Sorted.
From stdpp Require Import base numbers option list gmap relations.
Import ListNotations.

Open Scope N_scope.

(** ** Data model *)

Definition wrap64 (n : N) : N := n mod 2 ^ 64.

(** [[32]byte], read as a number; [zeroRoot] is [[32]byte{}]. *)
Abbreviation Hash32 := N (only parsing).
Definition zeroRoot : Hash32 := 0.

(** [p2p.Peer]; [noPeer] is the empty literal [p2p.Peer{}]. *)
Abbreviation Peer := N (only parsing).
Definition noPeer : Peer := 0.

(** Go's [error]: [None] is [nil]. *)
Inductive GoError : Type :=
| ErrHash          (* the object could not be hashed *)
| ErrStore         (* the store refused the write *)
| ErrInvalidSlot.  (* "invalid slot number for syncing" *)

Abbreviation error := (option GoError) (only parsing).

(** A block as the engine observes it ([pb.BeaconBlock] and its wrapper
    [types.Block] expose the same data): [GetSlot] / [SlotNumber],
    [CrystallizedStateRoot], and the outcome of [Hash], which is either a
    hash or an error. *)
Record BeaconBlock : Type := {
  Slot : N;
  CrystallizedStateRoot : Hash32;
  BlockHash : option Hash32
}.

(** A crystallized state as the engine observes it: the pair that [Hash]
    returns (the loop uses the hash even when the error is not [nil]) and
    [LastFinalizedSlot]. *)
Record CrystallizedState : Type := {
  StateHash : Hash32;
  StateHashErr : error;
  LastFinalizedSlot : N
}.

(** Messages the engine produces. *)
Inductive Request : Type :=
| BeaconBlockRequestBySlotNumber (SlotNumber : N)
| BatchedBeaconBlockRequest (StartSlot EndSlot : N)
| CrystallizedStateRequest (Hash : Hash32).

(** The four subscriptions taken by [run]. *)
Inductive Subscription : Type :=
| blockSub | batchedBlocksub | blockAnnounceSub | crystallizedStateSub.

(** Calls on the collaborators, and the one log line that tells which slot
    the dispatch was asked for. *)
Inductive Event : Type :=
| DBSaveBlock (b : BeaconBlock) (result : error)
| DBSaveCrystallizedState (c : CrystallizedState) (result : error)
| P2PBroadcast (m : Request)
| P2PSend (m : Request) (peer : Peer)
| ResumeSync
| Unsubscribe (sub : Subscription)
| LogRequestingBlock (slotnumber : N).

(** The interface [beaconDB].  The answer of a call may depend on every
    call made before it. *)
Record beaconDB : Type := {
  SaveBlock : list Event -> BeaconBlock -> error;
  SaveCrystallizedState : list Event -> CrystallizedState -> error
}.

(** The mutable fields of the struct [InitialSync]. *)
Record InitialSync : Type := {
  currentSlot : N;
  highestObservedSlot : N;
  initialCrystallizedStateRoot : Hash32;
  inMemoryBlocks : gmap N BeaconBlock
}.

Definition set_currentSlot (v : N) (s : InitialSync) : InitialSync :=
  {| currentSlot := v;
     highestObservedSlot := highestObservedSlot s;
     initialCrystallizedStateRoot := initialCrystallizedStateRoot s;
     inMemoryBlocks := inMemoryBlocks s |}.

Definition set_highestObservedSlot (v : N) (s : InitialSync) : InitialSync :=
  {| currentSlot := currentSlot s;
     highestObservedSlot := v;
     initialCrystallizedStateRoot := initialCrystallizedStateRoot s;
     inMemoryBlocks := inMemoryBlocks s |}.

Definition set_initialCrystallizedStateRoot (v : Hash32) (s : InitialSync)
  : InitialSync :=
  {| currentSlot := currentSlot s;
     highestObservedSlot := highestObservedSlot s;
     initialCrystallizedStateRoot := v;
     inMemoryBlocks := inMemoryBlocks s |}.

Definition set_inMemoryBlocks (v : gmap N BeaconBlock) (s : InitialSync)
  : InitialSync :=
  {| currentSlot := currentSlot s;
     highestObservedSlot := highestObservedSlot s;
     initialCrystallizedStateRoot := initialCrystallizedStateRoot s;
     inMemoryBlocks := v |}.

(** ** The monad of the engine: state, trace, and fuel exhaustion *)

Record World : Type := {
  sync : InitialSync;
  trace : list Event
}.

Definition M (A : Type) : Type := World -> option (A * World).

Definition ret {A} (a : A) : M A := fun w => Some (a, w).

Definition bind {A B} (m : M A) (k : A -> M B) : M B :=
  fun w => match m w with
           | Some (a, w') => k a w'
           | None => None
           end.

Definition out_of_fuel {A} : M A := fun _ => None.

Definition get : M InitialSync := fun w => Some (sync w, w).

Definition modify (f : InitialSync -> InitialSync) : M unit :=
  fun w => Some (tt, {| sync := f (sync w); trace := trace w |}).

Definition emit (e : Event) : M unit :=
  fun w => Some (tt, {| sync := sync w; trace := trace w ++ [e] |}).

Declare Scope engine_scope.
Delimit Scope engine_scope with engine.
Notation "x <- m ;; k" := (bind m (fun x => k))
  (at level 100, m at next level, k at level 200, right associativity)
  : engine_scope.
Notation "m ;;; k" := (bind m (fun _ => k))
  (at level 100, k at level 200, right associativity) : engine_scope.
Local Open Scope engine_scope.

(** ** The engine *)

Section Engine.

Context (db : beaconDB).

(** [writeBlockToDB]. *)
Definition writeBlockToDB (block : BeaconBlock) : M error :=
  fun w =>
    let r := SaveBlock db (trace w) block in
    Some (r, {| sync := sync w; trace := trace w ++ [DBSaveBlock block r] |}).

(** [requestBatchedBlocks]. *)
Definition requestBatchedBlocks (endSlot : N) : M unit :=
  s <- get ;;
  emit (P2PBroadcast
          (BatchedBeaconBlockRequest (wrap64 (currentSlot s + 1)) endSlot)).

(** [requestCrystallizedStateFromPeer]. *)
Definition requestCrystallizedStateFromPeer (rawBlock : BeaconBlock)
    (peer : Peer) : M error :=
  let h := CrystallizedStateRoot rawBlock in
  emit (P2PSend (CrystallizedStateRequest h) peer) ;;;
  ret None.

(** The map update [if _, ok := m[k]; !ok { m[k] = block }]. *)
Definition store_if_absent (block : BeaconBlock) (s : InitialSync)
  : InitialSync :=
  match inMemoryBlocks s !! Slot block with
  | Some _ => s
  | None => set_inMemoryBlocks (<[Slot block := block]> (inMemoryBlocks s)) s
  end.

(** The map update [if _, ok := m[k]; ok { delete(m, k) }]. *)
Definition delete_if_present (k : N) (s : InitialSync) : InitialSync :=
  match inMemoryBlocks s !! k with
  | Some _ => set_inMemoryBlocks (delete k (inMemoryBlocks s)) s
  | None => s
  end.

(** [validateAndSaveNextBlock]. *)
Definition validateAndSaveNextBlock (rawBlock : BeaconBlock) : M error :=
  match BlockHash rawBlock with
  | None => ret (Some ErrHash)
  | Some _ =>
      s <- get ;;
      if currentSlot s =? 0 then ret (Some ErrInvalidSlot)
      else if wrap64 (currentSlot s + 1) =? Slot rawBlock then
        err <- writeBlockToDB rawBlock ;;
        match err with
        | Some e => ret (Some e)
        | None =>
            modify (set_currentSlot (Slot rawBlock)) ;;;
            modify (delete_if_present (Slot rawBlock)) ;;;
            ret None
        end
      else ret None
  end.

(** [requestNextBlockBySlot], open in the function it calls back. *)
Definition requestNextBlockBySlot_body
    (processBlock : BeaconBlock -> Peer -> M unit) (slotnumber : N)
  : M unit :=
  emit (LogRequestingBlock slotnumber) ;;;
  s <- get ;;
  match inMemoryBlocks s !! slotnumber with
  | Some block => processBlock block noPeer
  | None => emit (P2PBroadcast (BeaconBlockRequestBySlotNumber slotnumber))
  end.

(** [setBlockForInitialSync], open in the dispatch it calls. *)
Definition setBlockForInitialSync
    (requestNextBlockBySlot : N -> M unit) (rawBlock : BeaconBlock)
  : M error :=
  match BlockHash rawBlock with
  | None => ret (Some ErrHash)
  | Some _ =>
      err <- writeBlockToDB rawBlock ;;
      match err with
      | Some e => ret (Some e)
      | None =>
          modify (set_initialCrystallizedStateRoot
                    (CrystallizedStateRoot rawBlock)) ;;;
          modify (set_currentSlot (Slot rawBlock)) ;;;
          s <- get ;;
          requestNextBlockBySlot (wrap64 (currentSlot s + 1)) ;;;
          ret None
      end
  end.

(** The body of [processBlock], open in the dispatch it calls. *)
Definition processBlock_body
    (requestNextBlockBySlot : N -> M unit)
    (block : BeaconBlock) (peer : Peer) : M unit :=
  s <- get ;;
  (if highestObservedSlot s <? Slot block
   then modify (set_highestObservedSlot (Slot block))
   else ret tt) ;;;
  s <- get ;;
  if Slot block <? currentSlot s then ret tt
  else if currentSlot s =? 0 then
    if negb (initialCrystallizedStateRoot s =? zeroRoot) then ret tt
    else if negb (Slot block =? 1) then
      modify (store_if_absent block) ;;;
      requestNextBlockBySlot 1
    else
      _ <- setBlockForInitialSync requestNextBlockBySlot block ;;
      _ <- requestCrystallizedStateFromPeer block peer ;;
      ret tt
  else if negb (Slot block =? wrap64 (currentSlot s + 1)) then
    modify (store_if_absent block)
  else
    _ <- validateAndSaveNextBlock block ;;
    s <- get ;;
    requestNextBlockBySlot (wrap64 (currentSlot s + 1)).

(** [processBlock]: the knot is tied on the fuel. *)
Fixpoint processBlock (fuel : nat) (block : BeaconBlock) (peer : Peer)
  : M unit :=
  match fuel with
  | O => out_of_fuel
  | S fuel' =>
      processBlock_body (requestNextBlockBySlot_body (processBlock fuel'))
        block peer
  end.

(** [requestNextBlockBySlot]. *)
Definition requestNextBlockBySlot (fuel : nat) (slotnumber : N) : M unit :=
  requestNextBlockBySlot_body (processBlock fuel) slotnumber.

(** The loop of [processBatchedBlocks]. *)
Fixpoint processBatchedBlocks (fuel : nat) (batchedBlocks : list BeaconBlock)
    (peer : Peer) : M unit :=
  match batchedBlocks with
  | [] => ret tt
  | block :: rest =>
      processBlock fuel block peer ;;;
      processBatchedBlocks fuel rest peer
  end.

End Engine.

(** ** The event loop *)

(** What the [select] of [run], or one turn of [checkInMemoryBlocks], can
    take.  A message carries the payload the loop asserts it to have. *)
Inductive Input : Type :=
| CtxDone                          (* <-s.ctx.Done(), in either goroutine *)
| DelayTick                                             (* <-delaychan *)
| BlockAnnounce (SlotNumber : N)                        (* <-s.blockAnnounceBuf *)
| BlockResponse (block : BeaconBlock) (peer : Peer)     (* <-s.blockBuf *)
| CrystallizedStateResponse (c : CrystallizedState)     (* <-s.crystallizedStateBuf *)
| BatchedBlockResponse (blocks : list BeaconBlock) (peer : Peer)
                                                        (* <-s.batchedBlockBuf *)
| CheckInMemoryBlocks.          (* one turn of the loop of checkInMemoryBlocks *)

(** The service while it runs: the struct and the trace, whether [run] has
    returned, whether [crystallizedStateSub] is still subscribed, and
    whether [checkInMemoryBlocks] has returned. *)
Record Engine : Type := {
  world : World;
  loopExited : bool;
  crystallizedStateSubscribed : bool;
  checkerExited : bool
}.

Definition with_world (w : World) (e : Engine) : Engine :=
  {| world := w;
     loopExited := loopExited e;
     crystallizedStateSubscribed := crystallizedStateSubscribed e;
     checkerExited := checkerExited e |}.

(** [NewInitialSyncService], once [Start] has launched [run] and
    [checkInMemoryBlocks]. *)
Definition NewInitialSyncService : Engine :=
  {| world := {| sync := {| currentSlot := 0;
                            highestObservedSlot := 0;
                            initialCrystallizedStateRoot := zeroRoot;
                            inMemoryBlocks := ∅ |};
                 trace := [] |};
     loopExited := false;
     crystallizedStateSubscribed := true;
     checkerExited := false |}.

(** The deferred function of [run]. *)
Definition run_deferred : list Event :=
  [Unsubscribe blockSub; Unsubscribe blockAnnounceSub;
   Unsubscribe crystallizedStateSub; Unsubscribe batchedBlocksub].

(** [return] inside [run]: the deferred calls are made, the loop is over. *)
Definition exit_loop (checker_too : bool) (e : Engine) : Engine :=
  {| world := {| sync := sync (world e);
                 trace := trace (world e) ++ run_deferred |};
     loopExited := true;
     crystallizedStateSubscribed := false;
     checkerExited := checker_too || checkerExited e |}.

(** [return] inside [checkInMemoryBlocks]. *)
Definition stop_checker (e : Engine) : Engine :=
  {| world := world e;
     loopExited := loopExited e;
     crystallizedStateSubscribed := crystallizedStateSubscribed e;
     checkerExited := true |}.

(** Runs a computation of the engine on the world of [e]. *)
Definition in_world (m : M unit) (e : Engine) : option Engine :=
  match m (world e) with
  | Some (_, w') => Some (with_world w' e)
  | None => None
  end.

Section Loop.

Context (db : beaconDB).

(** The [case <-delaychan] of [run]. *)
Definition on_delay (e : Engine) : option Engine :=
  let s := sync (world e) in
  if currentSlot s =? 0 then Some e
  else if highestObservedSlot s =? currentSlot s then
    Some (exit_loop false
            (with_world {| sync := s;
                           trace := trace (world e) ++ [ResumeSync] |} e))
  else in_world (requestBatchedBlocks (highestObservedSlot s)) e.

(** The [case msg := <-s.blockAnnounceBuf] of [run]. *)
Definition on_blockAnnounce (slotNumber : N) : M unit :=
  s <- get ;;
  (if highestObservedSlot s <? slotNumber
   then modify (set_highestObservedSlot slotNumber)
   else ret tt) ;;;
  s <- get ;;
  requestBatchedBlocks (highestObservedSlot s).

(** The [case msg := <-s.crystallizedStateBuf] of [run]. *)
Definition on_crystallizedState (fuel : nat) (cState : CrystallizedState)
    (e : Engine) : option Engine :=
  let w := world e in
  let s := sync w in
  if initialCrystallizedStateRoot s =? zeroRoot then Some e
  else if negb (StateHash cState =? initialCrystallizedStateRoot s) then Some e
  else
    let r := SaveCrystallizedState db (trace w) cState in
    let w1 := {| sync := s;
                 trace := trace w ++ [DBSaveCrystallizedState cState r] |} in
    if LastFinalizedSlot cState <=? currentSlot s then Some (with_world w1 e)
    else
      let s2 := set_currentSlot (LastFinalizedSlot cState) s in
      let w2 := {| sync := s2; trace := trace w1 |} in
      match requestNextBlockBySlot db fuel (wrap64 (currentSlot s2 + 1)) w2 with
      | None => None
      | Some (_, w3) =>
          Some {| world := {| sync := sync w3;
                              trace := trace w3
                                       ++ [Unsubscribe crystallizedStateSub] |};
                  loopExited := loopExited e;
                  crystallizedStateSubscribed := false;
                  checkerExited := checkerExited e |}
      end.

(** One turn of the [default] branch of [checkInMemoryBlocks]. *)
Definition on_checkInMemoryBlocks (fuel : nat) (e : Engine) : option Engine :=
  let s := sync (world e) in
  if currentSlot s =? highestObservedSlot s then Some (stop_checker e)
  else
    match inMemoryBlocks s !! wrap64 (currentSlot s + 1) with
    | Some block =>
        if wrap64 (currentSlot s + 1) <=? highestObservedSlot s
        then in_world (processBlock db fuel block noPeer) e
        else Some e
    | None => Some e
    end.

(** What the engine does with an input it takes. *)
Definition handle (fuel : nat) (i : Input) (e : Engine) : option Engine :=
  match i with
  | CtxDone =>
      Some (if loopExited e then stop_checker e else exit_loop true e)
  | DelayTick => on_delay e
  | BlockAnnounce slotNumber => in_world (on_blockAnnounce slotNumber) e
  | BlockResponse block peer => in_world (processBlock db fuel block peer) e
  | CrystallizedStateResponse c => on_crystallizedState fuel c e
  | BatchedBlockResponse blocks peer =>
      in_world (processBatchedBlocks db fuel blocks peer) e
  | CheckInMemoryBlocks => on_checkInMemoryBlocks fuel e
  end.

(** Which inputs can be taken.  Once [run] has returned, its [select] takes
    nothing more; once [checkInMemoryBlocks] has returned, it takes no
    further turn; a cancellation is seen by whichever of the two still
    runs.  [Unsubscribe] does not empty [crystallizedStateBuf], the
    buffered channel the engine makes and reads: a response already queued
    there is still taken by the [select], so a crystallized-state response
    can be taken as long as the loop runs, subscribed or not. *)
Definition deliverable (i : Input) (e : Engine) : bool :=
  match i with
  | CtxDone => true
  | CheckInMemoryBlocks => negb (checkerExited e)
  | _ => negb (loopExited e)
  end.

(** One step of the service: an input that cannot be taken is lost. *)
Definition step (fuel : nat) (i : Input) (e : Engine) : option Engine :=
  if deliverable i e then handle fuel i e else Some e.

(** A run of the service over a sequence of inputs. *)
Fixpoint run (fuel : nat) (inputs : list Input) (e : Engine) : option Engine :=
  match inputs with
  | [] => Some e
  | i :: rest =>
      match step fuel i e with
      | Some e' => run fuel rest e'
      | None => None
      end
  end.

End Loop.

(** ** Observations on traces *)

Definition is_persisted_block (ev : Event) : bool :=
  match ev with DBSaveBlock _ None => true | _ => false end.

Definition is_block_store_call (ev : Event) : bool :=
  match ev with DBSaveBlock _ _ => true | _ => false end.

Definition is_state_store_call (ev : Event) : bool :=
  match ev with DBSaveCrystallizedState _ _ => true | _ => false end.

Definition is_store_call (ev : Event) : bool :=
  is_block_store_call ev || is_state_store_call ev.

Definition is_resume (ev : Event) : bool :=
  match ev with ResumeSync => true | _ => false end.

Definition is_block_request_for (slot : N) (ev : Event) : bool :=
  match ev with
  | P2PBroadcast (BeaconBlockRequestBySlotNumber n) => n =? slot
  | _ => false
  end.

Definition is_loop_event (ev : Event) : bool :=
  match ev with
  | ResumeSync | Unsubscribe _ | DBSaveCrystallizedState _ _ => true
  | _ => false
  end.

Definition count (p : Event -> bool) (tr : list Event) : nat :=
  length (List.filter p tr).

(** How many blocks a trace shows as written to the store. *)
Definition persisted (tr : list Event) : N :=
  N.of_nat (count is_persisted_block tr).

(** The first block a trace shows as written to the store. *)
Definition first_persisted (tr : list Event) : option BeaconBlock :=
  match List.find is_persisted_block tr with
  | Some (DBSaveBlock b _) => Some b
  | _ => None
  end.

(** ** Block processing as a sequence of elementary updates *)

(** [if block.GetSlot() > s.highestObservedSlot { ... }]. *)
Definition observe (slot : N) (s : InitialSync) : InitialSync :=
  if highestObservedSlot s <? slot then set_highestObservedSlot slot s else s.

Definition upd (f : InitialSync -> InitialSync) (w : World) : World :=
  {| sync := f (sync w); trace := trace w |}.

Definition say (ev : Event) (w : World) : World :=
  {| sync := sync w; trace := trace w ++ [ev] |}.

(** The world once [block] has been accepted as the anchor. *)
Definition anchored (block : BeaconBlock) (w : World) : World :=
  upd (set_currentSlot (Slot block))
    (upd (set_initialCrystallizedStateRoot (CrystallizedStateRoot block))
       (say (DBSaveBlock block None) w)).

(** The world once [block] has been committed as the next block. *)
Definition committed (block : BeaconBlock) (w : World) : World :=
  upd (delete_if_present (Slot block))
    (upd (set_currentSlot (Slot block)) (say (DBSaveBlock block None) w)).

Section Steps.

Context (db : beaconDB).

(** The elementary updates [processBlock] and the dispatch are made of. *)
Inductive block_step : World -> World -> Prop :=
| bs_observe w slot :
    block_step w (upd (observe slot) w)
| bs_buffer w b :
    block_step w (upd (store_if_absent b) w)
| bs_log w slot :
    block_step w (say (LogRequestingBlock slot) w)
| bs_broadcast w slot :
    block_step w (say (P2PBroadcast (BeaconBlockRequestBySlotNumber slot)) w)
| bs_send w h peer :
    block_step w (say (P2PSend (CrystallizedStateRequest h) peer) w)
| bs_refused w b e :
    SaveBlock db (trace w) b = Some e ->
    block_step w (say (DBSaveBlock b (Some e)) w)
| bs_anchor w b :
    currentSlot (sync w) = 0 ->
    initialCrystallizedStateRoot (sync w) = zeroRoot ->
    Slot b = 1 ->
    Slot b <= highestObservedSlot (sync w) ->
    SaveBlock db (trace w) b = None ->
    block_step w (anchored b w)
| bs_commit w b :
    currentSlot (sync w) <> 0 ->
    Slot b = currentSlot (sync w) + 1 ->
    Slot b <= highestObservedSlot (sync w) ->
    SaveBlock db (trace w) b = None ->
    block_step w (committed b w).

End Steps.

(** ** Fixtures *)

(** A store that accepts every write. *)
Definition reliableDB : beaconDB :=
  {| SaveBlock := fun _ _ => None;
     SaveCrystallizedState := fun _ _ => None |}.

(** A store that refuses the blocks of one slot. *)
Definition refusingDB (slot : N) : beaconDB :=
  {| SaveBlock := fun _ b => if Slot b =? slot then Some ErrStore else None;
     SaveCrystallizedState := fun _ _ => None |}.

Definition testBlock (slot : N) (root : Hash32) : BeaconBlock :=
  {| Slot := slot; CrystallizedStateRoot := root; BlockHash := Some slot |}.

Definition testState (hash : Hash32) (lastFinalized : N) : CrystallizedState :=
  {| StateHash := hash; StateHashErr := None;
     LastFinalizedSlot := lastFinalized |}.

(** The blocks carried by a block delivery. *)
Definition delivered_blocks (i : Input) : list BeaconBlock :=
  match i with
  | BlockResponse b _ => [b]
  | BatchedBlockResponse bs _ => bs
  | _ => []
  end.

Definition is_block_delivery (i : Input) : bool :=
  match i with
  | BlockResponse _ _ | BatchedBlockResponse _ _ => true
  | _ => false
  end.

(** The struct after blocks were only observed and buffered. *)
Definition buffer_all (bs : list BeaconBlock) (s : InitialSync) : InitialSync :=
  fold_left (fun s b => store_if_absent b (observe (Slot b) s)) bs s.

(** The requests for slot 1 that go with them. *)
Definition slot1_requests (bs : list BeaconBlock) : list Event :=
  concat (map (fun _ : BeaconBlock =>
                 [LogRequestingBlock 1;
                  P2PBroadcast (BeaconBlockRequestBySlotNumber 1)]) bs).

(** A running service with the given fields and an empty trace. *)
Definition engineAt (cur observed : N) (root : Hash32)
    (buffer : gmap N BeaconBlock) : Engine :=
  {| world := {| sync := {| currentSlot := cur;
                            highestObservedSlot := observed;
                            initialCrystallizedStateRoot := root;
                            inMemoryBlocks := buffer |};
                 trace := [] |};
     loopExited := false;
     crystallizedStateSubscribed := true;
     checkerExited := false |}.

(** The request for the crystallized state that ends the anchor branch of
    [processBlock]. *)
Definition then_request_state (b : BeaconBlock) (peer : Peer)
    (r : option (unit * World)) : option (unit * World) :=
  match r with
  | Some (_, w) =>
      Some (tt, say (P2PSend (CrystallizedStateRequest
                                (CrystallizedStateRoot b)) peer) w)
  | None => None
  end.

(** ** Invariants *)

(** What one elementary update, and hence any number of them, does to the
    cursor, to the highest observed slot and to the trace. *)
Record block_effect (w w' : World) : Prop := {
  be_cursor_mono : currentSlot (sync w) <= currentSlot (sync w');
  be_cursor_count :
    currentSlot (sync w') + persisted (trace w)
    = currentSlot (sync w) + persisted (trace w');
  be_observed_mono :
    highestObservedSlot (sync w) <= highestObservedSlot (sync w');
  be_bounded :
    currentSlot (sync w) <= highestObservedSlot (sync w) ->
    currentSlot (sync w') <= highestObservedSlot (sync w');
  be_loop_events :
    exists new, trace w' = trace w ++ new
                /\ Forall (fun ev => is_loop_event ev = false) new
}.

(** Since the trace [tr0], either no block was written to the store and
    there is no anchor, or the first block written has slot 1 and gave the
    anchor root. *)
Definition anchor_respected (tr0 : list Event) (w : World) : Prop :=
  exists new,
    trace w = tr0 ++ new
    /\ match first_persisted new with
       | None =>
           currentSlot (sync w) = 0
           /\ initialCrystallizedStateRoot (sync w) = zeroRoot
       | Some b1 =>
           Slot b1 = 1
           /\ initialCrystallizedStateRoot (sync w) = CrystallizedStateRoot b1
           /\ currentSlot (sync w) <> 0
       end.


(** Every buffered block sits under its own slot and can be hashed. *)
Definition buffer_ok (buf : gmap N BeaconBlock) : Prop :=
  forall k b, buf !! k = Some b -> Slot b = k /\ BlockHash b <> None.

(** Every buffered block has been observed: its slot is not above
    [highestObservedSlot]. *)
Definition buffer_observed (s : InitialSync) : Prop :=
  forall k b, inMemoryBlocks s !! k = Some b ->
              Slot b <= highestObservedSlot s.

(** The store takes every block. *)
Definition reliable (db : beaconDB) : Prop :=
  forall tr b, SaveBlock db tr b = None.

(** ** Further invariants *)

(** Every buffered block sits under its own slot. *)
Definition well_keyed (buf : gmap N BeaconBlock) : Prop :=
  forall k b, buf !! k = Some b -> Slot b = k.

(** Without a cursor there is no anchor root. *)
Definition anchored_ok (s : InitialSync) : Prop :=
  currentSlot s = 0 -> initialCrystallizedStateRoot s = zeroRoot.

(** The block of the slot after the cursor is not in the buffer. *)
Definition next_missing (s : InitialSync) : Prop :=
  currentSlot s + 1 < 2 ^ 64 ->
  inMemoryBlocks s !! (currentSlot s + 1) = None.

(** The struct between two inputs. *)
Definition at_rest (s : InitialSync) : Prop :=
  well_keyed (inMemoryBlocks s) /\ anchored_ok s /\ next_missing s.

(** The slots of the blocks a trace shows as written to the store. *)
Definition persisted_slots (tr : list Event) : list N :=
  flat_map (fun ev => match ev with
                      | DBSaveBlock b None => [Slot b]
                      | _ => []
                      end) tr.

(** The release of the subscription [sub]. *)
Definition is_unsubscribe (sub : Subscription) (ev : Event) : bool :=
  match ev, sub with
  | Unsubscribe blockSub, blockSub
  | Unsubscribe batchedBlocksub, batchedBlocksub
  | Unsubscribe blockAnnounceSub, blockAnnounceSub
  | Unsubscribe crystallizedStateSub, crystallizedStateSub => true
  | _, _ => false
  end.

(** A call of [SaveBlock] is made on a block that could be hashed. *)
Definition stored_hashable (ev : Event) : Prop :=
  match ev with
  | DBSaveBlock b _ => BlockHash b <> None
  | _ => True
  end.

(** The writes so far went to strictly increasing slots, the first at least
    1 and the last at most the cursor. *)
Definition writes_ordered (w : World) : Prop :=
  StronglySorted N.lt (persisted_slots (trace w))
  /\ Forall (fun k => 1 <= k <= currentSlot (sync w)) (persisted_slots (trace w)).

(** The calls added to the trace are made on blocks that could be
    hashed. *)
Definition adds_hashable (w w' : World) : Prop :=
  exists new, trace w' = trace w ++ new /\ Forall stored_hashable new.

Section LoopSteps.

Context (db : beaconDB).

(** The elementary updates a transition of the loop is made of: those of
    block processing, a call that is not a block write, and the adoption
    of a last finalized slot above the cursor, made once a crystallized
    state has been given to the store. *)
Inductive loop_step : World -> World -> Prop :=
| ls_block w w' :
    block_step db w w' -> loop_step w w'
| ls_observe w slot :
    loop_step w (upd (observe slot) w)
| ls_event w ev :
    is_block_store_call ev = false -> loop_step w (say ev w)
| ls_adopt w slot :
    currentSlot (sync w) < slot ->
    count is_state_store_call (trace w) <> 0%nat ->
    loop_step w (upd (set_currentSlot slot) w).

End LoopSteps.

(** A whole synchronisation: a block of slot 6 arrives early, the anchor
    block follows, the crystallized state finalized at slot 3 is adopted, a
    batch brings the slots 5 and 4, slot 6 is announced, and two ticks
    follow. *)
Definition scenario : list Input :=
  [BlockResponse (testBlock 6 9) 3;
   BlockResponse (testBlock 1 9) 3;
   CrystallizedStateResponse (testState 9 3);
   BatchedBlockResponse [testBlock 5 9; testBlock 4 9] 3;
   BlockAnnounce 6;
   DelayTick;
   DelayTick].

(** Slot [k] is behind the cursor or in the buffer. *)
Definition covered (k : N) (s : InitialSync) : Prop :=
  k <= currentSlot s \/ is_Some (inMemoryBlocks s !! k).

(** The slots 1, 2, ..., [n]. *)
Definition slots_upto (n : N) : list N :=
  map N.of_nat (seq 1 (N.to_nat n)).

(** ** Arithmetic of slots *)

Lemma wrap64_small (n : N) : n < 2 ^ 64 -> wrap64 n = n.
Proof. intros H. unfold wrap64. apply N.mod_small. exact H. Qed.

Lemma wrap64_succ_ge (c n : N) : wrap64 (c + 1) = n -> ~ n < c -> n = c + 1.
Proof.
  unfold wrap64. intros H Hn.
  pose proof (N.Div0.mod_le (c + 1) (2 ^ 64)) as Hle.
  pose proof (N.Div0.div_mod (c + 1) (2 ^ 64)) as Hdm.
  destruct (N.eq_dec ((c + 1) / 2 ^ 64) 0) as [E|E].
  - rewrite E in Hdm. lia.
  - assert (2 ^ 64 * 1 <= 2 ^ 64 * ((c + 1) / 2 ^ 64))
      by (apply N.mul_le_mono_l; lia).
    assert (0 < 2 ^ 64) by lia.
    lia.
Qed.

Lemma wrap64_succ_ne (c : N) : wrap64 (c + 1) <> c.
Proof.
  intros H. apply wrap64_succ_ge in H; lia.
Qed.

(** ** Counting in traces *)

Lemma count_app p (a b : list Event) :
  count p (a ++ b) = (count p a + count p b)%nat.
Proof. unfold count. rewrite List.filter_app, length_app. reflexivity. Qed.

Lemma persisted_app (a b : list Event) :
  persisted (a ++ b) = persisted a + persisted b.
Proof. unfold persisted. rewrite count_app. lia. Qed.

Lemma find_app (p : Event -> bool) (a b : list Event) :
  List.find p (a ++ b)
  = match List.find p a with Some x => Some x | None => List.find p b end.
Proof.
  induction a as [|x a IH]; simpl; [reflexivity|].
  destruct (p x); [reflexivity|exact IH].
Qed.

Lemma first_persisted_app (a b : list Event) :
  first_persisted (a ++ b)
  = match first_persisted a with
    | Some x => Some x
    | None => first_persisted b
    end.
Proof.
  unfold first_persisted. rewrite find_app.
  destruct (List.find is_persisted_block a) as [ev|] eqn:E; [|reflexivity].
  apply List.find_some in E. destruct E as [_ E].
  destruct ev; try discriminate. reflexivity.
Qed.

(** ** The two map updates *)

Lemma delete_if_present_fields k s :
  currentSlot (delete_if_present k s) = currentSlot s
  /\ highestObservedSlot (delete_if_present k s) = highestObservedSlot s
  /\ initialCrystallizedStateRoot (delete_if_present k s)
     = initialCrystallizedStateRoot s
  /\ inMemoryBlocks (delete_if_present k s) = delete k (inMemoryBlocks s).
Proof.
  unfold delete_if_present.
  destruct (inMemoryBlocks s !! k) eqn:E; simpl; repeat split; try reflexivity.
  symmetry. apply delete_id. exact E.
Qed.

Lemma store_if_absent_fields b s :
  currentSlot (store_if_absent b s) = currentSlot s
  /\ highestObservedSlot (store_if_absent b s) = highestObservedSlot s
  /\ initialCrystallizedStateRoot (store_if_absent b s)
     = initialCrystallizedStateRoot s.
Proof.
  unfold store_if_absent.
  destruct (inMemoryBlocks s !! Slot b); simpl; repeat split; reflexivity.
Qed.

Lemma observe_fields slot s :
  currentSlot (observe slot s) = currentSlot s
  /\ highestObservedSlot (observe slot s) = N.max (highestObservedSlot s) slot
  /\ initialCrystallizedStateRoot (observe slot s)
     = initialCrystallizedStateRoot s
  /\ inMemoryBlocks (observe slot s) = inMemoryBlocks s.
Proof.
  unfold observe.
  destruct (N.ltb_spec (highestObservedSlot s) slot); simpl;
    repeat split; try reflexivity; lia.
Qed.

Lemma observe_id slot s : slot <= highestObservedSlot s -> observe slot s = s.
Proof.
  unfold observe. intros H.
  destruct (N.ltb_spec (highestObservedSlot s) slot); [lia|reflexivity].
Qed.

(** ** Equations of the block-processing transition *)

Section Equations.

Context (db : beaconDB).

Lemma requestNextBlockBySlot_unfold fuel slot w :
  requestNextBlockBySlot db fuel slot w
  = match inMemoryBlocks (sync w) !! slot with
    | Some block =>
        processBlock db fuel block noPeer (say (LogRequestingBlock slot) w)
    | None =>
        Some (tt, say (P2PBroadcast (BeaconBlockRequestBySlotNumber slot))
                    (say (LogRequestingBlock slot) w))
    end.
Proof.
  unfold requestNextBlockBySlot, requestNextBlockBySlot_body, bind, emit, get.
  simpl. destruct (inMemoryBlocks (sync w) !! slot); reflexivity.
Qed.

Lemma processBlock_unfold fuel b p w :
  processBlock db (S fuel) b p w
  = let w1 := upd (observe (Slot b)) w in
    let s := sync w1 in
    if Slot b <? currentSlot s then Some (tt, w1)
    else if currentSlot s =? 0 then
      if negb (initialCrystallizedStateRoot s =? zeroRoot) then Some (tt, w1)
      else if negb (Slot b =? 1) then
        requestNextBlockBySlot db fuel 1 (upd (store_if_absent b) w1)
      else
        match BlockHash b with
        | None => then_request_state b p (Some (tt, w1))
        | Some _ =>
            match SaveBlock db (trace w1) b with
            | Some e =>
                then_request_state b p
                  (Some (tt, say (DBSaveBlock b (Some e)) w1))
            | None =>
                then_request_state b p
                  (requestNextBlockBySlot db fuel (wrap64 (Slot b + 1))
                     (anchored b w1))
            end
        end
    else if negb (Slot b =? wrap64 (currentSlot s + 1)) then
      Some (tt, upd (store_if_absent b) w1)
    else
      match BlockHash b with
      | None => requestNextBlockBySlot db fuel (wrap64 (currentSlot s + 1)) w1
      | Some _ =>
          match SaveBlock db (trace w1) b with
          | Some e =>
              requestNextBlockBySlot db fuel (wrap64 (currentSlot s + 1))
                (say (DBSaveBlock b (Some e)) w1)
          | None =>
              requestNextBlockBySlot db fuel (wrap64 (Slot b + 1))
                (committed b w1)
          end
      end.
Proof.
  cbv zeta. simpl processBlock.
  fold (requestNextBlockBySlot db fuel).
  cbv beta iota delta [processBlock_body bind get].
  assert (Hw1 : (if highestObservedSlot (sync w) <? Slot b
                 then modify (set_highestObservedSlot (Slot b))
                 else ret tt) w = Some (tt, upd (observe (Slot b)) w)).
  { unfold upd, observe.
    destruct (highestObservedSlot (sync w) <? Slot b); unfold modify, ret;
      simpl; [reflexivity|]. destruct w; reflexivity. }
  rewrite Hw1. clear Hw1.
  generalize (upd (observe (Slot b)) w). intros w1.
  unfold ret at 1. cbv beta iota.
  destruct (Slot b <? currentSlot (sync w1)); [reflexivity|].
  destruct (N.eqb_spec (currentSlot (sync w1)) 0) as [Hz|Hnz].
  - destruct (initialCrystallizedStateRoot (sync w1) =? zeroRoot); simpl;
      [|reflexivity].
    destruct (Slot b =? 1); simpl; [|reflexivity].
    unfold setBlockForInitialSync, requestCrystallizedStateFromPeer.
    destruct (BlockHash b); simpl; [|reflexivity].
    unfold bind, writeBlockToDB. simpl.
    destruct (SaveBlock db (trace w1) b); simpl; [reflexivity|].
    unfold requestNextBlockBySlot, anchored, upd, say. simpl.
    match goal with
    | |- context [requestNextBlockBySlot_body ?f ?n ?v] =>
        destruct (requestNextBlockBySlot_body f n v) as [[[] w2]|]
    end; reflexivity.
  - destruct (N.eqb_spec (Slot b) (wrap64 (currentSlot (sync w1) + 1)))
      as [Hn|Hn]; simpl; [|reflexivity].
    unfold validateAndSaveNextBlock.
    destruct (BlockHash b); simpl; [|reflexivity].
    unfold bind, get, writeBlockToDB. simpl.
    destruct (N.eqb_spec (currentSlot (sync w1)) 0) as [?|_]; [contradiction|].
    replace (wrap64 (currentSlot (sync w1) + 1) =? Slot b) with true
      by (symmetry; apply N.eqb_eq; congruence).
    simpl.
    destruct (SaveBlock db (trace w1) b); simpl; [reflexivity|].
    unfold requestNextBlockBySlot, committed, upd, say. simpl.
    destruct (delete_if_present_fields (Slot b)
                (set_currentSlot (Slot b) (sync w1))) as [-> _].
    reflexivity.
Qed.

End Equations.

(** ** Block processing decomposes into elementary updates *)

Section Decomposition.

Context (db : beaconDB).

Lemma requestNextBlockBySlot_steps fuel slot w w' :
  (forall b p v v',
      processBlock db fuel b p v = Some (tt, v') -> rtc (block_step db) v v') ->
  requestNextBlockBySlot db fuel slot w = Some (tt, w') ->
  rtc (block_step db) w w'.
Proof.
  intros IH. rewrite requestNextBlockBySlot_unfold.
  destruct (inMemoryBlocks (sync w) !! slot) as [blk|]; intros H.
  - apply IH in H. eapply rtc_l; [apply bs_log|exact H].
  - injection H as <-.
    eapply rtc_l; [apply bs_log|]. apply rtc_once. apply bs_broadcast.
Qed.

Lemma then_request_state_steps b p r w w' :
  (forall v, r = Some (tt, v) -> rtc (block_step db) w v) ->
  then_request_state b p r = Some (tt, w') ->
  rtc (block_step db) w w'.
Proof.
  intros Hr. destruct r as [[[] v]|]; simpl; [|discriminate].
  intros H. injection H as <-.
  eapply rtc_r; [apply Hr; reflexivity|apply bs_send].
Qed.

Lemma processBlock_steps_observed fuel : forall b p w w',
  processBlock db fuel b p w = Some (tt, w') ->
  rtc (block_step db) (upd (observe (Slot b)) w) w'.
Proof.
  induction fuel as [|fuel IH]; intros b p w w'; [discriminate|].
  rewrite processBlock_unfold. cbv zeta.
  assert (Hhos : Slot b <= highestObservedSlot (sync (upd (observe (Slot b)) w))).
  { simpl. destruct (observe_fields (Slot b) (sync w)) as (_ & -> & _). lia. }
  revert Hhos. generalize (upd (observe (Slot b)) w). intros w1 Hhos.
  assert (Hreq : forall slot v v',
             requestNextBlockBySlot db fuel slot v = Some (tt, v') ->
             rtc (block_step db) v v').
  { intros slot v v'. apply requestNextBlockBySlot_steps.
    intros b0 p0 v0 v0' H0. apply IH in H0.
    eapply rtc_l; [apply bs_observe|exact H0]. }
  destruct (N.ltb_spec (Slot b) (currentSlot (sync w1))) as [Hlt|Hge].
  { intros H. injection H as <-. apply rtc_refl. }
  destruct (N.eqb_spec (currentSlot (sync w1)) 0) as [Hz|Hnz].
  - destruct (N.eqb_spec (initialCrystallizedStateRoot (sync w1)) zeroRoot)
      as [Hr|Hr]; cbn [negb].
    2:{ intros H. injection H as <-. apply rtc_refl. }
    destruct (N.eqb_spec (Slot b) 1) as [H1|H1]; cbn [negb].
    + destruct (BlockHash b) as [h|].
      * destruct (SaveBlock db (trace w1) b) as [e|] eqn:Hs.
        -- apply then_request_state_steps. intros v Hv. injection Hv as <-.
           apply rtc_once, bs_refused, Hs.
        -- apply then_request_state_steps. intros v Hv. apply Hreq in Hv.
           eapply rtc_l; [apply (bs_anchor db w1 b); auto|exact Hv].
      * apply then_request_state_steps. intros v Hv. injection Hv as <-.
        apply rtc_refl.
    + intros H. apply Hreq in H.
      eapply rtc_l; [apply (bs_buffer db w1 b)|exact H].
  - destruct (N.eqb_spec (Slot b) (wrap64 (currentSlot (sync w1) + 1)))
      as [Hn|Hn]; cbn [negb].
    + destruct (BlockHash b) as [h|].
      * destruct (SaveBlock db (trace w1) b) as [e|] eqn:Hs; intros H;
          apply Hreq in H.
        -- eapply rtc_l; [apply (bs_refused db w1 b e Hs)|exact H].
        -- eapply rtc_l; [apply (bs_commit db w1 b); auto|exact H].
           apply wrap64_succ_ge; [congruence|lia].
      * intros H. apply Hreq in H. exact H.
    + intros H. injection H as <-. apply rtc_once, bs_buffer.
Qed.

Lemma processBlock_steps fuel b p w w' :
  processBlock db fuel b p w = Some (tt, w') -> rtc (block_step db) w w'.
Proof.
  intros H. apply processBlock_steps_observed in H.
  eapply rtc_l; [apply bs_observe|exact H].
Qed.

Lemma dispatch_steps fuel slot w w' :
  requestNextBlockBySlot db fuel slot w = Some (tt, w') ->
  rtc (block_step db) w w'.
Proof.
  apply requestNextBlockBySlot_steps. intros b p v v'. apply processBlock_steps.
Qed.

Lemma processBatchedBlocks_steps fuel p : forall bs w w',
  processBatchedBlocks db fuel bs p w = Some (tt, w') ->
  rtc (block_step db) w w'.
Proof.
  induction bs as [|b bs IH]; intros w w'; simpl.
  - unfold ret. intros H. injection H as <-. apply rtc_refl.
  - unfold bind.
    destruct (processBlock db fuel b p w) as [[[] w1]|] eqn:E; [|discriminate].
    intros H. apply processBlock_steps in E. apply IH in H.
    eapply rtc_trans; eassumption.
Qed.

Lemma block_effect_refl w : block_effect w w.
Proof.
  split; try lia; auto.
  exists []. rewrite app_nil_r. split; [reflexivity|constructor].
Qed.

Lemma block_effect_trans w1 w2 w3 :
  block_effect w1 w2 -> block_effect w2 w3 -> block_effect w1 w3.
Proof.
  intros [A1 A2 A3 A4 (n1 & E1 & F1)] [B1 B2 B3 B4 (n2 & E2 & F2)].
  split; try lia; auto.
  exists (n1 ++ n2). rewrite E2, E1, app_assoc. split; [reflexivity|].
  apply Forall_app. split; assumption.
Qed.

Lemma block_effect_say ev w :
  is_loop_event ev = false -> is_persisted_block ev = false ->
  block_effect w (say ev w).
Proof.
  intros H1 H2. split; simpl; try lia; auto.
  - rewrite persisted_app. unfold persisted at 3, count. simpl.
    rewrite H2. simpl. lia.
  - exists [ev]. split; [reflexivity|]. constructor; [exact H1|constructor].
Qed.

Lemma block_step_effect w w' : block_step db w w' -> block_effect w w'.
Proof.
  destruct 1.
  - destruct (observe_fields slot (sync w)) as (Hc & Hh & _).
    split; simpl; rewrite ?Hc, ?Hh; try lia.
    exists []. rewrite app_nil_r. split; [reflexivity|constructor].
  - destruct (store_if_absent_fields b (sync w)) as (Hc & Hh & _).
    split; simpl; rewrite ?Hc, ?Hh; try lia.
    exists []. rewrite app_nil_r. split; [reflexivity|constructor].
  - apply block_effect_say; reflexivity.
  - apply block_effect_say; reflexivity.
  - apply block_effect_say; reflexivity.
  - apply block_effect_say; reflexivity.
  - assert (Hp : persisted (trace w ++ [DBSaveBlock b None])
                 = persisted (trace w) + 1)
      by (rewrite persisted_app; reflexivity).
    split; simpl; rewrite ?Hp; try lia.
    exists [DBSaveBlock b None]. split; [reflexivity|].
    constructor; [reflexivity|constructor].
  - destruct (delete_if_present_fields (Slot b)
                (set_currentSlot (Slot b) (sync w))) as (Hc & Hh & _).
    assert (Hp : persisted (trace w ++ [DBSaveBlock b None])
                 = persisted (trace w) + 1)
      by (rewrite persisted_app; reflexivity).
    split; simpl; rewrite ?Hc, ?Hh, ?Hp; simpl; try lia.
    exists [DBSaveBlock b None]. split; [reflexivity|].
    constructor; [reflexivity|constructor].
Qed.

Lemma block_steps_effect w w' : rtc (block_step db) w w' -> block_effect w w'.
Proof.
  induction 1 as [|w1 w2 w3 H _ IH]; [apply block_effect_refl|].
  eapply block_effect_trans; [apply block_step_effect; exact H|exact IH].
Qed.

End Decomposition.

(** ** Facts on the event loop *)

Lemma no_loop_event_count (p : Event -> bool) (new : list Event) :
  (forall ev, p ev = true -> is_loop_event ev = true) ->
  Forall (fun ev => is_loop_event ev = false) new ->
  count p new = 0%nat.
Proof.
  intros Hp. unfold count. induction 1 as [|ev new Hev _ IH]; [reflexivity|].
  simpl. destruct (p ev) eqn:E; [|exact IH].
  apply Hp in E. congruence.
Qed.

Lemma is_resume_loop ev : is_resume ev = true -> is_loop_event ev = true.
Proof. destruct ev; simpl; congruence. Qed.


Lemma block_effect_count (p : Event -> bool) w w' :
  (forall ev, p ev = true -> is_loop_event ev = true) ->
  block_effect w w' -> count p (trace w') = count p (trace w).
Proof.
  intros Hp [_ _ _ _ (new & -> & Hnew)].
  rewrite count_app, (no_loop_event_count p new Hp Hnew). lia.
Qed.

Lemma in_world_inv (m : M unit) e e' :
  in_world m e = Some e' ->
  exists w', m (world e) = Some (tt, w') /\ e' = with_world w' e.
Proof.
  unfold in_world. destruct (m (world e)) as [[[] w']|]; [|discriminate].
  intros H. injection H as <-. eauto.
Qed.

Lemma on_blockAnnounce_unfold n w :
  on_blockAnnounce n w
  = Some (tt, say (P2PBroadcast
                     (BatchedBeaconBlockRequest
                        (wrap64 (currentSlot (sync w) + 1))
                        (N.max (highestObservedSlot (sync w)) n)))
                (upd (observe n) w)).
Proof.
  unfold on_blockAnnounce, requestBatchedBlocks, bind, get, emit, say, upd.
  simpl.
  destruct (observe_fields n (sync w)) as (Hc & Hh & _).
  rewrite <- Hc, <- Hh. unfold observe.
  destruct (highestObservedSlot (sync w) <? n); simpl; reflexivity.
Qed.

Section LoopFacts.

Context (db : beaconDB).

(** The inputs whose handling is block processing only. *)
Lemma handle_block_inputs fuel i e e' :
  match i with
  | BlockResponse _ _ | BatchedBlockResponse _ _ | CheckInMemoryBlocks => True
  | _ => False
  end ->
  handle db fuel i e = Some e' ->
  rtc (block_step db) (world e) (world e')
  /\ loopExited e' = loopExited e
  /\ crystallizedStateSubscribed e' = crystallizedStateSubscribed e.
Proof.
  destruct i; try contradiction; intros _; simpl.
  - intros H. apply in_world_inv in H. destruct H as (w' & H & ->).
    apply processBlock_steps in H. auto.
  - intros H. apply in_world_inv in H. destruct H as (w' & H & ->).
    apply processBatchedBlocks_steps in H. auto.
  - unfold on_checkInMemoryBlocks.
    destruct (currentSlot (sync (world e)) =? highestObservedSlot (sync (world e))).
    { intros H. injection H as <-. simpl. split; [apply rtc_refl|auto]. }
    destruct (inMemoryBlocks (sync (world e))
                !! wrap64 (currentSlot (sync (world e)) + 1)) as [blk|].
    2:{ intros H. injection H as <-. split; [apply rtc_refl|auto]. }
    destruct (wrap64 (currentSlot (sync (world e)) + 1)
              <=? highestObservedSlot (sync (world e))).
    2:{ intros H. injection H as <-. split; [apply rtc_refl|auto]. }
    intros H. apply in_world_inv in H. destruct H as (w' & H & ->).
    apply processBlock_steps in H. auto.
Qed.

(** The handling of a crystallized-state response, case by case. *)
Lemma on_crystallizedState_cases fuel c e e' :
  on_crystallizedState db fuel c e = Some e' ->
  let s := sync (world e) in
  let r := SaveCrystallizedState db (trace (world e)) c in
  let saved := say (DBSaveCrystallizedState c r) (world e) in
  ((initialCrystallizedStateRoot s = zeroRoot
    \/ StateHash c <> initialCrystallizedStateRoot s)
   /\ e' = e)
  \/ (initialCrystallizedStateRoot s <> zeroRoot
      /\ StateHash c = initialCrystallizedStateRoot s
      /\ LastFinalizedSlot c <= currentSlot s
      /\ e' = with_world saved e)
  \/ (initialCrystallizedStateRoot s <> zeroRoot
      /\ StateHash c = initialCrystallizedStateRoot s
      /\ currentSlot s < LastFinalizedSlot c
      /\ exists w3,
          rtc (block_step db)
            (upd (set_currentSlot (LastFinalizedSlot c)) saved) w3
          /\ requestNextBlockBySlot db fuel (wrap64 (LastFinalizedSlot c + 1))
               (upd (set_currentSlot (LastFinalizedSlot c)) saved)
             = Some (tt, w3)
          /\ world e' = say (Unsubscribe crystallizedStateSub) w3
          /\ loopExited e' = loopExited e
          /\ crystallizedStateSubscribed e' = false
          /\ checkerExited e' = checkerExited e).
Proof.
  unfold on_crystallizedState. cbv zeta.
  destruct (N.eqb_spec (initialCrystallizedStateRoot (sync (world e))) zeroRoot)
    as [Hr|Hr].
  { intros H. injection H as <-. left. auto. }
  destruct (N.eqb_spec (StateHash c) (initialCrystallizedStateRoot (sync (world e))))
    as [Hh|Hh]; cbn [negb].
  2:{ intros H. injection H as <-. left. auto. }
  destruct (N.leb_spec (LastFinalizedSlot c) (currentSlot (sync (world e))))
    as [Hl|Hl].
  { intros H. injection H as <-. right. left. auto. }
  simpl.
  match goal with
  | |- context [requestNextBlockBySlot db fuel ?n ?v] =>
      destruct (requestNextBlockBySlot db fuel n v) as [[[] w3]|] eqn:E
  end; [|discriminate].
  intros H. injection H as <-. right. right.
  repeat (split; [assumption|]).
  exists w3. simpl. split; [|auto].
  apply dispatch_steps in E. exact E.
Qed.

End LoopFacts.

(** Turns the hypothesis that a block input was handled into the effect
    of the elementary updates made. *)
Ltac by_block_steps H :=
  apply handle_block_inputs in H; [|exact I];
  destruct H as (H & _); apply block_steps_effect in H.

(** ** Sequential commit *)

Lemma on_delay_cursor e e' :
  on_delay e = Some e' ->
  sync (world e') = sync (world e)
  /\ persisted (trace (world e')) = persisted (trace (world e)).
Proof.
  unfold on_delay. cbv zeta.
  destruct (currentSlot (sync (world e)) =? 0).
  { intros H. injection H as <-. auto. }
  destruct (highestObservedSlot (sync (world e)) =? currentSlot (sync (world e))).
  { intros H. injection H as <-. simpl. split; [reflexivity|].
    rewrite !persisted_app.
    change (persisted [ResumeSync]) with 0.
    change (persisted run_deferred) with 0. lia. }
  intros H. apply in_world_inv in H. destruct H as (w' & H & ->).
  unfold requestBatchedBlocks, bind, get, emit in H. simpl in H.
  injection H as <-. simpl. split; [reflexivity|].
  rewrite persisted_app.
  match goal with |- _ + persisted [?ev] = _ =>
    change (persisted [ev]) with 0 end.
  lia.
Qed.

(** C1, as the specification states it, fails: adopting a crystallized
    state moves the cursor from slot 1 to slot 3 in one transition. *)
Lemma sequential_commit_counterexample :
  exists e e',
    run reliableDB 1 [BlockResponse (testBlock 1 9) 3] NewInitialSyncService
    = Some e
    /\ step reliableDB 1 (CrystallizedStateResponse (testState 9 3)) e = Some e'
    /\ currentSlot (sync (world e)) = 1
    /\ currentSlot (sync (world e')) = 3
    /\ ~ currentSlot (sync (world e')) <= currentSlot (sync (world e)) + 1.
Proof.
  eexists. eexists.
  split; [vm_compute; reflexivity|].
  split; [vm_compute; reflexivity|].
  split; [reflexivity|]. split; [reflexivity|].
  simpl. lia.
Qed.

(** C1 (amended): in every transition [currentSlot] never decreases.  A
    timer tick, an announcement and a cancellation leave it unchanged.  In
    a transition that processes blocks (a single or batched delivery, a
    turn of the buffer check) it rises by exactly one per block written to
    the store, so by one for each commit.  The adoption of a crystallized
    state sets it to the last finalized slot of that state, however far
    above, and then by one more for each buffered block committed. *)
Theorem sequential_commit (db : beaconDB) (fuel : nat) (i : Input)
    (e e' : Engine) :
  step db fuel i e = Some e' ->
  let cur := fun x : Engine => currentSlot (sync (world x)) in
  let written := fun x : Engine => persisted (trace (world x)) in
  cur e <= cur e'
  /\ match i with
     | CtxDone | DelayTick | BlockAnnounce _ => cur e' = cur e
     | BlockResponse _ _ | BatchedBlockResponse _ _ | CheckInMemoryBlocks =>
         cur e' + written e = cur e + written e'
     | CrystallizedStateResponse c =>
         cur e' = cur e
         \/ (cur e < LastFinalizedSlot c
             /\ cur e' + written e = LastFinalizedSlot c + written e')
     end.
Proof.
  cbv zeta. unfold step.
  destruct (deliverable i e).
  2:{ intros H. injection H as <-. split; [lia|]. destruct i; auto. }
  destruct i.
  - simpl handle. intros H. injection H as <-.
    destruct (loopExited e); simpl; (split; [lia|reflexivity]).
  - simpl handle. intros H. apply on_delay_cursor in H. destruct H as [-> _].
    split; [lia|reflexivity].
  - simpl handle. intros H. apply in_world_inv in H. destruct H as (w' & H & ->).
    rewrite on_blockAnnounce_unfold in H. injection H as <-. simpl.
    destruct (observe_fields SlotNumber (sync (world e))) as (-> & _).
    split; [lia|reflexivity].
  - intros H. by_block_steps H.
    destruct H as [H1 H2 _ _ _]. split; assumption.
  - simpl handle. intros H. apply on_crystallizedState_cases in H.
    cbv zeta in H.
    destruct H as [(_ & ->)|[(_ & _ & _ & ->)|(_ & _ & Hlt & w3 & H & _ & Hw & _)]].
    + split; [lia|]. left. reflexivity.
    + simpl. split; [lia|]. left. reflexivity.
    + apply block_steps_effect in H. destruct H as [H1 H2 _ _ _].
      simpl in H1, H2. rewrite Hw. simpl.
      rewrite !persisted_app in *.
      change (persisted [Unsubscribe crystallizedStateSub]) with 0.
      match type of H2 with context [persisted [?ev]] =>
        change (persisted [ev]) with 0 in H2 end.
      split; [lia|]. right. split; [exact Hlt|lia].
  - intros H. by_block_steps H.
    destruct H as [H1 H2 _ _ _]. split; assumption.
  - intros H. by_block_steps H.
    destruct H as [H1 H2 _ _ _]. split; assumption.
Qed.

(** The adoption of slot 3 from slot 1 obeys the amended statement. *)
Lemma sequential_commit_witness :
  exists e',
    step reliableDB 0 (CrystallizedStateResponse (testState 9 3))
      (engineAt 1 1 9 ∅) = Some e'
    /\ 1 <= currentSlot (sync (world e'))
    /\ (currentSlot (sync (world e')) = 1
        \/ (1 < 3
            /\ currentSlot (sync (world e')) + 0
               = 3 + persisted (trace (world e')))).
Proof.
  eexists. split; [reflexivity|].
  exact (sequential_commit reliableDB 0
           (CrystallizedStateResponse (testState 9 3))
           (engineAt 1 1 9 ∅) _ eq_refl).
Defined.

(** ** The cursor and the highest observed slot *)

Section Observed.

Context (db : beaconDB).

Lemma processBlock_observes fuel b p w w' :
  processBlock db fuel b p w = Some (tt, w') ->
  Slot b <= highestObservedSlot (sync w').
Proof.
  intros H. apply processBlock_steps_observed, block_steps_effect in H.
  destruct H as [_ _ H _ _]. simpl in H.
  destruct (observe_fields (Slot b) (sync w)) as (_ & Hh & _).
  rewrite Hh in H. lia.
Qed.

Lemma processBatchedBlocks_observes fuel p : forall bs w w',
  processBatchedBlocks db fuel bs p w = Some (tt, w') ->
  forall b, In b bs -> Slot b <= highestObservedSlot (sync w').
Proof.
  induction bs as [|b0 bs IH]; intros w w' H b Hin; [destruct Hin|].
  simpl in H. unfold bind in H.
  destruct (processBlock db fuel b0 p w) as [[[] w1]|] eqn:E; [|discriminate].
  destruct Hin as [<-|Hin].
  - apply processBlock_observes in E.
    apply processBatchedBlocks_steps, block_steps_effect in H.
    destruct H as [_ _ H _ _]. lia.
  - eapply IH; eassumption.
Qed.

(** Processing a block that has been observed, on a buffer of observed
    blocks, leaves [highestObservedSlot] as it is. *)
Lemma dispatch_keeps_observed fuel slot w w' :
  (forall b p v v',
      processBlock db fuel b p v = Some (tt, v') ->
      Slot b <= highestObservedSlot (sync v) ->
      buffer_observed (sync v) ->
      highestObservedSlot (sync v') = highestObservedSlot (sync v)
      /\ buffer_observed (sync v')) ->
  requestNextBlockBySlot db fuel slot w = Some (tt, w') ->
  buffer_observed (sync w) ->
  highestObservedSlot (sync w') = highestObservedSlot (sync w)
  /\ buffer_observed (sync w').
Proof.
  intros IH. rewrite requestNextBlockBySlot_unfold.
  destruct (inMemoryBlocks (sync w) !! slot) as [blk|] eqn:E; intros H Hobs.
  - apply IH in H; [exact H|exact (Hobs _ _ E)|exact Hobs].
  - injection H as <-. simpl. auto.
Qed.

Lemma processBlock_keeps_observed fuel : forall b p w w',
  processBlock db fuel b p w = Some (tt, w') ->
  Slot b <= highestObservedSlot (sync w) ->
  buffer_observed (sync w) ->
  highestObservedSlot (sync w') = highestObservedSlot (sync w)
  /\ buffer_observed (sync w').
Proof.
  induction fuel as [|fuel IH]; intros b p w w'; [discriminate|].
  rewrite processBlock_unfold. cbv zeta. intros H Hb Hobs. revert H.
  replace (upd (observe (Slot b)) w) with w
    by (unfold upd; rewrite observe_id by exact Hb; destruct w; reflexivity).
  pose proof (fun slot v v' => dispatch_keeps_observed fuel slot v v' IH)
    as Hreq.
  assert (Hstore : buffer_observed (store_if_absent b (sync w))).
  { intros k b' Hk. destruct (store_if_absent_fields b (sync w)) as (_ & -> & _).
    unfold store_if_absent in Hk.
    destruct (inMemoryBlocks (sync w) !! Slot b) eqn:E; [exact (Hobs _ _ Hk)|].
    simpl in Hk. destruct (decide (Slot b = k)) as [<-|Hne].
    - rewrite lookup_insert_eq in Hk. injection Hk as <-. exact Hb.
    - rewrite lookup_insert_ne in Hk by exact Hne. exact (Hobs _ _ Hk). }
  destruct (Slot b <? currentSlot (sync w)).
  { intros [= <-]. auto. }
  destruct (currentSlot (sync w) =? 0).
  - destruct (negb (initialCrystallizedStateRoot (sync w) =? zeroRoot)).
    { intros [= <-]. auto. }
    destruct (negb (Slot b =? 1)).
    + intros H. apply Hreq in H; [|exact Hstore].
      destruct H as [H1 H2]. split; [|exact H2]. rewrite H1. simpl.
      apply (store_if_absent_fields b (sync w)).
    + destruct (BlockHash b).
      * destruct (SaveBlock db (trace w) b).
        -- intros [= <-]. auto.
        -- destruct (requestNextBlockBySlot db fuel (wrap64 (Slot b + 1))
                       (anchored b w)) as [[[] w2]|] eqn:E; [|discriminate].
           intros [= <-]. simpl. apply Hreq in E; [exact E|exact Hobs].
      * intros [= <-]. auto.
  - destruct (negb (Slot b =? wrap64 (currentSlot (sync w) + 1))).
    { intros [= <-]. simpl. split; [|exact Hstore].
      apply (store_if_absent_fields b (sync w)). }
    destruct (BlockHash b).
    + destruct (SaveBlock db (trace w) b).
      * intros H. apply Hreq in H; [exact H|exact Hobs].
      * intros H. apply Hreq in H.
        -- destruct H as [H1 H2]. split; [|exact H2]. rewrite H1.
           unfold committed. simpl.
           apply (delete_if_present_fields (Slot b)
                    (set_currentSlot (Slot b) (sync w))).
        -- intros k b' Hk. unfold committed in *. simpl in *.
           destruct (delete_if_present_fields (Slot b)
                       (set_currentSlot (Slot b) (sync w)))
             as (_ & Dh & _ & Dm).
           rewrite Dh. rewrite Dm in Hk. simpl in Hk.
           apply lookup_delete_Some in Hk. destruct Hk as [_ Hk].
           exact (Hobs _ _ Hk).
    + intros H. apply Hreq in H; [exact H|exact Hobs].
Qed.

Lemma observed_twice slot w :
  upd (observe slot) (upd (observe slot) w) = upd (observe slot) w.
Proof.
  unfold upd. cbn [sync trace]. f_equal. apply observe_id.
  destruct (observe_fields slot (sync w)) as (_ & -> & _). lia.
Qed.

(** Processing any block keeps the buffered blocks observed. *)
Lemma processBlock_buffer_observed fuel b p w w' :
  processBlock db fuel b p w = Some (tt, w') ->
  buffer_observed (sync w) -> buffer_observed (sync w').
Proof.
  destruct fuel as [|fuel]; [discriminate|]. intros H Hobs.
  assert (H1 : processBlock db (S fuel) b p (upd (observe (Slot b)) w)
               = Some (tt, w')).
  { rewrite processBlock_unfold in *. cbv zeta in *.
    rewrite observed_twice. exact H. }
  apply processBlock_keeps_observed in H1; [apply H1| |].
  - cbn [upd sync].
    destruct (observe_fields (Slot b) (sync w)) as (_ & -> & _). lia.
  - intros k b' Hk. cbn [upd sync] in *.
    destruct (observe_fields (Slot b) (sync w)) as (_ & -> & _ & Om).
    rewrite Om in Hk. pose proof (Hobs _ _ Hk). lia.
Qed.

Lemma processBatchedBlocks_buffer_observed fuel p : forall bs w w',
  processBatchedBlocks db fuel bs p w = Some (tt, w') ->
  buffer_observed (sync w) -> buffer_observed (sync w').
Proof.
  induction bs as [|b0 bs IH]; intros w w' H Hobs.
  - injection H as <-. exact Hobs.
  - simpl in H. unfold bind in H.
    destruct (processBlock db fuel b0 p w) as [[[] w1]|] eqn:E; [|discriminate].
    apply (IH _ _ H). eapply processBlock_buffer_observed; eassumption.
Qed.

(** Every transition keeps the buffered blocks observed. *)
Lemma step_buffer_observed fuel i e e' :
  step db fuel i e = Some e' ->
  buffer_observed (sync (world e)) -> buffer_observed (sync (world e')).
Proof.
  unfold step. destruct (deliverable i e); [|intros [= <-]; auto].
  destruct i; simpl handle.
  - intros [= <-]. destruct (loopExited e); auto.
  - intros H. apply on_delay_cursor in H. destruct H as [-> _]. auto.
  - intros H Hobs. apply in_world_inv in H. destruct H as (w' & H & ->).
    rewrite on_blockAnnounce_unfold in H. injection H as <-.
    intros k b Hk. cbn [with_world world say upd sync] in *.
    destruct (observe_fields SlotNumber (sync (world e)))
      as (_ & -> & _ & Om).
    rewrite Om in Hk. pose proof (Hobs _ _ Hk). lia.
  - intros H Hobs. apply in_world_inv in H. destruct H as (w' & H & ->).
    eapply processBlock_buffer_observed; eassumption.
  - intros H Hobs. apply on_crystallizedState_cases in H. cbv zeta in H.
    destruct H as [(_ & ->)|[(_ & _ & _ & ->)
                            |(_ & _ & _ & w3 & _ & Hreq & -> & _)]];
      [exact Hobs|exact Hobs|].
    apply (dispatch_keeps_observed fuel _ _ _
             (processBlock_keeps_observed fuel)) in Hreq; [|exact Hobs].
    apply Hreq.
  - intros H Hobs. apply in_world_inv in H. destruct H as (w' & H & ->).
    eapply processBatchedBlocks_buffer_observed; eassumption.
  - unfold on_checkInMemoryBlocks.
    destruct (currentSlot (sync (world e)) =? highestObservedSlot (sync (world e))).
    { intros [= <-]. auto. }
    destruct (inMemoryBlocks (sync (world e))
                !! wrap64 (currentSlot (sync (world e)) + 1)) as [blk|];
      [|intros [= <-]; auto].
    destruct (wrap64 (currentSlot (sync (world e)) + 1)
              <=? highestObservedSlot (sync (world e)));
      [|intros [= <-]; auto].
    intros H Hobs. apply in_world_inv in H. destruct H as (w' & H & ->).
    eapply processBlock_buffer_observed; eassumption.
Qed.

End Observed.

(** C2, as the specification states it, fails: after the anchor block and
    the adoption of a crystallized state finalized at slot 3, the cursor is
    at 3 while the highest observed slot is still 1. *)
Lemma observed_bound_counterexample :
  exists e,
    run reliableDB 1
      [BlockResponse (testBlock 1 9) 3;
       CrystallizedStateResponse (testState 9 3)]
      NewInitialSyncService = Some e
    /\ currentSlot (sync (world e)) = 3
    /\ highestObservedSlot (sync (world e)) = 1
    /\ ~ currentSlot (sync (world e)) <= highestObservedSlot (sync (world e)).
Proof.
  eexists. split; [vm_compute; reflexivity|].
  split; [reflexivity|]. split; [reflexivity|]. simpl. lia.
Qed.

(** C2 (amended): [highestObservedSlot] never decreases, in any
    transition, and the blocks in the buffer stay observed (none has a slot
    above [highestObservedSlot]).  Every transition keeps
    [currentSlot <= highestObservedSlot] except the adoption of a
    crystallized state (a response taken while the loop runs that matches
    the anchor root and is finalized above the cursor) whose last finalized
    slot is above [highestObservedSlot]: that one moves the cursor to the
    last finalized slot or further and, the buffered blocks being observed,
    leaves [highestObservedSlot] as it is, below the cursor.  A delivered
    block or an announcement with a higher slot is no error:
    [highestObservedSlot] is raised to it. *)
Theorem observed_bound (db : beaconDB) (fuel : nat) (i : Input)
    (e e' : Engine) :
  step db fuel i e = Some e' ->
  let cur := fun x : Engine => currentSlot (sync (world x)) in
  let top := fun x : Engine => highestObservedSlot (sync (world x)) in
  let adopts := fun c : CrystallizedState =>
    i = CrystallizedStateResponse c
    /\ loopExited e = false
    /\ initialCrystallizedStateRoot (sync (world e)) <> zeroRoot
    /\ StateHash c = initialCrystallizedStateRoot (sync (world e))
    /\ cur e < LastFinalizedSlot c in
  (buffer_observed (sync (world e)) -> buffer_observed (sync (world e')))
  /\ top e <= top e'
  /\ (cur e <= top e ->
      cur e' <= top e'
      \/ exists c, adopts c /\ top e < LastFinalizedSlot c)
  /\ (forall c,
         adopts c -> top e < LastFinalizedSlot c ->
         LastFinalizedSlot c <= cur e'
         /\ (buffer_observed (sync (world e)) ->
             top e' = top e /\ top e' < cur e'))
  /\ (deliverable i e = true ->
      (forall b, In b (delivered_blocks i) -> Slot b <= top e')
      /\ (forall n, i = BlockAnnounce n -> n <= top e')).
Proof.
  intros Hstep cur top adopts. subst cur top adopts. cbv beta.
  split; [exact (step_buffer_observed db fuel i e e' Hstep)|].
  revert Hstep. unfold step.
  destruct (deliverable i e) eqn:Hd.
  2:{ intros H. injection H as <-.
      split; [lia|]. split; [auto|]. split; [|discriminate].
      intros c (-> & Hex & _) _. simpl in Hd. rewrite Hex in Hd.
      discriminate Hd. }
  assert (Hother :
            forall (i0 : Input) (cur' top' : N),
            (forall c, i0 <> CrystallizedStateResponse c) ->
            highestObservedSlot (sync (world e)) <= top' ->
            (currentSlot (sync (world e))
             <= highestObservedSlot (sync (world e)) -> cur' <= top') ->
            ((forall b, In b (delivered_blocks i0) -> Slot b <= top')
             /\ (forall n, i0 = BlockAnnounce n -> n <= top')) ->
            highestObservedSlot (sync (world e)) <= top'
            /\ (currentSlot (sync (world e))
                <= highestObservedSlot (sync (world e)) ->
                cur' <= top'
                \/ exists c,
                    (i0 = CrystallizedStateResponse c
                     /\ loopExited e = false
                     /\ initialCrystallizedStateRoot (sync (world e))
                        <> zeroRoot
                     /\ StateHash c
                        = initialCrystallizedStateRoot (sync (world e))
                     /\ currentSlot (sync (world e)) < LastFinalizedSlot c)
                    /\ highestObservedSlot (sync (world e))
                       < LastFinalizedSlot c)
            /\ (forall c,
                   i0 = CrystallizedStateResponse c
                   /\ loopExited e = false
                   /\ initialCrystallizedStateRoot (sync (world e))
                      <> zeroRoot
                   /\ StateHash c
                      = initialCrystallizedStateRoot (sync (world e))
                   /\ currentSlot (sync (world e)) < LastFinalizedSlot c ->
                   highestObservedSlot (sync (world e))
                   < LastFinalizedSlot c ->
                   LastFinalizedSlot c <= cur'
                   /\ (buffer_observed (sync (world e)) ->
                       top' = highestObservedSlot (sync (world e))
                       /\ top' < cur'))
            /\ (true = true ->
                (forall b, In b (delivered_blocks i0) -> Slot b <= top')
                /\ (forall n, i0 = BlockAnnounce n -> n <= top'))).
  { intros i0 cur' top' Hi H1 H2 H3. split; [exact H1|]. split; [auto|].
    split; [|auto]. intros c (Hc & _) _. exfalso. exact (Hi c Hc). }
  destruct i.
  - simpl handle. intros H. injection H as <-.
    apply Hother; [discriminate| | |split; [intros b []|discriminate]];
      destruct (loopExited e); simpl; auto; lia.
  - simpl handle. intros H. apply on_delay_cursor in H. destruct H as [-> _].
    apply Hother; [discriminate|lia|auto|].
    split; [intros b []|discriminate].
  - simpl handle. intros H. apply in_world_inv in H.
    destruct H as (w' & H & ->).
    rewrite on_blockAnnounce_unfold in H. injection H as <-. simpl.
    destruct (observe_fields SlotNumber (sync (world e))) as (Oc & Oh & _).
    apply Hother; simpl; rewrite ?Oc, ?Oh; [discriminate|lia|lia|].
    split; [intros b []|]. intros n Hn. injection Hn as <-. lia.
  - intros H. pose proof H as H0.
    apply handle_block_inputs in H; [|exact I].
    destruct H as (H & _). apply block_steps_effect in H.
    destruct H as [_ _ H3 H4 _].
    apply Hother; [discriminate|exact H3|exact H4|].
    split; [|discriminate].
    intros b [<-|[]]. simpl in H0. apply in_world_inv in H0.
    destruct H0 as (w' & H0 & ->). apply processBlock_observes in H0. exact H0.
  - clear Hother. simpl in Hd. apply negb_true_iff in Hd.
    simpl handle. intros H.
    apply on_crystallizedState_cases in H. cbv zeta in H.
    destruct H as [(Hno & ->)
                  |[(_ & _ & Hle & ->)
                   |(Hroot & Hhash & Hlt & w3 & H & Hreq & Hw & _)]].
    + split; [lia|]. split; [auto|]. split.
      * intros c0 (Hc0 & _ & Hr & Hh & _) _. injection Hc0 as <-.
        destruct Hno as [Hz|Hne]; contradiction.
      * intros _. split; [intros b []|discriminate].
    + simpl. split; [lia|]. split; [auto|]. split.
      * intros c0 (Hc0 & _ & _ & _ & Hlt) _. injection Hc0 as <-. lia.
      * intros _. split; [intros b []|discriminate].
    + apply block_steps_effect in H. destruct H as [H1 _ H3 H4 _].
      simpl in H1, H3, H4. rewrite Hw. simpl.
      split; [exact H3|]. split; [|split].
      * intros Hb.
        destruct (N.le_gt_cases (LastFinalizedSlot c)
                    (highestObservedSlot (sync (world e)))) as [Hc|Hc].
        -- left. apply H4. exact Hc.
        -- right. exists c. auto 6.
      * intros c0 (Hc0 & _) Htop. injection Hc0 as <-.
        split; [exact H1|]. intros Hobs.
        apply (dispatch_keeps_observed db fuel _ _ _
                 (processBlock_keeps_observed db fuel)) in Hreq;
          [|exact Hobs].
        destruct Hreq as [Hsame _]. simpl in Hsame.
        split; [exact Hsame|]. rewrite Hsame. lia.
      * intros _. split; [intros b []|discriminate].
  - intros H. pose proof H as H0.
    apply handle_block_inputs in H; [|exact I].
    destruct H as (H & _). apply block_steps_effect in H.
    destruct H as [_ _ H3 H4 _].
    apply Hother; [discriminate|exact H3|exact H4|].
    split; [|discriminate].
    intros b Hin. simpl in H0, Hin. apply in_world_inv in H0.
    destruct H0 as (w' & H0 & ->).
    eapply processBatchedBlocks_observes in H0; eassumption.
  - intros H.
    apply handle_block_inputs in H; [|exact I].
    destruct H as (H & _). apply block_steps_effect in H.
    destruct H as [_ _ H3 H4 _].
    apply Hother; [discriminate|exact H3|exact H4|].
    split; [intros b []|discriminate].
Qed.

(** After the anchor block of slot 1, a crystallized state finalized at
    slot 3 is adopted: the cursor goes to 3 and the highest observed slot
    stays 1. *)
Lemma observed_bound_witness :
  exists e',
    step reliableDB 1 (CrystallizedStateResponse (testState 9 3))
      (engineAt 1 1 9 ∅) = Some e'
    /\ 3 <= currentSlot (sync (world e'))
    /\ highestObservedSlot (sync (world e')) = 1.
Proof.
  eexists. split; [reflexivity|].
  edestruct (observed_bound reliableDB 1
               (CrystallizedStateResponse (testState 9 3))
               (engineAt 1 1 9 ∅)) as (_ & _ & _ & H3 & _).
  - reflexivity.
  - destruct (H3 (testState 9 3)) as (Hcur & Htop).
    + split; [reflexivity|]. split; [reflexivity|].
      split; [vm_compute; lia|]. split; [reflexivity|]. reflexivity.
    + reflexivity.
    + split; [exact Hcur|]. apply Htop.
      intros k b Hk. simpl in Hk. rewrite lookup_empty in Hk. discriminate.
Defined.

(** ** The anchor *)

Section Anchor.

Context (db : beaconDB).

Lemma anchor_respected_say tr0 ev w :
  is_persisted_block ev = false ->
  anchor_respected tr0 w -> anchor_respected tr0 (say ev w).
Proof.
  intros Hev (new & E & H). exists (new ++ [ev]). simpl.
  rewrite E, app_assoc. split; [reflexivity|].
  rewrite first_persisted_app.
  destruct (first_persisted new); [exact H|].
  unfold first_persisted. simpl. rewrite Hev. exact H.
Qed.

Lemma anchor_respected_step tr0 w w' :
  block_step db w w' -> anchor_respected tr0 w -> anchor_respected tr0 w'.
Proof.
  destruct 1.
  - intros (new & E & H). exists new. simpl. split; [exact E|].
    destruct (observe_fields slot (sync w)) as (-> & _ & -> & _). exact H.
  - intros (new & E & H). exists new. simpl. split; [exact E|].
    destruct (store_if_absent_fields b (sync w)) as (-> & _ & ->). exact H.
  - apply anchor_respected_say. reflexivity.
  - apply anchor_respected_say. reflexivity.
  - apply anchor_respected_say. reflexivity.
  - apply anchor_respected_say. reflexivity.
  - intros (new & E & Hn). exists (new ++ [DBSaveBlock b None]). simpl.
    rewrite E, app_assoc. split; [reflexivity|].
    rewrite first_persisted_app.
    destruct (first_persisted new) as [b1|].
    + destruct Hn as (_ & _ & Hn). contradiction.
    + unfold first_persisted. simpl. repeat split; [assumption|lia].
  - intros (new & E & Hn). exists (new ++ [DBSaveBlock b None]). simpl.
    rewrite E, app_assoc. split; [reflexivity|].
    rewrite first_persisted_app.
    destruct (delete_if_present_fields (Slot b)
                (set_currentSlot (Slot b) (sync w))) as (-> & _ & -> & _).
    simpl.
    destruct (first_persisted new) as [b1|].
    + destruct Hn as (Hn1 & Hn2 & _). repeat split; [assumption..|lia].
    + destruct Hn as (Hn & _). contradiction.
Qed.

Lemma anchor_respected_steps tr0 w w' :
  rtc (block_step db) w w' -> anchor_respected tr0 w -> anchor_respected tr0 w'.
Proof.
  induction 1 as [|w1 w2 w3 H _ IH]; [auto|].
  intros Hw. apply IH. eapply anchor_respected_step; eassumption.
Qed.

Lemma run_anchor_respected fuel tr0 : forall inputs e e',
  Forall (fun i => is_block_delivery i = true) inputs ->
  run db fuel inputs e = Some e' ->
  anchor_respected tr0 (world e) -> anchor_respected tr0 (world e').
Proof.
  induction inputs as [|i inputs IH]; intros e e' Hall; simpl.
  - intros H. injection H as <-. auto.
  - inversion Hall as [|? ? Hi Hrest]; subst.
    destruct (step db fuel i e) as [e1|] eqn:E; [|discriminate].
    intros H Hw. eapply IH; [exact Hrest|exact H|].
    unfold step in E. destruct (deliverable i e).
    2:{ injection E as <-. exact Hw. }
    apply handle_block_inputs in E.
    + destruct E as (E & _). eapply anchor_respected_steps; eassumption.
    + destruct i; try discriminate Hi; exact I.
Qed.

(** Before the anchor, a block of another slot than 1 is buffered and
    slot 1 is requested: this needs one unit of fuel and nothing else. *)
Lemma processBlock_pre_anchor fuel b p w :
  currentSlot (sync w) = 0 ->
  initialCrystallizedStateRoot (sync w) = zeroRoot ->
  inMemoryBlocks (sync w) !! 1 = None ->
  Slot b <> 1 ->
  processBlock db (S fuel) b p w
  = Some (tt, {| sync := store_if_absent b (observe (Slot b) (sync w));
                 trace := trace w ++ slot1_requests [b] |}).
Proof.
  intros Hc Hr Hm Hb. rewrite processBlock_unfold. cbv zeta. simpl.
  destruct (observe_fields (Slot b) (sync w)) as (Hc' & _ & Hr' & Hm').
  rewrite Hc', Hr', Hc, Hr.
  destruct (N.ltb_spec (Slot b) 0) as [?|_]; [lia|]. simpl.
  destruct (N.eqb_spec (Slot b) 1) as [?|_]; [contradiction|]. simpl.
  rewrite requestNextBlockBySlot_unfold. simpl.
  assert (Hnone : inMemoryBlocks (store_if_absent b (observe (Slot b) (sync w)))
                  !! 1 = None).
  { unfold store_if_absent.
    destruct (inMemoryBlocks (observe (Slot b) (sync w)) !! Slot b); simpl.
    - rewrite Hm'. exact Hm.
    - rewrite lookup_insert_ne by exact Hb. rewrite Hm'. exact Hm. }
  rewrite Hnone. unfold say, slot1_requests. simpl.
  rewrite <- app_assoc. reflexivity.
Qed.

Lemma buffer_all_pre_anchor : forall bs s,
  currentSlot s = 0 ->
  initialCrystallizedStateRoot s = zeroRoot ->
  inMemoryBlocks s !! 1 = None ->
  Forall (fun b => Slot b <> 1) bs ->
  currentSlot (buffer_all bs s) = 0
  /\ initialCrystallizedStateRoot (buffer_all bs s) = zeroRoot
  /\ inMemoryBlocks (buffer_all bs s) !! 1 = None
  /\ (forall k, is_Some (inMemoryBlocks s !! k) ->
                is_Some (inMemoryBlocks (buffer_all bs s) !! k))
  /\ (forall b, In b bs ->
                is_Some (inMemoryBlocks (buffer_all bs s) !! Slot b)).
Proof.
  induction bs as [|b bs IH]; intros s Hc Hr Hm Hall.
  - simpl. repeat split; auto. intros b [].
  - inversion Hall as [|? ? Hb Hrest]; subst.
    set (s1 := store_if_absent b (observe (Slot b) s)).
    destruct (store_if_absent_fields b (observe (Slot b) s)) as (Sc & _ & Sr).
    destruct (observe_fields (Slot b) s) as (Oc & _ & Or & Om).
    assert (Hkeep : forall k, is_Some (inMemoryBlocks s !! k) ->
                              is_Some (inMemoryBlocks s1 !! k)).
    { intros k Hk. unfold s1, store_if_absent.
      destruct (inMemoryBlocks (observe (Slot b) s) !! Slot b) eqn:E; simpl.
      - rewrite Om. exact Hk.
      - rewrite Om. destruct (decide (Slot b = k)) as [->|Hne].
        + rewrite lookup_insert_eq. eauto.
        + rewrite lookup_insert_ne by exact Hne. exact Hk. }
    assert (Hown : is_Some (inMemoryBlocks s1 !! Slot b)).
    { unfold s1, store_if_absent.
      destruct (inMemoryBlocks (observe (Slot b) s) !! Slot b) eqn:E; simpl.
      - rewrite E. eauto.
      - rewrite lookup_insert_eq. eauto. }
    assert (Hone : inMemoryBlocks s1 !! 1 = None).
    { unfold s1, store_if_absent.
      destruct (inMemoryBlocks (observe (Slot b) s) !! Slot b) eqn:E; simpl.
      - rewrite Om. exact Hm.
      - rewrite lookup_insert_ne by exact Hb. rewrite Om. exact Hm. }
    destruct (IH s1) as (I1 & I2 & I3 & I4 & I5); auto.
    { unfold s1. rewrite Sc, Oc. exact Hc. }
    { unfold s1. rewrite Sr, Or. exact Hr. }
    change (buffer_all (b :: bs) s) with (buffer_all bs s1).
    repeat split; auto.
    intros b' [<-|Hin]; auto.
Qed.

Lemma buffer_all_app bs1 bs2 s :
  buffer_all (bs1 ++ bs2) s = buffer_all bs2 (buffer_all bs1 s).
Proof. unfold buffer_all. apply fold_left_app. Qed.

Lemma slot1_requests_app bs1 bs2 :
  slot1_requests (bs1 ++ bs2) = slot1_requests bs1 ++ slot1_requests bs2.
Proof. unfold slot1_requests. rewrite map_app, concat_app. reflexivity. Qed.

Lemma processBatchedBlocks_pre_anchor fuel p : forall bs w,
  currentSlot (sync w) = 0 ->
  initialCrystallizedStateRoot (sync w) = zeroRoot ->
  inMemoryBlocks (sync w) !! 1 = None ->
  Forall (fun b => Slot b <> 1) bs ->
  processBatchedBlocks db (S fuel) bs p w
  = Some (tt, {| sync := buffer_all bs (sync w);
                 trace := trace w ++ slot1_requests bs |}).
Proof.
  induction bs as [|b bs IH]; intros w Hc Hr Hm Hall.
  - simpl. unfold ret. rewrite app_nil_r. destruct w; reflexivity.
  - inversion Hall as [|? ? Hb Hrest]; subst.
    cbn [processBatchedBlocks]. unfold bind.
    rewrite processBlock_pre_anchor by assumption.
    destruct (buffer_all_pre_anchor [b] (sync w) Hc Hr Hm)
      as (B1 & B2 & B3 & _); [constructor; [exact Hb|constructor]|].
    rewrite IH; [|exact B1|exact B2|exact B3|exact Hrest].
    simpl. rewrite <- app_assoc. reflexivity.
Qed.

Lemma run_pre_anchor fuel : forall inputs e,
  Forall (fun i => is_block_delivery i = true) inputs ->
  loopExited e = false ->
  currentSlot (sync (world e)) = 0 ->
  initialCrystallizedStateRoot (sync (world e)) = zeroRoot ->
  inMemoryBlocks (sync (world e)) !! 1 = None ->
  Forall (fun b => Slot b <> 1) (concat (map delivered_blocks inputs)) ->
  run db (S fuel) inputs e
  = Some (with_world
            {| sync := buffer_all (concat (map delivered_blocks inputs))
                         (sync (world e));
               trace := trace (world e)
                        ++ slot1_requests
                             (concat (map delivered_blocks inputs)) |} e).
Proof.
  induction inputs as [|i inputs IH]; intros e Hdel Hrun Hc Hr Hm Hall.
  - simpl. rewrite app_nil_r. destruct e as [[s t] ? ? ?]. reflexivity.
  - inversion Hdel as [|? ? Hi Hrest]; subst.
    cbn [map concat] in Hall. apply Forall_app in Hall.
    destruct Hall as [Hall1 Hall2].
    assert (Hstep : step db (S fuel) i e
                    = Some (with_world
                              {| sync := buffer_all (delivered_blocks i)
                                           (sync (world e));
                                 trace := trace (world e)
                                          ++ slot1_requests (delivered_blocks i)
                              |} e)).
    { unfold step. destruct i; try discriminate Hi; simpl deliverable;
        rewrite Hrun; cbn [negb handle delivered_blocks]; unfold in_world.
      - inversion Hall1; subst.
        rewrite processBlock_pre_anchor by assumption. reflexivity.
      - rewrite processBatchedBlocks_pre_anchor by assumption. reflexivity. }
    cbn [run]. rewrite Hstep.
    destruct (buffer_all_pre_anchor (delivered_blocks i) (sync (world e))
                Hc Hr Hm Hall1) as (B1 & B2 & B3 & _).
    rewrite IH; auto.
    cbn [map concat]. rewrite buffer_all_app, slot1_requests_app. simpl.
    rewrite <- app_assoc. reflexivity.
Qed.

End Anchor.

Lemma buffer_all_keys : forall bs s k b',
  inMemoryBlocks (buffer_all bs s) !! k = Some b' ->
  inMemoryBlocks s !! k = Some b' \/ (In b' bs /\ Slot b' = k).
Proof.
  induction bs as [|b bs IH]; intros s k b' H; [left; exact H|].
  change (buffer_all (b :: bs) s)
    with (buffer_all bs (store_if_absent b (observe (Slot b) s))) in H.
  apply IH in H. destruct H as [H|[H1 H2]].
  - destruct (observe_fields (Slot b) s) as (_ & _ & _ & Om).
    unfold store_if_absent in H.
    destruct (inMemoryBlocks (observe (Slot b) s) !! Slot b) eqn:E;
      simpl in H.
    + left. rewrite <- Om. exact H.
    + destruct (decide (Slot b = k)) as [Hk|Hk].
      * subst k. rewrite lookup_insert_eq in H. injection H as <-.
        right. split; [left; reflexivity|reflexivity].
      * rewrite lookup_insert_ne in H by exact Hk. left.
        rewrite <- Om. exact H.
  - right. split; [right; exact H1|exact H2].
Qed.

Lemma slot1_requests_no_store bs :
  count is_store_call (slot1_requests bs) = 0%nat.
Proof. induction bs as [|b bs IH]; [reflexivity|exact IH]. Qed.

(** C3: over any sequence of block deliveries that starts with no anchor
    ([currentSlot = 0], zero anchor root): whenever a block has been
    written to the store, the first one written has slot 1 and the anchor
    root is its crystallized-state root, and otherwise [currentSlot] and
    the anchor root are still zero; and as long as every delivered block
    has another slot than 1, each delivery returns with one unit of fuel,
    the blocks are kept in the buffer under their slot (an entry already
    there is not replaced), only requests for slot 1 are issued, the store
    is never called, and [currentSlot] stays 0. *)
Theorem anchor_invariant (db : beaconDB) (fuel : nat) (inputs : list Input)
    (e : Engine) :
  Forall (fun i => is_block_delivery i = true) inputs ->
  currentSlot (sync (world e)) = 0 ->
  initialCrystallizedStateRoot (sync (world e)) = zeroRoot ->
  let blocks := concat (map delivered_blocks inputs) in
  (forall e',
      run db fuel inputs e = Some e' ->
      exists new,
        trace (world e') = trace (world e) ++ new
        /\ match first_persisted new with
           | None =>
               currentSlot (sync (world e')) = 0
               /\ initialCrystallizedStateRoot (sync (world e')) = zeroRoot
           | Some b1 =>
               Slot b1 = 1
               /\ initialCrystallizedStateRoot (sync (world e'))
                  = CrystallizedStateRoot b1
               /\ currentSlot (sync (world e')) <> 0
           end)
  /\ (loopExited e = false ->
      inMemoryBlocks (sync (world e)) !! 1 = None ->
      Forall (fun b => Slot b <> 1) blocks ->
      exists e',
        run db (S fuel) inputs e = Some e'
        /\ sync (world e') = buffer_all blocks (sync (world e))
        /\ trace (world e') = trace (world e) ++ slot1_requests blocks
        /\ count is_store_call (slot1_requests blocks) = 0%nat
        /\ currentSlot (sync (world e')) = 0
        /\ initialCrystallizedStateRoot (sync (world e')) = zeroRoot
        /\ (forall b, In b blocks ->
                      is_Some (inMemoryBlocks (sync (world e')) !! Slot b))
        /\ (forall k b',
               inMemoryBlocks (sync (world e')) !! k = Some b' ->
               inMemoryBlocks (sync (world e)) !! k = Some b'
               \/ (In b' blocks /\ Slot b' = k))).
Proof.
  intros Hdel Hc Hr blocks. split.
  - intros e' Hrun.
    apply (run_anchor_respected db fuel (trace (world e)) inputs e e' Hdel Hrun).
    exists []. rewrite app_nil_r. split; [reflexivity|]. simpl. auto.
  - intros Hloop Hm Hall.
    eexists. split; [apply run_pre_anchor; assumption|]. simpl.
    fold blocks.
    destruct (buffer_all_pre_anchor blocks (sync (world e)) Hc Hr Hm Hall)
      as (B1 & B2 & _ & _ & B5).
    split; [reflexivity|]. split; [reflexivity|].
    split; [apply slot1_requests_no_store|].
    split; [exact B1|]. split; [exact B2|]. split; [exact B5|].
    intros k b'. apply buffer_all_keys.
Qed.

(** Blocks of slots 5 and 3, then a batch of slots 7 and 5, delivered to a
    fresh service: all are buffered.  When the block of slot 1 follows, it
    is the first one written to the store. *)
Lemma anchor_invariant_witness :
  let early := [BlockResponse (testBlock 5 9) 3;
                BlockResponse (testBlock 3 9) 3;
                BatchedBlockResponse [testBlock 7 9; testBlock 5 8] 4] in
  (exists e',
      run reliableDB 1 early NewInitialSyncService = Some e'
      /\ currentSlot (sync (world e')) = 0
      /\ initialCrystallizedStateRoot (sync (world e')) = zeroRoot
      /\ inMemoryBlocks (sync (world e')) !! 5 = Some (testBlock 5 9)
      /\ is_Some (inMemoryBlocks (sync (world e')) !! 7))
  /\ (exists e' new,
         run reliableDB 1 (early ++ [BlockResponse (testBlock 1 9) 3])
           NewInitialSyncService = Some e'
         /\ trace (world e') = new
         /\ match first_persisted new with
            | None =>
                currentSlot (sync (world e')) = 0
                /\ initialCrystallizedStateRoot (sync (world e')) = zeroRoot
            | Some b1 =>
                Slot b1 = 1
                /\ initialCrystallizedStateRoot (sync (world e'))
                   = CrystallizedStateRoot b1
                /\ currentSlot (sync (world e')) <> 0
            end).
Proof.
  intros early. split.
  - edestruct (anchor_invariant reliableDB 0 early NewInitialSyncService)
      as (_ & H).
    + repeat constructor.
    + reflexivity.
    + reflexivity.
    + destruct H as (e' & Hrun & Hs & _ & _ & Hc & Hr & Hin & _).
      * reflexivity.
      * reflexivity.
      * repeat constructor; simpl; lia.
      * exists e'. split; [exact Hrun|]. split; [exact Hc|].
        split; [exact Hr|]. split.
        -- rewrite Hs. vm_compute. reflexivity.
        -- apply (Hin (testBlock 7 9)). simpl. auto.
  - destruct (run reliableDB 1 (early ++ [BlockResponse (testBlock 1 9) 3])
                NewInitialSyncService) as [e'|] eqn:Hrun;
      [|vm_compute in Hrun; discriminate Hrun].
    edestruct (anchor_invariant reliableDB 1
                 (early ++ [BlockResponse (testBlock 1 9) 3])
                 NewInitialSyncService) as (H & _).
    + repeat constructor.
    + reflexivity.
    + reflexivity.
    + destruct (H e' Hrun) as (new & Htr & Hfirst).
      exists e', new. split; [reflexivity|]. split; [exact Htr|exact Hfirst].
Defined.

(** ** Matching the crystallized state *)

(** C4: a crystallized-state response processed while the anchor root [H]
    is set.  If its hash differs from [H], nothing changes: no store call,
    same [currentSlot].  If its hash is [H] and its last finalized slot is
    above [currentSlot], the state is handed to the store, [currentSlot]
    is set to that slot and the dispatch for the next slot is run from
    there; with no block buffered at that slot this is a broadcast request
    and [currentSlot] ends at the last finalized slot. *)
Theorem crystallized_state_matching (db : beaconDB) (fuel : nat)
    (c : CrystallizedState) (e : Engine) :
  let s := sync (world e) in
  let r := SaveCrystallizedState db (trace (world e)) c in
  let next := wrap64 (LastFinalizedSlot c + 1) in
  let adopted :=
    {| sync := set_currentSlot (LastFinalizedSlot c) s;
       trace := trace (world e) ++ [DBSaveCrystallizedState c r] |} in
  initialCrystallizedStateRoot s <> zeroRoot ->
  (StateHash c <> initialCrystallizedStateRoot s ->
   handle db fuel (CrystallizedStateResponse c) e = Some e)
  /\ (StateHash c = initialCrystallizedStateRoot s ->
      currentSlot s < LastFinalizedSlot c ->
      (forall e',
          handle db fuel (CrystallizedStateResponse c) e = Some e' <->
          exists w3,
            requestNextBlockBySlot db fuel next adopted = Some (tt, w3)
            /\ e' = {| world := say (Unsubscribe crystallizedStateSub) w3;
                       loopExited := loopExited e;
                       crystallizedStateSubscribed := false;
                       checkerExited := checkerExited e |})
      /\ (forall w3,
             requestNextBlockBySlot db fuel next adopted = Some (tt, w3) ->
             LastFinalizedSlot c <= currentSlot (sync w3)
             /\ exists rest,
                 trace w3 = trace (world e)
                            ++ DBSaveCrystallizedState c r
                               :: LogRequestingBlock next :: rest)
      /\ (inMemoryBlocks s !! next = None ->
          requestNextBlockBySlot db fuel next adopted
          = Some (tt, {| sync := set_currentSlot (LastFinalizedSlot c) s;
                         trace := trace (world e)
                                  ++ [DBSaveCrystallizedState c r;
                                      LogRequestingBlock next;
                                      P2PBroadcast
                                        (BeaconBlockRequestBySlotNumber next)]
                      |}))).
Proof.
  cbv zeta. intros Hroot. split.
  - intros Hne. simpl. unfold on_crystallizedState. cbv zeta.
    destruct (N.eqb_spec (initialCrystallizedStateRoot (sync (world e))) zeroRoot);
      [contradiction|].
    destruct (N.eqb_spec (StateHash c)
                (initialCrystallizedStateRoot (sync (world e))));
      [contradiction|]. reflexivity.
  - intros Heq Hlt. split; [|split].
    + intros e'. simpl. unfold on_crystallizedState. cbv zeta.
      destruct (N.eqb_spec (initialCrystallizedStateRoot (sync (world e)))
                  zeroRoot); [contradiction|].
      destruct (N.eqb_spec (StateHash c)
                  (initialCrystallizedStateRoot (sync (world e))));
        [|contradiction].
      destruct (N.leb_spec (LastFinalizedSlot c) (currentSlot (sync (world e))));
        [lia|].
      cbn [negb]. simpl.
      match goal with
      | |- context [requestNextBlockBySlot db fuel ?n ?v] =>
          destruct (requestNextBlockBySlot db fuel n v) as [[[] w3]|]
      end.
      * split.
        -- intros [= <-]. exists w3. split; reflexivity.
        -- intros (w & [= <-] & ->). reflexivity.
      * split; [discriminate|]. intros (w & Hw & _). discriminate.
    + intros w3 H. rewrite requestNextBlockBySlot_unfold in H.
      assert (Hlog : block_effect
                       (say (LogRequestingBlock
                               (wrap64 (LastFinalizedSlot c + 1)))
                          {| sync := set_currentSlot (LastFinalizedSlot c)
                                       (sync (world e));
                             trace := trace (world e)
                                      ++ [DBSaveCrystallizedState c
                                            (SaveCrystallizedState db
                                               (trace (world e)) c)] |})
                       w3).
      { simpl inMemoryBlocks in H.
        destruct (inMemoryBlocks (sync (world e))
                    !! wrap64 (LastFinalizedSlot c + 1)) as [blk|].
        - apply processBlock_steps, block_steps_effect in H. exact H.
        - injection H as <-. apply block_effect_say; reflexivity. }
      destruct Hlog as [H1 _ _ _ (new & Hnew & _)]. simpl in H1, Hnew.
      split; [exact H1|]. exists new. rewrite Hnew.
      rewrite <- !app_assoc. reflexivity.
    + intros Hnone. rewrite requestNextBlockBySlot_unfold. simpl.
      rewrite Hnone. unfold say. simpl. rewrite <- !app_assoc. reflexivity.
Qed.

(** The anchor root is 9 and the cursor is at 1: a response with hash 8 is
    dropped, a response with hash 9 finalized at slot 3 is adopted. *)
Lemma crystallized_state_matching_witness :
  handle reliableDB 1 (CrystallizedStateResponse (testState 8 3))
    (engineAt 1 1 9 ∅) = Some (engineAt 1 1 9 ∅)
  /\ requestNextBlockBySlot reliableDB 1 4
       {| sync := set_currentSlot 3 (sync (world (engineAt 1 1 9 ∅)));
          trace := [DBSaveCrystallizedState (testState 9 3) None] |}
     = Some (tt, {| sync := set_currentSlot 3 (sync (world (engineAt 1 1 9 ∅)));
                    trace := [DBSaveCrystallizedState (testState 9 3) None;
                              LogRequestingBlock 4;
                              P2PBroadcast (BeaconBlockRequestBySlotNumber 4)]
                 |}).
Proof.
  split.
  - destruct (crystallized_state_matching reliableDB 1 (testState 8 3)
                (engineAt 1 1 9 ∅)) as [Hdrop _].
    + vm_compute. lia.
    + apply Hdrop. vm_compute. lia.
  - destruct (crystallized_state_matching reliableDB 1 (testState 9 3)
                (engineAt 1 1 9 ∅)) as [_ Hadopt].
    + vm_compute. lia.
    + destruct Hadopt as (_ & _ & Hnext).
      * reflexivity.
      * vm_compute. reflexivity.
      * apply Hnext. reflexivity.
Defined.

(** ** Single transitions of block processing *)

Section Transitions.

Context (db : beaconDB).

Lemma upd_id (f : InitialSync -> InitialSync) w : f (sync w) = sync w -> upd f w = w.
Proof. intros H. unfold upd. rewrite H. destruct w; reflexivity. Qed.

Lemma processBlock_stale fuel b p w :
  Slot b < currentSlot (sync w) ->
  processBlock db (S fuel) b p w = Some (tt, upd (observe (Slot b)) w).
Proof.
  intros H. rewrite processBlock_unfold. cbv zeta. simpl.
  destruct (observe_fields (Slot b) (sync w)) as (-> & _).
  destruct (N.ltb_spec (Slot b) (currentSlot (sync w))); [reflexivity|lia].
Qed.

Lemma processBlock_buffer fuel b p w :
  currentSlot (sync w) <> 0 ->
  ~ Slot b < currentSlot (sync w) ->
  Slot b <> wrap64 (currentSlot (sync w) + 1) ->
  processBlock db (S fuel) b p w
  = Some (tt, upd (store_if_absent b) (upd (observe (Slot b)) w)).
Proof.
  intros Hc Hge Hn. rewrite processBlock_unfold. cbv zeta. simpl.
  destruct (observe_fields (Slot b) (sync w)) as (-> & _).
  destruct (N.ltb_spec (Slot b) (currentSlot (sync w))); [lia|].
  destruct (N.eqb_spec (currentSlot (sync w)) 0); [contradiction|].
  destruct (N.eqb_spec (Slot b) (wrap64 (currentSlot (sync w) + 1)));
    [contradiction|]. reflexivity.
Qed.

Lemma processBlock_next fuel b p w :
  currentSlot (sync w) <> 0 ->
  Slot b = currentSlot (sync w) + 1 ->
  Slot b < 2 ^ 64 ->
  processBlock db (S fuel) b p w
  = let w1 := upd (observe (Slot b)) w in
    match BlockHash b with
    | None => requestNextBlockBySlot db fuel (Slot b) w1
    | Some _ =>
        match SaveBlock db (trace w) b with
        | Some e =>
            requestNextBlockBySlot db fuel (Slot b)
              (say (DBSaveBlock b (Some e)) w1)
        | None =>
            requestNextBlockBySlot db fuel (wrap64 (Slot b + 1))
              (committed b w1)
        end
    end.
Proof.
  intros Hc Hb Hr. rewrite processBlock_unfold. cbv zeta. simpl.
  destruct (observe_fields (Slot b) (sync w)) as (-> & _).
  destruct (N.ltb_spec (Slot b) (currentSlot (sync w))); [lia|].
  destruct (N.eqb_spec (currentSlot (sync w)) 0); [contradiction|].
  rewrite <- Hb, (wrap64_small (Slot b) Hr), N.eqb_refl. reflexivity.
Qed.

Lemma processBlock_anchor fuel b p w :
  currentSlot (sync w) = 0 ->
  initialCrystallizedStateRoot (sync w) = zeroRoot ->
  Slot b = 1 ->
  processBlock db (S fuel) b p w
  = let w1 := upd (observe (Slot b)) w in
    match BlockHash b with
    | None => then_request_state b p (Some (tt, w1))
    | Some _ =>
        match SaveBlock db (trace w) b with
        | Some e =>
            then_request_state b p (Some (tt, say (DBSaveBlock b (Some e)) w1))
        | None =>
            then_request_state b p
              (requestNextBlockBySlot db fuel 2 (anchored b w1))
        end
    end.
Proof.
  intros Hc Hr Hb. rewrite processBlock_unfold. cbv zeta. simpl.
  destruct (observe_fields (Slot b) (sync w)) as (-> & _ & -> & _).
  rewrite Hc, Hr, Hb. reflexivity.
Qed.

End Transitions.

(** ** Stale blocks *)

(** C5, as the specification states it, fails for a block whose slot equals
    [currentSlot]: the anchor block delivered a second time is put into the
    buffer. *)
Lemma stale_discard_counterexample :
  exists e e',
    run reliableDB 1 [BlockResponse (testBlock 1 9) 3] NewInitialSyncService
    = Some e
    /\ step reliableDB 1 (BlockResponse (testBlock 1 9) 3) e = Some e'
    /\ currentSlot (sync (world e)) = 1
    /\ highestObservedSlot (sync (world e)) = 1
    /\ inMemoryBlocks (sync (world e)) !! 1 = None
    /\ inMemoryBlocks (sync (world e')) !! 1 = Some (testBlock 1 9).
Proof.
  eexists. eexists.
  split; [vm_compute; reflexivity|].
  split; [vm_compute; reflexivity|].
  repeat split; vm_compute; reflexivity.
Qed.

(** C5 (amended): after a commit ([currentSlot > 0]), a block whose slot is
    strictly below [currentSlot] is not written to the store and changes
    nothing but [highestObservedSlot], which is raised to the slot of the
    block when that is higher: when it is not, nothing changes at all.  A
    block whose slot equals [currentSlot] is not written to the store
    either and leaves [currentSlot] and the anchor root alone;
    [highestObservedSlot] is raised to its slot when that is higher, and
    the block is put into the buffer under its slot when no entry is
    there. *)
Theorem stale_discard (db : beaconDB) (fuel : nat) (b : BeaconBlock)
    (p : Peer) (w : World) :
  currentSlot (sync w) <> 0 ->
  (Slot b < currentSlot (sync w) ->
   processBlock db (S fuel) b p w
   = Some (tt, {| sync :=
                    {| currentSlot := currentSlot (sync w);
                       highestObservedSlot :=
                         N.max (highestObservedSlot (sync w)) (Slot b);
                       initialCrystallizedStateRoot :=
                         initialCrystallizedStateRoot (sync w);
                       inMemoryBlocks := inMemoryBlocks (sync w) |};
                  trace := trace w |})
   /\ (Slot b <= highestObservedSlot (sync w) ->
       processBlock db (S fuel) b p w = Some (tt, w)))
  /\ (Slot b = currentSlot (sync w) ->
      processBlock db (S fuel) b p w
      = Some (tt, {| sync :=
                       {| currentSlot := currentSlot (sync w);
                          highestObservedSlot :=
                            N.max (highestObservedSlot (sync w)) (Slot b);
                          initialCrystallizedStateRoot :=
                            initialCrystallizedStateRoot (sync w);
                          inMemoryBlocks :=
                            match inMemoryBlocks (sync w) !! Slot b with
                            | Some _ => inMemoryBlocks (sync w)
                            | None => <[Slot b := b]> (inMemoryBlocks (sync w))
                            end |};
                     trace := trace w |})).
Proof.
  intros Hc.
  assert (Hobs : upd (observe (Slot b)) w
                 = {| sync :=
                        {| currentSlot := currentSlot (sync w);
                           highestObservedSlot :=
                             N.max (highestObservedSlot (sync w)) (Slot b);
                           initialCrystallizedStateRoot :=
                             initialCrystallizedStateRoot (sync w);
                           inMemoryBlocks := inMemoryBlocks (sync w) |};
                      trace := trace w |}).
  { unfold upd, observe.
    destruct (N.ltb_spec (highestObservedSlot (sync w)) (Slot b)).
    - rewrite N.max_r by lia. reflexivity.
    - rewrite N.max_l by lia. destruct w as [[] ?]; reflexivity. }
  split.
  - intros Hlt. rewrite processBlock_stale by exact Hlt. split.
    + rewrite Hobs. reflexivity.
    + intros Hh. rewrite upd_id; [reflexivity|apply observe_id; exact Hh].
  - intros Heq. rewrite processBlock_buffer.
    + rewrite Hobs. unfold upd, store_if_absent. cbn [sync inMemoryBlocks].
      destruct (inMemoryBlocks (sync w) !! Slot b); reflexivity.
    + exact Hc.
    + lia.
    + rewrite Heq. intros H. symmetry in H. revert H. apply wrap64_succ_ne.
Qed.

(** At cursor 4 with highest observed slot 6, a block of slot 2 changes
    nothing; at cursor 3 with highest observed slot 1 (as the adoption of a
    crystallized state leaves them), a block of slot 3 raises the highest
    observed slot to 3 and is buffered. *)
Lemma stale_discard_witness :
  processBlock reliableDB 1 (testBlock 2 9) 3 (world (engineAt 4 6 9 ∅))
  = Some (tt, world (engineAt 4 6 9 ∅))
  /\ processBlock reliableDB 1 (testBlock 3 9) 3 (world (engineAt 3 1 9 ∅))
     = Some (tt, world (engineAt 3 3 9 (<[3 := testBlock 3 9]> ∅))).
Proof.
  destruct (stale_discard reliableDB 0 (testBlock 2 9) 3
              (world (engineAt 4 6 9 ∅))) as [Hlow _];
    [cbn; lia|].
  destruct (stale_discard reliableDB 0 (testBlock 3 9) 3
              (world (engineAt 3 1 9 ∅))) as [_ Heq];
    [cbn; lia|].
  split.
  - apply Hlow; [vm_compute; reflexivity|cbn; lia].
  - rewrite Heq by reflexivity. reflexivity.
Defined.

(** ** A store that refuses a block *)

(** C9, as the specification states it, fails: the store refuses the block
    of slot 2 and the cursor stays at 1. *)
Lemma persist_failure_counterexample :
  exists e e',
    run (refusingDB 2) 1 [BlockResponse (testBlock 1 9) 3]
      NewInitialSyncService = Some e
    /\ step (refusingDB 2) 1 (BlockResponse (testBlock 2 9) 3) e = Some e'
    /\ currentSlot (sync (world e)) = 1
    /\ In (DBSaveBlock (testBlock 2 9) (Some ErrStore)) (trace (world e'))
    /\ currentSlot (sync (world e')) = 1
    /\ currentSlot (sync (world e')) <> Slot (testBlock 2 9).
Proof.
  eexists. eexists.
  split; [vm_compute; reflexivity|].
  split; [vm_compute; reflexivity|].
  split; [reflexivity|].
  split; [simpl; auto 10|].
  split; [reflexivity|]. simpl. lia.
Qed.

(** C9 (amended): when the store refuses the next expected block, the
    error is returned by [validateAndSaveNextBlock] before the cursor is
    touched: [currentSlot] and the buffer stay as they were, and the
    transition goes on to the dispatch for [currentSlot + 1], which is the
    slot of the refused block again (a broadcast request when that slot is
    not buffered).  When the store refuses the anchor block, [currentSlot]
    stays 0, no anchor root is set, and the crystallized state is requested
    from the peer all the same. *)
Theorem persist_failure (db : beaconDB) (fuel : nat) (b : BeaconBlock)
    (p : Peer) (w : World) (err : GoError) :
  BlockHash b <> None ->
  Slot b < 2 ^ 64 ->
  SaveBlock db (trace w) b = Some err ->
  let w1 := upd (observe (Slot b)) w in
  let refused := say (DBSaveBlock b (Some err)) w1 in
  (currentSlot (sync w) <> 0 ->
   Slot b = currentSlot (sync w) + 1 ->
   validateAndSaveNextBlock db b w1 = Some (Some err, refused)
   /\ currentSlot (sync refused) = currentSlot (sync w)
   /\ inMemoryBlocks (sync refused) = inMemoryBlocks (sync w)
   /\ processBlock db (S fuel) b p w
      = requestNextBlockBySlot db fuel (currentSlot (sync w) + 1) refused
   /\ (inMemoryBlocks (sync w) !! Slot b = None ->
       processBlock db (S fuel) b p w
       = Some (tt, {| sync := observe (Slot b) (sync w);
                      trace := trace w
                               ++ [DBSaveBlock b (Some err);
                                   LogRequestingBlock (Slot b);
                                   P2PBroadcast
                                     (BeaconBlockRequestBySlotNumber (Slot b))]
                   |})))
  /\ (currentSlot (sync w) = 0 ->
      initialCrystallizedStateRoot (sync w) = zeroRoot ->
      Slot b = 1 ->
      processBlock db (S fuel) b p w
      = Some (tt, {| sync := observe (Slot b) (sync w);
                     trace := trace w
                              ++ [DBSaveBlock b (Some err);
                                  P2PSend (CrystallizedStateRequest
                                             (CrystallizedStateRoot b)) p]
                  |})).
Proof.
  intros Hhash Hrange Hsave. cbv zeta.
  destruct (observe_fields (Slot b) (sync w)) as (Oc & _ & _ & Om).
  split.
  - intros Hc Hb.
    assert (Hproc : processBlock db (S fuel) b p w
                    = requestNextBlockBySlot db fuel (Slot b)
                        (say (DBSaveBlock b (Some err))
                           (upd (observe (Slot b)) w))).
    { rewrite processBlock_next by assumption. cbv zeta.
      destruct (BlockHash b); [|contradiction]. rewrite Hsave. reflexivity. }
    split; [|split; [|split; [|split]]].
    + unfold validateAndSaveNextBlock.
      destruct (BlockHash b); [|contradiction].
      unfold bind, get, writeBlockToDB. simpl. rewrite Oc.
      destruct (N.eqb_spec (currentSlot (sync w)) 0); [contradiction|].
      rewrite <- Hb, (wrap64_small (Slot b) Hrange), N.eqb_refl.
      simpl. rewrite Hsave. reflexivity.
    + simpl. exact Oc.
    + simpl. exact Om.
    + rewrite <- Hb. exact Hproc.
    + intros Hnone. rewrite Hproc, requestNextBlockBySlot_unfold. simpl.
      rewrite Om, Hnone. unfold say. simpl. rewrite <- !app_assoc.
      reflexivity.
  - intros Hc Hr Hb. rewrite processBlock_anchor by assumption. cbv zeta.
    destruct (BlockHash b); [|contradiction]. rewrite Hsave.
    unfold then_request_state, say. simpl. rewrite <- !app_assoc.
    reflexivity.
Qed.

(** The store refuses slot 5 at cursor 4. *)
Lemma persist_failure_witness :
  processBlock (refusingDB 5) 1 (testBlock 5 9) 3 (world (engineAt 4 6 9 ∅))
  = Some (tt, {| sync := sync (world (engineAt 4 6 9 ∅));
                 trace := [DBSaveBlock (testBlock 5 9) (Some ErrStore);
                           LogRequestingBlock 5;
                           P2PBroadcast (BeaconBlockRequestBySlotNumber 5)] |}).
Proof.
  destruct (persist_failure (refusingDB 5) 0 (testBlock 5 9) 3
              (world (engineAt 4 6 9 ∅)) ErrStore) as [Hnext _].
  - simpl. discriminate.
  - vm_compute. reflexivity.
  - reflexivity.
  - destruct Hnext as (_ & _ & _ & _ & H).
    + cbn. lia.
    + reflexivity.
    + rewrite H by reflexivity. reflexivity.
Defined.

(** ** The request that follows the anchor *)

(** C10: when a block of slot 1 is accepted as the anchor and the store
    takes it, the engine, right after the write and before it asks the peer
    for the crystallized state, runs the dispatch for slot 2 (that is
    [currentSlot + 1]): the slot is logged as requested, and unless a block
    of slot 2 is already in the buffer, in which case that block is
    processed, the request is broadcast. *)
Theorem anchor_requests_next (db : beaconDB) (fuel : nat) (b : BeaconBlock)
    (p : Peer) (w : World) :
  currentSlot (sync w) = 0 ->
  initialCrystallizedStateRoot (sync w) = zeroRoot ->
  Slot b = 1 ->
  BlockHash b <> None ->
  SaveBlock db (trace w) b = None ->
  let w1 := anchored b (upd (observe (Slot b)) w) in
  currentSlot (sync w1) = 1
  /\ wrap64 (currentSlot (sync w1) + 1) = 2
  /\ processBlock db (S fuel) b p w
     = then_request_state b p (requestNextBlockBySlot db fuel 2 w1)
  /\ (forall w',
         processBlock db (S fuel) b p w = Some (tt, w') ->
         1 <= currentSlot (sync w')
         /\ exists rest,
             trace w' = trace w
                        ++ DBSaveBlock b None :: LogRequestingBlock 2 :: rest)
  /\ (inMemoryBlocks (sync w) !! 2 = None ->
      processBlock db (S fuel) b p w
      = Some (tt, {| sync := sync w1;
                     trace := trace w
                              ++ [DBSaveBlock b None;
                                  LogRequestingBlock 2;
                                  P2PBroadcast (BeaconBlockRequestBySlotNumber 2);
                                  P2PSend (CrystallizedStateRequest
                                             (CrystallizedStateRoot b)) p] |})).
Proof.
  intros Hc Hr Hb Hhash Hsave. cbv zeta.
  assert (Hproc : processBlock db (S fuel) b p w
                  = then_request_state b p
                      (requestNextBlockBySlot db fuel 2
                         (anchored b (upd (observe (Slot b)) w)))).
  { rewrite processBlock_anchor by assumption. cbv zeta.
    destruct (BlockHash b); [|contradiction]. rewrite Hsave. reflexivity. }
  split; [exact Hb|]. split; [simpl; rewrite Hb; reflexivity|].
  split; [exact Hproc|]. split.
  - intros w'. rewrite Hproc, requestNextBlockBySlot_unfold.
    set (logged := say (LogRequestingBlock 2)
                     (anchored b (upd (observe (Slot b)) w))).
    intros H.
    assert (Heff : exists w2,
               block_effect logged w2
               /\ w' = say (P2PSend (CrystallizedStateRequest
                                       (CrystallizedStateRoot b)) p) w2).
    { destruct (inMemoryBlocks (sync (anchored b (upd (observe (Slot b)) w)))
                  !! 2) as [blk|].
      - destruct (processBlock db fuel blk noPeer logged) as [[[] w2]|] eqn:E;
          [|discriminate].
        simpl in H. injection H as <-. exists w2. split; [|reflexivity].
        apply processBlock_steps, block_steps_effect in E. exact E.
      - simpl in H. injection H as <-. eexists. split; [|reflexivity].
        apply block_effect_say; reflexivity. }
    destruct Heff as (w2 & [H1 _ _ _ (new & Hnew & _)] & ->).
    simpl in H1, Hnew. simpl. split; [lia|].
    exists (new ++ [P2PSend (CrystallizedStateRequest
                               (CrystallizedStateRoot b)) p]).
    rewrite Hnew, <- !app_assoc. reflexivity.
  - intros Hnone. rewrite Hproc, requestNextBlockBySlot_unfold. simpl.
    destruct (observe_fields (Slot b) (sync w)) as (_ & _ & _ & ->).
    rewrite Hnone. unfold then_request_state, say. simpl.
    rewrite <- !app_assoc. reflexivity.
Qed.

(** The first block of a fresh service has slot 1. *)
Lemma anchor_requests_next_witness :
  processBlock reliableDB 1 (testBlock 1 9) 3 (world NewInitialSyncService)
  = Some (tt, {| sync := {| currentSlot := 1;
                            highestObservedSlot := 1;
                            initialCrystallizedStateRoot := 9;
                            inMemoryBlocks := ∅ |};
                 trace := [DBSaveBlock (testBlock 1 9) None;
                           LogRequestingBlock 2;
                           P2PBroadcast (BeaconBlockRequestBySlotNumber 2);
                           P2PSend (CrystallizedStateRequest 9) 3] |}).
Proof.
  destruct (anchor_requests_next reliableDB 0 (testBlock 1 9) 3
              (world NewInitialSyncService)) as (_ & _ & _ & _ & H).
  - reflexivity.
  - reflexivity.
  - reflexivity.
  - simpl. discriminate.
  - reflexivity.
  - rewrite H by reflexivity. reflexivity.
Defined.

(** ** Draining the buffer *)

Section Drain.

Context (db : beaconDB).

Lemma InitialSync_ext (s1 s2 : InitialSync) :
  currentSlot s1 = currentSlot s2 ->
  highestObservedSlot s1 = highestObservedSlot s2 ->
  initialCrystallizedStateRoot s1 = initialCrystallizedStateRoot s2 ->
  inMemoryBlocks s1 = inMemoryBlocks s2 ->
  s1 = s2.
Proof. destruct s1, s2. simpl. intros -> -> -> ->. reflexivity. Qed.

(** The commit of the next block, on explicit records. *)
Lemma processBlock_commit fuel b p cur obs root buf tr :
  cur <> 0 ->
  Slot b = cur + 1 ->
  Slot b < 2 ^ 64 ->
  BlockHash b <> None ->
  SaveBlock db tr b = None ->
  processBlock db (S fuel) b p
    {| sync := {| currentSlot := cur; highestObservedSlot := obs;
                  initialCrystallizedStateRoot := root;
                  inMemoryBlocks := buf |};
       trace := tr |}
  = requestNextBlockBySlot db fuel (wrap64 (Slot b + 1))
      {| sync := {| currentSlot := Slot b;
                    highestObservedSlot := N.max obs (Slot b);
                    initialCrystallizedStateRoot := root;
                    inMemoryBlocks := delete (Slot b) buf |};
         trace := tr ++ [DBSaveBlock b None] |}.
Proof.
  intros Hc Hb Hr Hhash Hsave.
  rewrite processBlock_next by assumption. cbv zeta.
  destruct (BlockHash b); [|contradiction]. simpl trace. rewrite Hsave.
  f_equal. unfold committed, upd, say. simpl. f_equal.
  set (s := {| currentSlot := cur; highestObservedSlot := obs;
               initialCrystallizedStateRoot := root;
               inMemoryBlocks := buf |}).
  destruct (observe_fields (Slot b) s) as (_ & Oh & Or & Om).
  destruct (delete_if_present_fields (Slot b)
              (set_currentSlot (Slot b) (observe (Slot b) s)))
    as (Dc & Dh & Dr & Dm).
  apply InitialSync_ext; simpl.
  - exact Dc.
  - rewrite Dh. exact Oh.
  - rewrite Dr. exact Or.
  - rewrite Dm. simpl. rewrite Om. reflexivity.
Qed.

End Drain.

(** C6: with [currentSlot = 4], blocks buffered at exactly the slots 5, 6
    and 7, and a store that takes them, processing a block of slot 5
    returns (three units of fuel suffice) with [currentSlot = 7] and an
    empty buffer; the blocks written for the slots 6 and 7 are the buffered
    ones, and the only request broadcast is the one for slot 8, so none
    goes out for the slots 5, 6 and 7. *)
Theorem buffer_drain (db : beaconDB) (fuel : nat) (b b5 b6 b7 : BeaconBlock)
    (p : Peer) (w : World) :
  currentSlot (sync w) = 4 ->
  inMemoryBlocks (sync w) = <[5 := b5]> (<[6 := b6]> (<[7 := b7]> ∅)) ->
  Slot b = 5 -> Slot b6 = 6 -> Slot b7 = 7 ->
  (forall blk, In blk [b; b6; b7] -> BlockHash blk <> None) ->
  (forall tr blk, In blk [b; b6; b7] -> SaveBlock db tr blk = None) ->
  let new := [DBSaveBlock b None;
              LogRequestingBlock 6; DBSaveBlock b6 None;
              LogRequestingBlock 7; DBSaveBlock b7 None;
              LogRequestingBlock 8;
              P2PBroadcast (BeaconBlockRequestBySlotNumber 8)] in
  processBlock db (3 + fuel) b p w
  = Some (tt, {| sync := {| currentSlot := 7;
                            highestObservedSlot :=
                              N.max (highestObservedSlot (sync w)) 7;
                            initialCrystallizedStateRoot :=
                              initialCrystallizedStateRoot (sync w);
                            inMemoryBlocks := ∅ |};
                 trace := trace w ++ new |})
  /\ (forall n, In n [5; 6; 7] -> count (is_block_request_for n) new = 0%nat).
Proof.
  intros Hc Hm Hb Hb6 Hb7 Hhash Hsave new. split.
  2:{ intros n [<-|[<-|[<-|[]]]]; reflexivity. }
  destruct w as [[cur obs root buf] tr]. simpl in Hc, Hm. subst cur buf.
  cbn [sync trace highestObservedSlot initialCrystallizedStateRoot].
  change (3 + fuel)%nat with (S (S (S fuel))).
  assert (Hin : In b [b; b6; b7]) by (simpl; auto).
  assert (Hin6 : In b6 [b; b6; b7]) by (simpl; auto).
  assert (Hin7 : In b7 [b; b6; b7]) by (simpl; auto).
  rewrite processBlock_commit;
    [|lia|rewrite Hb; reflexivity|rewrite Hb; reflexivity|auto|auto].
  rewrite Hb. change (wrap64 (5 + 1)) with 6.
  rewrite requestNextBlockBySlot_unfold. cbn [sync inMemoryBlocks].
  rewrite lookup_delete_ne, lookup_insert_ne, lookup_insert_eq by lia.
  unfold say. cbn [sync trace].
  rewrite processBlock_commit;
    [|lia|rewrite Hb6; reflexivity|rewrite Hb6; reflexivity|auto|auto].
  rewrite Hb6. change (wrap64 (6 + 1)) with 7.
  rewrite requestNextBlockBySlot_unfold. cbn [sync inMemoryBlocks].
  rewrite !lookup_delete_ne, !lookup_insert_ne, lookup_insert_eq by lia.
  unfold say. cbn [sync trace].
  rewrite processBlock_commit;
    [|lia|rewrite Hb7; reflexivity|rewrite Hb7; reflexivity|auto|auto].
  rewrite Hb7. change (wrap64 (7 + 1)) with 8.
  rewrite requestNextBlockBySlot_unfold. cbn [sync inMemoryBlocks].
  rewrite !lookup_delete_ne, !lookup_insert_ne, lookup_empty by lia.
  unfold say, new. cbn [sync trace].
  rewrite <- !app_assoc. cbn [app].
  f_equal. f_equal. f_equal. apply InitialSync_ext; simpl.
  - reflexivity.
  - lia.
  - reflexivity.
  - apply map_eq. intros k. rewrite lookup_empty.
    rewrite !lookup_delete, !lookup_insert, lookup_empty.
    repeat case_decide; reflexivity.
Qed.

(** The scenario of the specification, with the buffered block of slot 5
    itself as the block processed. *)
Lemma buffer_drain_witness :
  let buffer : gmap N BeaconBlock :=
    <[5 := testBlock 5 9]> (<[6 := testBlock 6 9]> (<[7 := testBlock 7 9]> ∅)) in
  processBlock reliableDB 3 (testBlock 5 9) noPeer (world (engineAt 4 7 9 buffer))
  = Some (tt, {| sync := {| currentSlot := 7;
                            highestObservedSlot := 7;
                            initialCrystallizedStateRoot := 9;
                            inMemoryBlocks := ∅ |};
                 trace := [DBSaveBlock (testBlock 5 9) None;
                           LogRequestingBlock 6;
                           DBSaveBlock (testBlock 6 9) None;
                           LogRequestingBlock 7;
                           DBSaveBlock (testBlock 7 9) None;
                           LogRequestingBlock 8;
                           P2PBroadcast (BeaconBlockRequestBySlotNumber 8)] |}).
Proof.
  cbv zeta.
  destruct (buffer_drain reliableDB 0
              (testBlock 5 9) (testBlock 5 9) (testBlock 6 9) (testBlock 7 9)
              noPeer
              (world (engineAt 4 7 9
                        (<[5 := testBlock 5 9]>
                           (<[6 := testBlock 6 9]>
                              (<[7 := testBlock 7 9]> ∅))))))
    as [H _].
  - reflexivity.
  - reflexivity.
  - reflexivity.
  - reflexivity.
  - reflexivity.
  - intros blk [<-|[<-|[<-|[]]]]; simpl; discriminate.
  - intros tr blk _. reflexivity.
  - exact H.
Defined.

(** ** Hand-off and the subscription to crystallized states *)

Lemma count_say p ev w :
  count p (trace (say ev w))
  = (count p (trace w) + if p ev then 1 else 0)%nat.
Proof.
  simpl. rewrite count_app. unfold count at 2. simpl.
  destruct (p ev); reflexivity.
Qed.

Section LoopInvariants.

Context (db : beaconDB).

(** What a step does to the two flags of the loop and to the number of
    hand-offs. *)
Lemma step_loop_facts fuel i e e' :
  step db fuel i e = Some e' ->
  (loopExited e = true -> loopExited e' = true)
  /\ (crystallizedStateSubscribed e = false ->
      crystallizedStateSubscribed e' = false)
  /\ (count is_resume (trace (world e'))
      <= count is_resume (trace (world e))
         + (if loopExited e then 0 else if loopExited e' then 1 else 0))%nat
  /\ (count is_resume (trace (world e))
      <= count is_resume (trace (world e')))%nat.
Proof.
  unfold step. destruct (deliverable i e) eqn:Hd.
  2:{ intros [= <-]. repeat split; auto; lia. }
  assert (Hblock :
            rtc (block_step db) (world e) (world e')
            /\ loopExited e' = loopExited e
            /\ crystallizedStateSubscribed e' = crystallizedStateSubscribed e ->
            (loopExited e = true -> loopExited e' = true)
            /\ (crystallizedStateSubscribed e = false ->
                crystallizedStateSubscribed e' = false)
            /\ (count is_resume (trace (world e'))
                <= count is_resume (trace (world e))
                   + (if loopExited e then 0
                      else if loopExited e' then 1 else 0))%nat
            /\ (count is_resume (trace (world e))
                <= count is_resume (trace (world e')))%nat).
  { intros (H & -> & ->). apply block_steps_effect in H.
    rewrite (block_effect_count is_resume _ _ is_resume_loop H).
    repeat split; auto; lia. }
  destruct i.
  - simpl handle. intros [= <-].
    destruct (loopExited e) eqn:Hl; simpl; rewrite ?Hl, ?count_app;
      change (count is_resume run_deferred) with 0%nat;
      repeat split; auto; lia.
  - simpl in Hd. apply negb_true_iff in Hd. simpl handle.
    unfold on_delay. cbv zeta.
    destruct (currentSlot (sync (world e)) =? 0).
    { intros [= <-]. rewrite Hd. repeat split; auto; lia. }
    destruct (highestObservedSlot (sync (world e))
              =? currentSlot (sync (world e))).
    { intros [= <-]. simpl. rewrite Hd, !count_app.
      change (count is_resume run_deferred) with 0%nat.
      change (count is_resume [ResumeSync]) with 1%nat.
      repeat split; auto; lia. }
    intros H. apply in_world_inv in H. destruct H as (w' & H & ->).
    unfold requestBatchedBlocks, bind, get, emit in H. simpl in H.
    injection H as <-. simpl. rewrite Hd, !count_app.
    repeat split; auto; unfold count; simpl; lia.
  - simpl in Hd. apply negb_true_iff in Hd. simpl handle.
    intros H. apply in_world_inv in H. destruct H as (w' & H & ->).
    rewrite on_blockAnnounce_unfold in H. injection H as <-. simpl.
    rewrite Hd, !count_app.
    repeat split; auto; unfold count; simpl; lia.
  - intros H. apply Hblock. eapply handle_block_inputs; [|exact H]. exact I.
  - simpl in Hd. apply negb_true_iff in Hd. simpl handle.
    intros H. apply on_crystallizedState_cases in H. cbv zeta in H.
    rewrite Hd.
    destruct H as [(_ & ->)|[(_ & _ & _ & ->)
                      |(_ & _ & _ & w3 & H & _ & Hw & Hl & Hs & _)]].
    + rewrite Hd. repeat split; auto; try discriminate; lia.
    + simpl. rewrite Hd, count_app.
      repeat split; auto; try discriminate; unfold count; simpl; lia.
    + apply block_steps_effect in H. rewrite Hl, Hd, Hw.
      rewrite count_say.
      rewrite (block_effect_count is_resume _ _ is_resume_loop H). simpl.
      rewrite count_app.
      repeat split; auto; try discriminate; unfold count; simpl; lia.
  - intros H. apply Hblock. eapply handle_block_inputs; [|exact H]. exact I.
  - intros H. apply Hblock. eapply handle_block_inputs; [|exact H]. exact I.
Qed.

Lemma run_resume_bound fuel : forall inputs e e',
  run db fuel inputs e = Some e' ->
  (count is_resume (trace (world e))
   <= (if loopExited e then 1 else 0))%nat ->
  (count is_resume (trace (world e'))
   <= (if loopExited e' then 1 else 0))%nat.
Proof.
  induction inputs as [|i inputs IH]; intros e e'; simpl.
  - intros [= <-]. auto.
  - destruct (step db fuel i e) as [e1|] eqn:E; [|discriminate].
    intros H Hinv. apply (IH e1 e' H).
    apply step_loop_facts in E. destruct E as (E1 & _ & E3 & _).
    destruct (loopExited e).
    + rewrite (E1 eq_refl). lia.
    + destruct (loopExited e1); lia.
Qed.

Lemma run_after_exit fuel : forall inputs e e',
  run db fuel inputs e = Some e' ->
  loopExited e = true ->
  loopExited e' = true
  /\ count is_resume (trace (world e')) = count is_resume (trace (world e)).
Proof.
  induction inputs as [|i inputs IH]; intros e e'; simpl.
  - intros [= <-]. auto.
  - destruct (step db fuel i e) as [e1|] eqn:E; [|discriminate].
    intros H Hex. apply step_loop_facts in E.
    destruct E as (E1 & _ & E3 & E4). rewrite Hex in E3.
    destruct (IH e1 e' H (E1 Hex)) as (I1 & I2).
    split; [exact I1|lia].
Qed.


End LoopInvariants.

(** C7: a timer tick taken while [currentSlot = highestObservedSlot] and
    [currentSlot > 0] calls [ResumeSync] and ends the loop; over a whole
    run of the service [ResumeSync] is called at most once; and once the
    loop has ended no tick and no other input calls it again. *)
Theorem handoff_once (db : beaconDB) (fuel : nat) :
  (forall e,
      loopExited e = false ->
      currentSlot (sync (world e)) <> 0 ->
      highestObservedSlot (sync (world e)) = currentSlot (sync (world e)) ->
      step db fuel DelayTick e
      = Some {| world := {| sync := sync (world e);
                            trace := trace (world e)
                                     ++ ResumeSync :: run_deferred |};
                loopExited := true;
                crystallizedStateSubscribed := false;
                checkerExited := checkerExited e |})
  /\ (forall inputs e',
         run db fuel inputs NewInitialSyncService = Some e' ->
         (count is_resume (trace (world e')) <= 1)%nat)
  /\ (forall inputs e e',
         loopExited e = true ->
         run db fuel inputs e = Some e' ->
         loopExited e' = true
         /\ count is_resume (trace (world e'))
            = count is_resume (trace (world e))).
Proof.
  split; [|split].
  - intros e Hrun Hc Hconv. unfold step. simpl. rewrite Hrun. simpl.
    unfold on_delay. cbv zeta.
    destruct (N.eqb_spec (currentSlot (sync (world e))) 0); [contradiction|].
    rewrite Hconv, N.eqb_refl. unfold exit_loop. simpl.
    rewrite <- app_assoc. reflexivity.
  - intros inputs e' H.
    apply run_resume_bound in H; [|unfold count; simpl; lia].
    destruct (loopExited e'); lia.
  - intros inputs e e' Hex H. eapply run_after_exit; eassumption.
Qed.

(** A tick at cursor 1 with highest observed slot 1, then two more ticks. *)
Lemma handoff_once_witness :
  let e1 := {| world := {| sync := sync (world (engineAt 1 1 9 ∅));
                           trace := ResumeSync :: run_deferred |};
               loopExited := true;
               crystallizedStateSubscribed := false;
               checkerExited := false |} in
  step reliableDB 1 DelayTick (engineAt 1 1 9 ∅) = Some e1
  /\ exists e2,
      run reliableDB 1 [DelayTick; DelayTick] e1 = Some e2
      /\ loopExited e2 = true
      /\ count is_resume (trace (world e2)) = 1%nat.
Proof.
  intros e1. destruct (handoff_once reliableDB 1) as (Htick & _ & Hafter).
  split.
  - apply (Htick (engineAt 1 1 9 ∅)); [reflexivity|cbn; lia|reflexivity].
  - exists e1. split; [reflexivity|].
    exact (Hafter [DelayTick; DelayTick] e1 e1 eq_refl eq_refl).
Defined.




(** ** Enough fuel *)

Section Fuel.

Context (db : beaconDB).
Hypothesis db_reliable : reliable db.

Lemma buffer_ok_delete k buf : buffer_ok buf -> buffer_ok (delete k buf).
Proof.
  intros H j b Hj. apply lookup_delete_Some in Hj. destruct Hj as [_ Hj].
  exact (H j b Hj).
Qed.

Lemma buffer_ok_store b s :
  BlockHash b <> None ->
  buffer_ok (inMemoryBlocks s) ->
  buffer_ok (inMemoryBlocks (store_if_absent b s)).
Proof.
  intros Hb H. unfold store_if_absent.
  destruct (inMemoryBlocks s !! Slot b) eqn:E; [exact H|]. simpl.
  intros k b' Hk. destruct (decide (Slot b = k)) as [<-|Hne].
  - rewrite lookup_insert_eq in Hk. injection Hk as <-. auto.
  - rewrite lookup_insert_ne in Hk by exact Hne. exact (H k b' Hk).
Qed.

Lemma size_store b s :
  (size (inMemoryBlocks (store_if_absent b s))
   <= S (size (inMemoryBlocks s)))%nat.
Proof.
  unfold store_if_absent.
  destruct (inMemoryBlocks s !! Slot b) eqn:E; simpl; [lia|].
  rewrite map_size_insert_None by exact E. lia.
Qed.

Lemma committed_fields b w :
  currentSlot (sync (committed b w)) = Slot b
  /\ inMemoryBlocks (sync (committed b w))
     = delete (Slot b) (inMemoryBlocks (sync w)).
Proof.
  unfold committed, upd, say. cbn [sync].
  destruct (delete_if_present_fields (Slot b)
              (set_currentSlot (Slot b) (sync w))) as (-> & _ & _ & ->).
  split; reflexivity.
Qed.

Lemma observed_buffer slot w :
  inMemoryBlocks (sync (upd (observe slot) w)) = inMemoryBlocks (sync w).
Proof.
  cbn [upd sync]. destruct (observe_fields slot (sync w)) as (_ & _ & _ & ->).
  reflexivity.
Qed.

(** With a reliable store, the dispatch for the slot after the cursor
    returns when given one unit of fuel per buffered block. *)
Lemma dispatch_returns : forall n w,
  buffer_ok (inMemoryBlocks (sync w)) ->
  currentSlot (sync w) <> 0 ->
  (size (inMemoryBlocks (sync w)) <= n)%nat ->
  is_Some (requestNextBlockBySlot db n (wrap64 (currentSlot (sync w) + 1)) w).
Proof.
  induction n as [|n IH]; intros w Hok Hc Hsize;
    rewrite requestNextBlockBySlot_unfold;
    destruct (inMemoryBlocks (sync w) !! wrap64 (currentSlot (sync w) + 1))
      as [blk|] eqn:E; eauto.
  - assert (size (inMemoryBlocks (sync w)) <> 0%nat)
      by (eapply map_size_ne_0_lookup_2; rewrite E; eauto).
    lia.
  - destruct (Hok _ _ E) as [Hk Hh].
    set (w0 := say (LogRequestingBlock (wrap64 (currentSlot (sync w) + 1))) w).
    assert (Hc0 : currentSlot (sync w0) = currentSlot (sync w)) by reflexivity.
    assert (Hm0 : inMemoryBlocks (sync w0) = inMemoryBlocks (sync w))
      by reflexivity.
    clearbody w0.
    rewrite <- Hm0 in Hok, Hsize. rewrite <- Hc0 in Hc, Hk.
    rewrite <- Hm0, <- Hc0 in E. clear Hc0 Hm0 w.
    destruct (N.lt_ge_cases (Slot blk) (currentSlot (sync w0))) as [Hlt|Hge].
    { rewrite processBlock_stale by exact Hlt. eauto. }
    assert (Hnext : Slot blk = currentSlot (sync w0) + 1)
      by (apply wrap64_succ_ge; [congruence|lia]).
    assert (Hrange : Slot blk < 2 ^ 64).
    { rewrite Hk. unfold wrap64. apply N.mod_lt. lia. }
    rewrite processBlock_next; [|exact Hc|exact Hnext|exact Hrange].
    cbv zeta. destruct (BlockHash blk); [|contradiction].
    rewrite db_reliable.
    destruct (committed_fields blk (upd (observe (Slot blk)) w0)) as (Cc & Cm).
    rewrite observed_buffer in Cm.
    set (w2 := committed blk (upd (observe (Slot blk)) w0)) in *.
    rewrite <- Cc. apply IH.
    + rewrite Cm. apply buffer_ok_delete. exact Hok.
    + rewrite Cc. lia.
    + rewrite Cm, map_size_delete_Some by (rewrite Hk, E; eauto). lia.
Qed.

Lemma anchored_fields b w :
  currentSlot (sync (anchored b w)) = Slot b
  /\ inMemoryBlocks (sync (anchored b w)) = inMemoryBlocks (sync w).
Proof. split; reflexivity. Qed.

(** With a reliable store and a buffer of hashable blocks kept under their
    slots, processing a hashable block returns when given three units of
    fuel more than there are buffered blocks. *)
Lemma processBlock_returns b p w :
  buffer_ok (inMemoryBlocks (sync w)) ->
  BlockHash b <> None ->
  is_Some (processBlock db (size (inMemoryBlocks (sync w)) + 3) b p w).
Proof.
  intros Hok Hb.
  replace (size (inMemoryBlocks (sync w)) + 3)%nat
    with (S (S (size (inMemoryBlocks (sync w)) + 1))) by lia.
  rewrite processBlock_unfold. cbv zeta.
  rewrite <- (observed_buffer (Slot b) w) in *.
  generalize dependent (upd (observe (Slot b)) w). clear w. intros w1 Hok.
  set (n := (size (inMemoryBlocks (sync w1)) + 1)%nat).
  destruct (N.ltb_spec (Slot b) (currentSlot (sync w1))) as [Hlt|Hge]; eauto.
  destruct (N.eqb_spec (currentSlot (sync w1)) 0) as [Hz|Hnz].
  - destruct (N.eqb_spec (initialCrystallizedStateRoot (sync w1)) zeroRoot)
      as [Hr|Hr]; cbn [negb]; eauto.
    destruct (N.eqb_spec (Slot b) 1) as [H1|H1]; cbn [negb].
    + destruct (BlockHash b); [|contradiction]. rewrite db_reliable.
      destruct (anchored_fields b w1) as (Ac & Am).
      set (w2 := anchored b w1) in *.
      destruct (dispatch_returns (S n) w2) as [[[] w3] E].
      * rewrite Am. exact Hok.
      * rewrite Ac. lia.
      * rewrite Am. unfold n. lia.
      * rewrite Ac in E. rewrite E. simpl. eauto.
    + rewrite requestNextBlockBySlot_unfold.
      assert (Hok2 : buffer_ok (inMemoryBlocks (sync (upd (store_if_absent b) w1))))
        by (apply buffer_ok_store; assumption).
      assert (Hsize2 : (size (inMemoryBlocks
                                (sync (upd (store_if_absent b) w1))) <= n)%nat).
      { pose proof (size_store b (sync w1)) as Hs. cbn [upd sync].
        unfold n. lia. }
      destruct (store_if_absent_fields b (sync w1)) as (Sc & _ & Sr).
      change (store_if_absent b (sync w1))
        with (sync (upd (store_if_absent b) w1)) in Sc, Sr.
      revert Hok2 Hsize2 Sc Sr.
      generalize (upd (store_if_absent b) w1). intros w2 Hok2 Hsize2 Sc Sr.
      destruct (inMemoryBlocks (sync w2) !! 1) as [b1|] eqn:E1; eauto.
      destruct (Hok2 _ _ E1) as [Hk1 Hh1].
      rewrite processBlock_anchor;
        [|cbn [say sync]; congruence|cbn [say sync]; congruence|exact Hk1].
      cbv zeta. destruct (BlockHash b1); [|contradiction].
      rewrite db_reliable.
      set (w3 := upd (observe (Slot b1)) (say (LogRequestingBlock 1) w2)).
      assert (Hm3 : inMemoryBlocks (sync w3) = inMemoryBlocks (sync w2))
        by (unfold w3; rewrite observed_buffer; reflexivity).
      clearbody w3.
      destruct (anchored_fields b1 w3) as (Ac & Am).
      set (w5 := anchored b1 w3) in *.
      destruct (dispatch_returns n w5) as [[[] w4] E].
      * rewrite Am, Hm3. exact Hok2.
      * rewrite Ac. lia.
      * rewrite Am, Hm3. exact Hsize2.
      * rewrite Ac, Hk1 in E. change (wrap64 (1 + 1)) with 2 in E.
        rewrite E. simpl. eauto.
  - destruct (N.eqb_spec (Slot b) (wrap64 (currentSlot (sync w1) + 1)))
      as [Hn|Hn]; cbn [negb]; eauto.
    destruct (BlockHash b); [|contradiction]. rewrite db_reliable.
    assert (Hnext : Slot b = currentSlot (sync w1) + 1)
      by (apply wrap64_succ_ge; [congruence|lia]).
    destruct (committed_fields b w1) as (Cc & Cm).
    set (w2 := committed b w1) in *.
    destruct (dispatch_returns (S n) w2) as [[[] w3] E].
    + rewrite Cm. apply buffer_ok_delete. exact Hok.
    + rewrite Cc. lia.
    + rewrite Cm.
      pose proof (map_size_delete (Slot b) (inMemoryBlocks (sync w1))) as Hs.
      destruct (inMemoryBlocks (sync w1) !! Slot b); simpl in Hs; unfold n; lia.
    + rewrite Cc in E. rewrite E. eauto.
Qed.

End Fuel.

(** * Further properties of the engine *)

(** ** A transition as elementary updates of the loop *)

Section LoopDecomposition.

Context (db : beaconDB).

Lemma block_steps_loop w w' :
  rtc (block_step db) w w' -> rtc (loop_step db) w w'.
Proof.
  induction 1 as [|w1 w2 w3 H _ IH]; [apply rtc_refl|].
  eapply rtc_l; [apply ls_block; exact H|exact IH].
Qed.

Lemma handle_loop_steps fuel i e e' :
  handle db fuel i e = Some e' -> rtc (loop_step db) (world e) (world e').
Proof.
  destruct i.
  - simpl. intros [= <-]. destruct (loopExited e); simpl; [apply rtc_refl|].
    eapply rtc_l; [apply (ls_event db (world e) (Unsubscribe blockSub)); reflexivity|].
    eapply rtc_l; [apply (ls_event db _ (Unsubscribe blockAnnounceSub)); reflexivity|].
    eapply rtc_l; [apply (ls_event db _ (Unsubscribe crystallizedStateSub)); reflexivity|].
    eapply rtc_l; [apply (ls_event db _ (Unsubscribe batchedBlocksub)); reflexivity|].
    unfold say, run_deferred. simpl. rewrite <- !app_assoc. apply rtc_refl.
  - simpl. unfold on_delay. cbv zeta.
    destruct (currentSlot (sync (world e)) =? 0).
    { intros [= <-]. apply rtc_refl. }
    destruct (highestObservedSlot (sync (world e))
              =? currentSlot (sync (world e))).
    { intros [= <-]. simpl.
      eapply rtc_l; [apply (ls_event db (world e) ResumeSync); reflexivity|].
      eapply rtc_l; [apply (ls_event db _ (Unsubscribe blockSub)); reflexivity|].
      eapply rtc_l; [apply (ls_event db _ (Unsubscribe blockAnnounceSub)); reflexivity|].
      eapply rtc_l; [apply (ls_event db _ (Unsubscribe crystallizedStateSub)); reflexivity|].
      eapply rtc_l; [apply (ls_event db _ (Unsubscribe batchedBlocksub)); reflexivity|].
      unfold say, run_deferred. simpl. rewrite <- !app_assoc. apply rtc_refl. }
    intros H. apply in_world_inv in H. destruct H as (w' & H & ->).
    unfold requestBatchedBlocks, bind, get, emit in H. simpl in H.
    injection H as <-. simpl.
    apply rtc_once.
    apply (ls_event db (world e)
             (P2PBroadcast
                (BatchedBeaconBlockRequest
                   (wrap64 (currentSlot (sync (world e)) + 1))
                   (highestObservedSlot (sync (world e)))))).
    reflexivity.
  - simpl. intros H. apply in_world_inv in H. destruct H as (w' & H & ->).
    rewrite on_blockAnnounce_unfold in H. injection H as <-. simpl.
    eapply rtc_l; [apply (ls_observe db (world e) SlotNumber)|].
    apply rtc_once. apply ls_event. reflexivity.
  - intros H. apply handle_block_inputs in H; [|exact I].
    apply block_steps_loop. apply H.
  - simpl. intros H. apply on_crystallizedState_cases in H. cbv zeta in H.
    destruct H as [(_ & ->)|[(_ & _ & _ & ->)
                            |(_ & _ & Hlt & w3 & H & _ & Hw & _)]].
    + apply rtc_refl.
    + simpl. apply rtc_once. apply ls_event. reflexivity.
    + rewrite Hw.
      eapply rtc_l; [apply (ls_event db (world e)
                              (DBSaveCrystallizedState c
                                 (SaveCrystallizedState db
                                    (trace (world e)) c))); reflexivity|].
      eapply rtc_l; [apply ls_adopt; [exact Hlt|rewrite count_say; simpl; lia]|].
      eapply rtc_trans; [apply block_steps_loop; exact H|].
      apply rtc_once. apply ls_event. reflexivity.
  - intros H. apply handle_block_inputs in H; [|exact I].
    apply block_steps_loop. apply H.
  - intros H. apply handle_block_inputs in H; [|exact I].
    apply block_steps_loop. apply H.
Qed.

Lemma step_loop_steps fuel i e e' :
  step db fuel i e = Some e' -> rtc (loop_step db) (world e) (world e').
Proof.
  unfold step. destruct (deliverable i e).
  - apply handle_loop_steps.
  - intros [= <-]. apply rtc_refl.
Qed.

Lemma run_loop_steps fuel : forall inputs e e',
  run db fuel inputs e = Some e' -> rtc (loop_step db) (world e) (world e').
Proof.
  induction inputs as [|i inputs IH]; intros e e'; simpl.
  - intros [= <-]. apply rtc_refl.
  - destruct (step db fuel i e) as [e1|] eqn:E; [|discriminate].
    intros H. eapply rtc_trans; [eapply step_loop_steps; exact E|].
    apply IH. exact H.
Qed.

(** A property of worlds kept by every elementary update is kept by every
    run. *)
Lemma run_invariant (P : World -> Prop) fuel inputs e e' :
  (forall w w', loop_step db w w' -> P w -> P w') ->
  run db fuel inputs e = Some e' -> P (world e) -> P (world e').
Proof.
  intros Hstep H. apply run_loop_steps in H.
  induction H as [|w1 w2 w3 H1 _ IH]; [auto|].
  intros Hw. apply IH. eapply Hstep; eassumption.
Qed.

End LoopDecomposition.


(** ** The anchor root, the keys of the buffer, the order of the writes *)

Section WorldInvariants.

Context (db : beaconDB).

Lemma loop_step_root r w w' :
  loop_step db w w' ->
  initialCrystallizedStateRoot (sync w) = r
  /\ (r <> zeroRoot \/ currentSlot (sync w) <> 0) ->
  initialCrystallizedStateRoot (sync w') = r
  /\ (r <> zeroRoot \/ currentSlot (sync w') <> 0).
Proof.
  intros Hstep [Hr Hset].
  destruct Hstep as [w w' Hb|w slot|w ev _|w slot Hlt].
  - destruct Hb.
    + simpl. destruct (observe_fields slot (sync w)) as (-> & _ & -> & _). auto.
    + simpl. destruct (store_if_absent_fields b (sync w)) as (-> & _ & ->). auto.
    + auto.
    + auto.
    + auto.
    + auto.
    + exfalso. destruct Hset as [Hset|Hset]; [|contradiction]. congruence.
    + simpl. destruct (delete_if_present_fields (Slot b)
                         (set_currentSlot (Slot b) (sync w)))
        as (-> & _ & -> & _).
      simpl. split; [exact Hr|]. right. lia.
  - simpl. destruct (observe_fields slot (sync w)) as (-> & _ & -> & _). auto.
  - auto.
  - simpl. split; [exact Hr|]. right. lia.
Qed.

Lemma well_keyed_store b s :
  well_keyed (inMemoryBlocks s) -> well_keyed (inMemoryBlocks (store_if_absent b s)).
Proof.
  intros H. unfold store_if_absent.
  destruct (inMemoryBlocks s !! Slot b) eqn:E; [exact H|]. simpl.
  intros k b' Hk. destruct (decide (Slot b = k)) as [<-|Hne].
  - rewrite lookup_insert_eq in Hk. injection Hk as <-. reflexivity.
  - rewrite lookup_insert_ne in Hk by exact Hne. exact (H k b' Hk).
Qed.

Lemma well_keyed_delete k buf : well_keyed buf -> well_keyed (delete k buf).
Proof.
  intros H j b Hj. apply lookup_delete_Some in Hj. destruct Hj as [_ Hj].
  exact (H j b Hj).
Qed.

Lemma loop_step_keyed w w' :
  loop_step db w w' ->
  well_keyed (inMemoryBlocks (sync w)) -> well_keyed (inMemoryBlocks (sync w')).
Proof.
  intros Hstep Hk.
  destruct Hstep as [w w' Hb|w slot|w ev _|w slot Hlt].
  - destruct Hb; auto.
    + simpl. destruct (observe_fields slot (sync w)) as (_ & _ & _ & ->). auto.
    + apply well_keyed_store. exact Hk.
    + simpl. destruct (delete_if_present_fields (Slot b)
                         (set_currentSlot (Slot b) (sync w)))
        as (_ & _ & _ & ->).
      apply well_keyed_delete. exact Hk.
  - simpl. destruct (observe_fields slot (sync w)) as (_ & _ & _ & ->). auto.
  - auto.
  - auto.
Qed.

Lemma persisted_slots_app a b :
  persisted_slots (a ++ b) = persisted_slots a ++ persisted_slots b.
Proof. unfold persisted_slots. apply flat_map_app. Qed.

Lemma persisted_slots_other ev tr :
  is_persisted_block ev = false ->
  persisted_slots (tr ++ [ev]) = persisted_slots tr.
Proof.
  intros H. rewrite persisted_slots_app.
  replace (persisted_slots [ev]) with (@nil N); [apply app_nil_r|].
  destruct ev as [b [e|]| | | | | |]; try reflexivity. discriminate H.
Qed.

Lemma sorted_snoc (l : list N) (x : N) :
  StronglySorted N.lt l -> Forall (fun k => k < x) l ->
  StronglySorted N.lt (l ++ [x]).
Proof.
  induction 1 as [|a l Hs IH Ha]; intros Hx; simpl.
  - constructor; constructor.
  - inversion Hx as [|? ? Hax Hlx]; subst.
    constructor; [apply IH; exact Hlx|].
    apply Forall_app. split; [exact Ha|]. constructor; [exact Hax|constructor].
Qed.

Lemma writes_ordered_raise w (f : InitialSync -> InitialSync) :
  currentSlot (sync w) <= currentSlot (f (sync w)) ->
  writes_ordered w -> writes_ordered (upd f w).
Proof.
  intros Hle [Hs Hb]. split; [exact Hs|]. simpl.
  eapply Forall_impl; [exact Hb|]. simpl. intros k Hk. lia.
Qed.

Lemma writes_ordered_say ev w :
  is_persisted_block ev = false -> writes_ordered w -> writes_ordered (say ev w).
Proof.
  intros Hev [Hs Hb]. unfold writes_ordered. simpl.
  rewrite persisted_slots_other by exact Hev. auto.
Qed.

Lemma writes_ordered_write b w :
  currentSlot (sync w) < Slot b -> 1 <= Slot b ->
  writes_ordered w ->
  StronglySorted N.lt (persisted_slots (trace w ++ [DBSaveBlock b None]))
  /\ Forall (fun k => 1 <= k <= Slot b)
       (persisted_slots (trace w ++ [DBSaveBlock b None])).
Proof.
  intros Hlt H1 [Hs Hb]. rewrite persisted_slots_app. simpl.
  split.
  - apply sorted_snoc; [exact Hs|].
    eapply Forall_impl; [exact Hb|]. simpl. intros k Hk. lia.
  - apply Forall_app. split.
    + eapply Forall_impl; [exact Hb|]. simpl. intros k Hk. lia.
    + constructor; [lia|constructor].
Qed.

Lemma loop_step_writes w w' :
  loop_step db w w' -> writes_ordered w -> writes_ordered w'.
Proof.
  intros Hstep Hw.
  destruct Hstep as [w w' Hb|w slot|w ev Hev|w slot Hlt].
  - destruct Hb.
    + apply writes_ordered_raise; [|exact Hw].
      destruct (observe_fields slot (sync w)) as (-> & _). lia.
    + apply writes_ordered_raise; [|exact Hw].
      destruct (store_if_absent_fields b (sync w)) as (-> & _). lia.
    + apply writes_ordered_say; [reflexivity|exact Hw].
    + apply writes_ordered_say; [reflexivity|exact Hw].
    + apply writes_ordered_say; [reflexivity|exact Hw].
    + apply writes_ordered_say; [reflexivity|exact Hw].
    + destruct (writes_ordered_write b w) as [Hs Hb]; [lia|lia|exact Hw|].
      split; [exact Hs|exact Hb].
    + destruct (writes_ordered_write b w) as [Hs Hb]; [lia|lia|exact Hw|].
      split; [exact Hs|]. simpl.
      destruct (delete_if_present_fields (Slot b)
                  (set_currentSlot (Slot b) (sync w))) as (-> & _).
      exact Hb.
  - apply writes_ordered_raise; [|exact Hw].
    destruct (observe_fields slot (sync w)) as (-> & _). lia.
  - apply writes_ordered_say; [|exact Hw].
    destruct ev; try reflexivity; discriminate Hev.
  - apply writes_ordered_raise; [simpl; lia|exact Hw].
Qed.

End WorldInvariants.

(** X1: once the anchor root is set (or the cursor has left 0), no input
    changes the anchor root. *)
Theorem anchor_root_stable (db : beaconDB) (fuel : nat) (inputs : list Input)
    (e e' : Engine) :
  run db fuel inputs e = Some e' ->
  initialCrystallizedStateRoot (sync (world e)) <> zeroRoot
  \/ currentSlot (sync (world e)) <> 0 ->
  initialCrystallizedStateRoot (sync (world e'))
  = initialCrystallizedStateRoot (sync (world e)).
Proof.
  intros Hrun Hset.
  apply (run_invariant db
           (fun w => initialCrystallizedStateRoot (sync w)
                     = initialCrystallizedStateRoot (sync (world e))
                     /\ (initialCrystallizedStateRoot (sync (world e)) <> zeroRoot
                         \/ currentSlot (sync w) <> 0))
           fuel inputs e e'); [|exact Hrun|auto].
  intros w w'. apply loop_step_root.
Qed.

Lemma anchor_root_stable_witness :
  exists e',
    run reliableDB 4 scenario (engineAt 1 1 9 ∅) = Some e'
    /\ initialCrystallizedStateRoot (sync (world e')) = 9.
Proof.
  destruct (run reliableDB 4 scenario (engineAt 1 1 9 ∅)) as [e'|] eqn:Hrun;
    [|vm_compute in Hrun; discriminate Hrun].
  exists e'. split; [reflexivity|].
  apply (anchor_root_stable reliableDB 4 scenario (engineAt 1 1 9 ∅) e' Hrun).
  left. vm_compute. lia.
Defined.

(** X2: in every run of a fresh service, every buffered block sits under
    its own slot. *)
Theorem buffer_keyed_by_slot (db : beaconDB) (fuel : nat)
    (inputs : list Input) (e : Engine) :
  run db fuel inputs NewInitialSyncService = Some e ->
  forall k b, inMemoryBlocks (sync (world e)) !! k = Some b -> Slot b = k.
Proof.
  intros Hrun.
  apply (run_invariant db (fun w => well_keyed (inMemoryBlocks (sync w)))
           fuel inputs NewInitialSyncService e); [|exact Hrun|].
  - intros w w'. apply loop_step_keyed.
  - intros k b Hk. simpl in Hk. rewrite lookup_empty in Hk. discriminate.
Qed.

Lemma buffer_keyed_by_slot_witness :
  exists e,
    run reliableDB 4 (firstn 1 scenario) NewInitialSyncService = Some e
    /\ inMemoryBlocks (sync (world e)) !! 6 = Some (testBlock 6 9)
    /\ forall k b, inMemoryBlocks (sync (world e)) !! k = Some b -> Slot b = k.
Proof.
  destruct (run reliableDB 4 (firstn 1 scenario) NewInitialSyncService)
    as [e|] eqn:Hrun; [|vm_compute in Hrun; discriminate Hrun].
  exists e. split; [reflexivity|]. split.
  - vm_compute in Hrun. injection Hrun as <-. vm_compute. reflexivity.
  - exact (buffer_keyed_by_slot reliableDB 4 (firstn 1 scenario) e Hrun).
Defined.

(** X3: in every run of a fresh service whose [checkInMemoryBlocks] has
    returned, so that [run] alone works on the struct, the blocks written to
    the store have strictly increasing slots, from 1 at least up to the
    cursor at most: no slot is written twice and none out of order. *)
Theorem writes_in_slot_order (db : beaconDB) (fuel : nat)
    (inputs : list Input) (e : Engine) :
  run db fuel inputs (stop_checker NewInitialSyncService) = Some e ->
  StronglySorted N.lt (persisted_slots (trace (world e)))
  /\ Forall (fun k => 1 <= k <= currentSlot (sync (world e)))
       (persisted_slots (trace (world e))).
Proof.
  intros Hrun.
  apply (run_invariant db writes_ordered fuel inputs
           (stop_checker NewInitialSyncService) e); [|exact Hrun|].
  - intros w w'. apply loop_step_writes.
  - split; constructor.
Qed.

Lemma writes_in_slot_order_witness :
  exists e,
    run reliableDB 4 scenario (stop_checker NewInitialSyncService) = Some e
    /\ persisted_slots (trace (world e)) = [1; 4; 5; 6]
    /\ StronglySorted N.lt (persisted_slots (trace (world e)))
    /\ Forall (fun k => 1 <= k <= currentSlot (sync (world e)))
         (persisted_slots (trace (world e))).
Proof.
  destruct (run reliableDB 4 scenario (stop_checker NewInitialSyncService))
    as [e|] eqn:Hrun; [|vm_compute in Hrun; discriminate Hrun].
  exists e. split; [reflexivity|]. split.
  - pose proof Hrun as Hc. vm_compute in Hc. injection Hc as <-. reflexivity.
  - exact (writes_in_slot_order reliableDB 4 scenario e Hrun).
Defined.


(** ** The struct between two inputs *)

Section Rest.

Context (db : beaconDB).

Lemma observed_same slot w :
  currentSlot (sync (upd (observe slot) w)) = currentSlot (sync w)
  /\ initialCrystallizedStateRoot (sync (upd (observe slot) w))
     = initialCrystallizedStateRoot (sync w)
  /\ inMemoryBlocks (sync (upd (observe slot) w)) = inMemoryBlocks (sync w).
Proof.
  cbn [upd sync].
  destruct (observe_fields slot (sync w)) as (-> & _ & -> & ->). auto.
Qed.

(** [at_rest] looks at the cursor, the anchor root and the buffer only. *)
Lemma at_rest_same s s' :
  currentSlot s' = currentSlot s ->
  initialCrystallizedStateRoot s' = initialCrystallizedStateRoot s ->
  inMemoryBlocks s' = inMemoryBlocks s ->
  at_rest s -> at_rest s'.
Proof.
  unfold at_rest, anchored_ok, next_missing. intros -> -> ->. auto.
Qed.

Lemma next_missing_lookup s :
  next_missing s -> currentSlot s + 1 < 2 ^ 64 ->
  inMemoryBlocks s !! wrap64 (currentSlot s + 1) = None.
Proof. intros H Hr. rewrite wrap64_small by exact Hr. apply H. exact Hr. Qed.

(** The dispatch for the slot after the cursor ends at rest, when the
    buffered blocks it processes do. *)
Lemma dispatch_rest fuel w w' :
  (forall b p v v',
      processBlock db fuel b p v = Some (tt, v') ->
      well_keyed (inMemoryBlocks (sync v)) ->
      anchored_ok (sync v) ->
      next_missing (sync v)
      \/ (currentSlot (sync v) <> 0
          /\ inMemoryBlocks (sync v) !! Slot b = Some b
          /\ Slot b = wrap64 (currentSlot (sync v) + 1)) ->
      at_rest (sync v')) ->
  requestNextBlockBySlot db fuel (wrap64 (currentSlot (sync w) + 1)) w
  = Some (tt, w') ->
  well_keyed (inMemoryBlocks (sync w)) ->
  currentSlot (sync w) <> 0 ->
  at_rest (sync w').
Proof.
  intros IH. rewrite requestNextBlockBySlot_unfold.
  destruct (inMemoryBlocks (sync w) !! wrap64 (currentSlot (sync w) + 1))
    as [blk|] eqn:E; intros H Hk Hc.
  - pose proof (Hk _ _ E) as Hslot.
    apply IH in H; [exact H|exact Hk|intros Hz; contradiction|].
    right. simpl. split; [exact Hc|]. split; [rewrite Hslot; exact E|exact Hslot].
  - injection H as <-. simpl. split; [exact Hk|].
    split; [intros Hz; contradiction|].
    intros Hr. rewrite <- (wrap64_small _ Hr). exact E.
Qed.

Lemma processBlock_rest fuel : forall b p w w',
  processBlock db fuel b p w = Some (tt, w') ->
  well_keyed (inMemoryBlocks (sync w)) ->
  anchored_ok (sync w) ->
  next_missing (sync w)
  \/ (currentSlot (sync w) <> 0
      /\ inMemoryBlocks (sync w) !! Slot b = Some b
      /\ Slot b = wrap64 (currentSlot (sync w) + 1)) ->
  at_rest (sync w').
Proof.
  induction fuel as [|fuel IH]; intros b p w w'; [discriminate|].
  rewrite processBlock_unfold. cbv zeta.
  destruct (observed_same (Slot b) w) as (Oc & Or & Om).
  unfold anchored_ok, next_missing. rewrite <- Oc, <- Or, <- Om.
  generalize (upd (observe (Slot b)) w). clear w Oc Or Om. intros w.
  fold (anchored_ok (sync w)). fold (next_missing (sync w)).
  pose proof (fun v v' => dispatch_rest fuel v v' IH) as Hreq.
  destruct (N.ltb_spec (Slot b) (currentSlot (sync w))) as [Hlt|Hge].
  { intros [= <-] Hk Ha [Hn|(Hc & Hin & Hs)]; (split; [exact Hk|]);
      (split; [exact Ha|]); [exact Hn|].
    intros Hr. exfalso. rewrite wrap64_small in Hs by exact Hr. lia. }
  destruct (N.eqb_spec (currentSlot (sync w)) 0) as [Hz|Hnz].
  - destruct (N.eqb_spec (initialCrystallizedStateRoot (sync w)) zeroRoot)
      as [Hr|Hr]; cbn [negb].
    2:{ intros _ _ Ha _. exfalso. apply Hr, Ha, Hz. }
    destruct (N.eqb_spec (Slot b) 1) as [H1|H1]; cbn [negb].
    + destruct (BlockHash b) as [h|].
      * destruct (SaveBlock db (trace w) b) as [e|] eqn:Hs.
        -- intros [= <-] Hk Ha [Hn|(Hc & _)]; [|contradiction].
           simpl. split; [exact Hk|]. split; [exact Ha|exact Hn].
        -- intros H Hk Ha _.
           destruct (requestNextBlockBySlot db fuel (wrap64 (Slot b + 1))
                       (anchored b w)) as [[[] w2]|] eqn:E; [|discriminate].
           simpl in H. injection H as <-. simpl.
           apply (Hreq (anchored b w) w2); [exact E|exact Hk|simpl; lia].
      * intros [= <-] Hk Ha [Hn|(Hc & _)]; [|contradiction].
        simpl. split; [exact Hk|]. split; [exact Ha|exact Hn].
    + rewrite requestNextBlockBySlot_unfold.
      intros H Hk Ha [Hn|(Hc & _)]; [|contradiction].
      assert (Hk2 : well_keyed (inMemoryBlocks (store_if_absent b (sync w))))
        by (apply well_keyed_store; exact Hk).
      destruct (store_if_absent_fields b (sync w)) as (Sc & _ & Sr).
      assert (Hnone : inMemoryBlocks (store_if_absent b (sync w)) !! 1 = None).
      { assert (Hold : inMemoryBlocks (sync w) !! 1 = None).
        { unfold next_missing in Hn. rewrite Hz in Hn. apply Hn. reflexivity. }
        unfold store_if_absent.
        destruct (inMemoryBlocks (sync w) !! Slot b); [exact Hold|]. simpl.
        rewrite lookup_insert_ne by exact H1. exact Hold. }
      cbn [upd sync] in H. rewrite Hnone in H. injection H as <-. simpl.
      split; [exact Hk2|]. unfold anchored_ok, next_missing.
      rewrite Sc, Sr, Hz. split; [intros _; exact Hr|]. intros _. exact Hnone.
  - destruct (N.eqb_spec (Slot b) (wrap64 (currentSlot (sync w) + 1)))
      as [Hn|Hn]; cbn [negb].
    + assert (Hnext : Slot b = currentSlot (sync w) + 1)
        by (apply wrap64_succ_ge; [congruence|lia]).
      assert (Hrange : currentSlot (sync w) + 1 < 2 ^ 64).
      { rewrite <- Hnext, Hn. unfold wrap64. apply N.mod_lt. lia. }
      assert (Hretry : forall v v',
                 requestNextBlockBySlot db fuel
                   (wrap64 (currentSlot (sync w) + 1)) v = Some (tt, v') ->
                 sync v = sync w ->
                 well_keyed (inMemoryBlocks (sync w)) ->
                 at_rest (sync v')).
      { intros v v' H Hv Hk. rewrite <- Hv in H.
        apply (Hreq v v'); [exact H|rewrite Hv; exact Hk|rewrite Hv; exact Hnz]. }
      destruct (BlockHash b) as [h|].
      * destruct (SaveBlock db (trace w) b) as [e|] eqn:Hs.
        -- intros H Hk _ _. apply (Hretry _ _ H); [reflexivity|exact Hk].
        -- intros H Hk _ _.
           destruct (committed_fields b w) as (Cc & Cm).
           rewrite <- Cc in H.
           apply (Hreq (committed b w) w'); [exact H| |rewrite Cc; lia].
           rewrite Cm. apply well_keyed_delete. exact Hk.
      * intros H Hk _ _. apply (Hretry _ _ H); [reflexivity|exact Hk].
    + intros [= <-] Hk Ha [Hm|(_ & _ & Hs)]; [|contradiction].
      cbn [upd sync].
      destruct (store_if_absent_fields b (sync w)) as (Sc & _ & Sr).
      split; [apply well_keyed_store; exact Hk|].
      unfold anchored_ok, next_missing. rewrite Sc, Sr.
      split; [exact Ha|]. intros Hr.
      unfold store_if_absent.
      destruct (inMemoryBlocks (sync w) !! Slot b); [apply Hm; exact Hr|].
      simpl. rewrite lookup_insert_ne; [apply Hm; exact Hr|].
      rewrite wrap64_small in Hn by exact Hr. exact Hn.
Qed.

Lemma processBatchedBlocks_rest fuel p : forall bs w w',
  processBatchedBlocks db fuel bs p w = Some (tt, w') ->
  at_rest (sync w) -> at_rest (sync w').
Proof.
  induction bs as [|b bs IH]; intros w w'; simpl.
  - unfold ret. intros [= <-]. auto.
  - unfold bind.
    destruct (processBlock db fuel b p w) as [[[] w1]|] eqn:E; [|discriminate].
    intros H (Hk & Ha & Hn). apply (IH w1 w' H).
    apply (processBlock_rest fuel b p w w1 E Hk Ha). left. exact Hn.
Qed.

(** Where the cursor cannot be followed by a slot, or the next slot is
    not buffered, a turn of [checkInMemoryBlocks] finds nothing to do. *)
Lemma checker_turn_idle fuel e :
  at_rest (sync (world e)) ->
  exists e',
    on_checkInMemoryBlocks db (S fuel) e = Some e' /\ world e' = world e.
Proof.
  intros (Hk & _ & Hn). unfold on_checkInMemoryBlocks. cbv zeta.
  destruct (currentSlot (sync (world e)) =? highestObservedSlot (sync (world e)));
    [eexists; split; reflexivity|].
  destruct (inMemoryBlocks (sync (world e))
              !! wrap64 (currentSlot (sync (world e)) + 1)) as [blk|] eqn:E;
    [|eexists; split; reflexivity].
  destruct (N.leb_spec (wrap64 (currentSlot (sync (world e)) + 1))
              (highestObservedSlot (sync (world e)))) as [Hle|Hgt];
    [|eexists; split; reflexivity].
  pose proof (Hk _ _ E) as Hslot.
  assert (Hwrap : ~ currentSlot (sync (world e)) + 1 < 2 ^ 64).
  { intros Hr. rewrite (next_missing_lookup _ Hn Hr) in E. discriminate. }
  assert (Hstale : Slot blk < currentSlot (sync (world e))).
  { assert (Slot blk < 2 ^ 64)
      by (rewrite Hslot; unfold wrap64; apply N.mod_lt; lia).
    pose proof (wrap64_succ_ne (currentSlot (sync (world e)))). lia. }
  unfold in_world. rewrite processBlock_stale by exact Hstale.
  rewrite upd_id by (apply observe_id; lia).
  eexists. split; reflexivity.
Qed.

Lemma handle_rest fuel i e e' :
  handle db fuel i e = Some e' ->
  at_rest (sync (world e)) -> at_rest (sync (world e')).
Proof.
  destruct i.
  - simpl. intros [= <-]. destruct (loopExited e); auto.
  - simpl. intros H. apply on_delay_cursor in H. destruct H as [-> _]. auto.
  - simpl. intros H. apply in_world_inv in H. destruct H as (w' & H & ->).
    rewrite on_blockAnnounce_unfold in H. injection H as <-. simpl.
    destruct (observe_fields SlotNumber (sync (world e))) as (Oc & _ & Or & Om).
    apply at_rest_same; assumption.
  - simpl. intros H. apply in_world_inv in H. destruct H as (w' & H & ->).
    intros (Hk & Ha & Hn).
    apply (processBlock_rest fuel block peer _ _ H Hk Ha). left. exact Hn.
  - simpl. intros H. apply on_crystallizedState_cases in H. cbv zeta in H.
    destruct H as [(_ & ->)|[(_ & _ & _ & ->)
                            |(_ & _ & Hlt & w3 & _ & H & Hw & _)]]; auto.
    intros (Hk & _ & _). rewrite Hw. simpl.
    apply (dispatch_rest fuel
             (upd (set_currentSlot (LastFinalizedSlot c))
                (say (DBSaveCrystallizedState c
                        (SaveCrystallizedState db (trace (world e)) c))
                   (world e))) w3).
    + intros b p v v'. apply processBlock_rest.
    + exact H.
    + exact Hk.
    + simpl. lia.
  - simpl. intros H. apply in_world_inv in H. destruct H as (w' & H & ->).
    apply (processBatchedBlocks_rest fuel peer blocks _ _ H).
  - simpl. unfold on_checkInMemoryBlocks. cbv zeta.
    destruct (currentSlot (sync (world e)) =? highestObservedSlot (sync (world e))).
    { intros [= <-]. auto. }
    destruct (inMemoryBlocks (sync (world e))
                !! wrap64 (currentSlot (sync (world e)) + 1)) as [blk|].
    2:{ intros [= <-]. auto. }
    destruct (wrap64 (currentSlot (sync (world e)) + 1)
              <=? highestObservedSlot (sync (world e))).
    2:{ intros [= <-]. auto. }
    intros H. apply in_world_inv in H. destruct H as (w' & H & ->).
    intros (Hk & Ha & Hn).
    apply (processBlock_rest fuel blk noPeer _ _ H Hk Ha). left. exact Hn.
Qed.

Lemma run_rest fuel : forall inputs e e',
  run db fuel inputs e = Some e' ->
  at_rest (sync (world e)) -> at_rest (sync (world e')).
Proof.
  induction inputs as [|i inputs IH]; intros e e'; simpl.
  - intros [= <-]. auto.
  - destruct (step db fuel i e) as [e1|] eqn:E; [|discriminate].
    intros H Hr. apply (IH e1 e' H).
    unfold step in E. destruct (deliverable i e).
    + eapply handle_rest; eassumption.
    + injection E as <-. exact Hr.
Qed.

Lemma fresh_at_rest : at_rest (sync (world NewInitialSyncService)).
Proof.
  split; [|split].
  - intros k b Hk. simpl in Hk. rewrite lookup_empty in Hk. discriminate.
  - intros _. reflexivity.
  - intros _. simpl. apply lookup_empty.
Qed.

End Rest.


(** X4: in every run of a fresh service whose [checkInMemoryBlocks] has
    returned, so that [run] alone works on the struct, between two inputs
    of [run] there is an anchor root only if the cursor has left 0, and the
    block of the slot after the cursor is not in the buffer: the dispatch
    that follows every move of the cursor has already taken it. *)
Theorem next_slot_never_buffered (db : beaconDB) (fuel : nat)
    (inputs : list Input) (e : Engine) :
  run db fuel inputs (stop_checker NewInitialSyncService) = Some e ->
  (currentSlot (sync (world e)) = 0 ->
   initialCrystallizedStateRoot (sync (world e)) = zeroRoot)
  /\ (currentSlot (sync (world e)) + 1 < 2 ^ 64 ->
      inMemoryBlocks (sync (world e)) !! (currentSlot (sync (world e)) + 1)
      = None).
Proof.
  intros Hrun.
  destruct (run_rest db fuel inputs _ _ Hrun fresh_at_rest) as (_ & Ha & Hn).
  split; [exact Ha|exact Hn].
Qed.

Lemma next_slot_never_buffered_witness :
  exists e,
    run reliableDB 4 (firstn 4 scenario) (stop_checker NewInitialSyncService)
    = Some e
    /\ currentSlot (sync (world e)) = 6
    /\ (currentSlot (sync (world e)) = 0 ->
        initialCrystallizedStateRoot (sync (world e)) = zeroRoot)
    /\ (currentSlot (sync (world e)) + 1 < 2 ^ 64 ->
        inMemoryBlocks (sync (world e)) !! (currentSlot (sync (world e)) + 1)
        = None).
Proof.
  destruct (run reliableDB 4 (firstn 4 scenario)
              (stop_checker NewInitialSyncService))
    as [e|] eqn:Hrun; [|vm_compute in Hrun; discriminate Hrun].
  exists e. split; [reflexivity|]. split.
  - pose proof Hrun as Hc. vm_compute in Hc. injection Hc as <-. reflexivity.
  - exact (next_slot_never_buffered reliableDB 4 (firstn 4 scenario) e Hrun).
Defined.

Section AfterExit.

Context (db : beaconDB).

Lemma checker_turn_world fuel e e' :
  at_rest (sync (world e)) ->
  on_checkInMemoryBlocks db fuel e = Some e' -> world e' = world e.
Proof.
  intros Hr. destruct fuel as [|fuel].
  - unfold on_checkInMemoryBlocks. cbv zeta.
    destruct (currentSlot (sync (world e))
              =? highestObservedSlot (sync (world e))); [intros [= <-]; auto|].
    destruct (inMemoryBlocks (sync (world e))
                !! wrap64 (currentSlot (sync (world e)) + 1));
      [|intros [= <-]; auto].
    destruct (wrap64 (currentSlot (sync (world e)) + 1)
              <=? highestObservedSlot (sync (world e)));
      [discriminate|intros [= <-]; auto].
  - destruct (checker_turn_idle db fuel e Hr) as (e1 & -> & Hw).
    intros [= <-]. exact Hw.
Qed.

(** After [run] has returned, a step leaves the world as it is. *)
Lemma step_after_exit fuel i e :
  at_rest (sync (world e)) ->
  loopExited e = true ->
  exists e',
    step db (S fuel) i e = Some e'
    /\ world e' = world e /\ loopExited e' = true.
Proof.
  intros Hr Hex. unfold step.
  destruct i; simpl deliverable; rewrite ?Hex; cbn [negb andb];
    try (exists e; repeat split; auto; fail).
  - simpl. rewrite Hex. eexists. split; [reflexivity|]. simpl. auto.
  - destruct (negb (checkerExited e)); [|exists e; auto].
    destruct (checker_turn_idle db fuel e Hr) as (e' & H & Hw).
    exists e'. split; [exact H|]. split; [exact Hw|].
    assert (Hh : handle db (S fuel) CheckInMemoryBlocks e = Some e') by exact H.
    apply handle_block_inputs in Hh; [|exact I].
    destruct Hh as (_ & -> & _). exact Hex.
Qed.

Lemma run_after_exit_quiet fuel : forall inputs e,
  at_rest (sync (world e)) ->
  loopExited e = true ->
  exists e',
    run db (S fuel) inputs e = Some e'
    /\ world e' = world e /\ loopExited e' = true.
Proof.
  induction inputs as [|i inputs IH]; intros e Hr Hex; simpl.
  - exists e. auto.
  - destruct (step_after_exit fuel i e Hr Hex) as (e1 & -> & Hw & Hex1).
    destruct (IH e1) as (e' & H & Hw' & Hex'); [rewrite Hw; exact Hr|exact Hex1|].
    exists e'. split; [exact H|]. split; [congruence|exact Hex'].
Qed.

(** A step either adds no hand-off to the trace, or ends the loop with
    the cursor on the highest observed slot. *)
Lemma step_resume fuel i e e' :
  step db fuel i e = Some e' ->
  count is_resume (trace (world e')) = count is_resume (trace (world e))
  \/ (loopExited e' = true
      /\ highestObservedSlot (sync (world e')) = currentSlot (sync (world e'))
      /\ currentSlot (sync (world e')) <> 0).
Proof.
  unfold step. destruct (deliverable i e); [|intros [= <-]; auto].
  destruct i.
  - simpl. intros [= <-]. left.
    destruct (loopExited e); simpl; [reflexivity|].
    rewrite count_app. change (count is_resume run_deferred) with 0%nat. lia.
  - simpl. unfold on_delay. cbv zeta.
    destruct (N.eqb_spec (currentSlot (sync (world e))) 0) as [Hz|Hnz].
    { intros [= <-]. auto. }
    destruct (N.eqb_spec (highestObservedSlot (sync (world e)))
                (currentSlot (sync (world e)))) as [Hconv|Hconv].
    { intros [= <-]. right. simpl. auto. }
    intros H. apply in_world_inv in H. destruct H as (w' & H & ->).
    unfold requestBatchedBlocks, bind, get, emit in H. simpl in H.
    injection H as <-. left. simpl. rewrite count_app.
    unfold count at 2. simpl. lia.
  - simpl. intros H. apply in_world_inv in H. destruct H as (w' & H & ->).
    rewrite on_blockAnnounce_unfold in H. injection H as <-. left. simpl.
    rewrite count_app. unfold count at 2. simpl. lia.
  - intros H. by_block_steps H. left.
    apply (block_effect_count is_resume _ _ is_resume_loop H).
  - simpl. intros H. apply on_crystallizedState_cases in H. cbv zeta in H.
    left.
    destruct H as [(_ & ->)|[(_ & _ & _ & ->)
                            |(_ & _ & _ & w3 & H & _ & Hw & _)]].
    + reflexivity.
    + simpl. rewrite count_app. unfold count at 2. simpl. lia.
    + apply block_steps_effect in H. rewrite Hw, count_say.
      rewrite (block_effect_count is_resume _ _ is_resume_loop H). simpl.
      rewrite count_app. unfold count at 2. simpl. lia.
  - intros H. by_block_steps H. left.
    apply (block_effect_count is_resume _ _ is_resume_loop H).
  - intros H. by_block_steps H. left.
    apply (block_effect_count is_resume _ _ is_resume_loop H).
Qed.

Lemma run_resume_converged fuel : forall inputs e e',
  run db fuel inputs e = Some e' ->
  at_rest (sync (world e)) ->
  count is_resume (trace (world e)) = 0%nat
  \/ (loopExited e = true
      /\ highestObservedSlot (sync (world e)) = currentSlot (sync (world e))
      /\ currentSlot (sync (world e)) <> 0) ->
  count is_resume (trace (world e')) = 0%nat
  \/ (loopExited e' = true
      /\ highestObservedSlot (sync (world e')) = currentSlot (sync (world e'))
      /\ currentSlot (sync (world e')) <> 0).
Proof.
  induction inputs as [|i inputs IH]; intros e e'; simpl.
  - intros [= <-]. auto.
  - destruct (step db fuel i e) as [e1|] eqn:E; [|discriminate].
    intros H Hr Hinv. apply (IH e1 e' H).
    + apply (run_rest db fuel [i] e e1); [simpl; rewrite E; reflexivity|exact Hr].
    + destruct Hinv as [Hzero|(Hex & Hconv & Hnz)].
      * destruct (step_resume fuel i e e1 E) as [Hsame|Hdone]; [left; lia|auto].
      * right.
        assert (Hw : world e1 = world e /\ loopExited e1 = true).
        { pose proof E as E'. unfold step in E'.
          destruct i; simpl deliverable in E'; rewrite ?Hex in E';
            cbn [negb andb] in E'; try (injection E' as <-; auto; fail).
          - simpl in E'. rewrite Hex in E'. injection E' as <-. auto.
          - destruct (negb (checkerExited e)); [|injection E' as <-; auto].
            split; [eapply checker_turn_world; eassumption|].
            assert (Hh : handle db fuel CheckInMemoryBlocks e = Some e1)
              by exact E'.
            apply handle_block_inputs in Hh; [|exact I].
            destruct Hh as (_ & -> & _). exact Hex. }
        destruct Hw as [-> ->]. auto.
Qed.

End AfterExit.

(** X6: once [run] of a fresh service has returned, whatever arrives
    afterwards (messages, ticks, cancellation, turns of the buffer check)
    is handled without changing the struct and without any call on the
    store, the network or the sync service. *)
Theorem exited_is_quiet (db : beaconDB) (fuel fuel' : nat)
    (before after : list Input) (e : Engine) :
  run db fuel before NewInitialSyncService = Some e ->
  loopExited e = true ->
  exists e',
    run db (S fuel') after e = Some e'
    /\ world e' = world e /\ loopExited e' = true.
Proof.
  intros Hrun Hex. apply run_after_exit_quiet; [|exact Hex].
  eapply run_rest; [exact Hrun|apply fresh_at_rest].
Qed.

Lemma exited_is_quiet_witness :
  exists e e',
    run reliableDB 4 scenario NewInitialSyncService = Some e
    /\ run reliableDB 1
         [BlockResponse (testBlock 7 9) 3; CheckInMemoryBlocks; DelayTick;
          CtxDone] e = Some e'
    /\ world e' = world e /\ loopExited e' = true.
Proof.
  destruct (run reliableDB 4 scenario NewInitialSyncService) as [e|] eqn:Hrun;
    [|vm_compute in Hrun; discriminate Hrun].
  assert (Hex : loopExited e = true).
  { pose proof Hrun as Hc. vm_compute in Hc. injection Hc as <-. reflexivity. }
  destruct (exited_is_quiet reliableDB 4 0 scenario
              [BlockResponse (testBlock 7 9) 3; CheckInMemoryBlocks; DelayTick;
               CtxDone] e Hrun Hex) as (e' & H & Hw & Hex').
  exists e, e'. split; [reflexivity|]. split; [exact H|].
  split; [exact Hw|exact Hex'].
Defined.

(** X7: in every run of a fresh service, if [ResumeSync] has been called
    then [run] has returned and the cursor is on the highest observed slot
    and not 0, at the hand-off and ever after. *)
Theorem resume_means_converged (db : beaconDB) (fuel : nat)
    (inputs : list Input) (e : Engine) :
  run db fuel inputs NewInitialSyncService = Some e ->
  count is_resume (trace (world e)) <> 0%nat ->
  loopExited e = true
  /\ highestObservedSlot (sync (world e)) = currentSlot (sync (world e))
  /\ currentSlot (sync (world e)) <> 0.
Proof.
  intros Hrun Hres.
  destruct (run_resume_converged db fuel inputs _ _ Hrun fresh_at_rest)
    as [Hzero|H]; [left; reflexivity|contradiction|exact H].
Qed.

Lemma resume_means_converged_witness :
  exists e,
    run reliableDB 4 scenario NewInitialSyncService = Some e
    /\ loopExited e = true
    /\ highestObservedSlot (sync (world e)) = currentSlot (sync (world e))
    /\ currentSlot (sync (world e)) <> 0.
Proof.
  destruct (run reliableDB 4 scenario NewInitialSyncService) as [e|] eqn:Hrun;
    [|vm_compute in Hrun; discriminate Hrun].
  exists e. split; [reflexivity|].
  apply (resume_means_converged reliableDB 4 scenario e Hrun).
  pose proof Hrun as Hc. vm_compute in Hc. injection Hc as <-.
  vm_compute. lia.
Defined.


(** ** Returning and not returning *)

(** X8: with a store that takes every block and a buffer whose blocks can
    be hashed and sit under their slots, processing a block that can be
    hashed returns, on three units of fuel more than there are buffered
    blocks. *)
Theorem block_processing_returns (db : beaconDB) (b : BeaconBlock)
    (p : Peer) (w : World) :
  reliable db ->
  buffer_ok (inMemoryBlocks (sync w)) ->
  BlockHash b <> None ->
  exists w',
    processBlock db (size (inMemoryBlocks (sync w)) + 3) b p w = Some (tt, w').
Proof.
  intros Hdb Hok Hb.
  destruct (processBlock_returns db Hdb b p w Hok Hb) as [[[] w'] H].
  exists w'. exact H.
Qed.

Lemma block_processing_returns_witness :
  let w := world (engineAt 4 6 9 (<[6 := testBlock 6 9]> ∅)) in
  exists w',
    processBlock reliableDB (size (inMemoryBlocks (sync w)) + 3)
      (testBlock 5 9) 3 w = Some (tt, w').
Proof.
  intros w. apply (block_processing_returns reliableDB (testBlock 5 9) 3 w).
  - intros tr b. reflexivity.
  - intros k b. simpl. destruct (decide (6 = k)) as [<-|Hne].
    + rewrite lookup_insert_eq. intros [= <-]. simpl.
      split; [reflexivity|discriminate].
    + rewrite lookup_insert_ne, lookup_empty by exact Hne. discriminate.
  - simpl. discriminate.
Defined.

Section Refusal.

Context (db : beaconDB).

(** A buffered block of the slot after the cursor whose write is refused is
    found again by the dispatch that follows the refusal. *)
Lemma retry_never_returns fuel : forall b p w blk,
  (forall tr b', Slot b' = Slot b -> SaveBlock db tr b' <> None) ->
  currentSlot (sync w) <> 0 ->
  Slot b = currentSlot (sync w) + 1 ->
  Slot b < 2 ^ 64 ->
  inMemoryBlocks (sync w) !! Slot b = Some blk ->
  Slot blk = Slot b ->
  processBlock db fuel b p w = None.
Proof.
  induction fuel as [|fuel IH]; intros b p w blk Hdb Hc Hb Hr Hin Hblk;
    [reflexivity|].
  rewrite processBlock_next by assumption. cbv zeta.
  destruct (observed_same (Slot b) w) as (Oc & _ & Om).
  assert (Hretry : forall v,
             sync v = sync (upd (observe (Slot b)) w) ->
             requestNextBlockBySlot db fuel (Slot b) v = None).
  { intros v Hv. rewrite requestNextBlockBySlot_unfold, Hv, Om, Hin.
    apply (IH blk noPeer _ blk).
    - intros tr b' Hb'. apply Hdb. congruence.
    - simpl. rewrite Hv, Oc. exact Hc.
    - simpl. rewrite Hv, Oc, Hblk. exact Hb.
    - rewrite Hblk. exact Hr.
    - simpl. rewrite Hv, Om, Hblk. exact Hin.
    - reflexivity. }
  destruct (BlockHash b); [|apply Hretry; reflexivity].
  destruct (SaveBlock db (trace w) b) as [e|] eqn:Hs.
  - apply Hretry. reflexivity.
  - exfalso. exact (Hdb _ _ eq_refl Hs).
Qed.

End Refusal.

(** X9: when the store takes the block of the slot after the cursor but
    refuses the blocks of the slot after that one, and a block of that later
    slot is in the buffer, processing the first block never returns: after
    the commit the dispatch finds the buffered block, its write is refused,
    and the dispatch that follows asks for the same slot and finds the same
    block in the buffer, without end. *)
Theorem refused_buffered_block_never_returns (db : beaconDB) (fuel : nat)
    (b blk : BeaconBlock) (p : Peer) (w : World) :
  currentSlot (sync w) <> 0 ->
  Slot b = currentSlot (sync w) + 1 ->
  Slot b + 1 < 2 ^ 64 ->
  BlockHash b <> None ->
  SaveBlock db (trace w) b = None ->
  inMemoryBlocks (sync w) !! (Slot b + 1) = Some blk ->
  Slot blk = Slot b + 1 ->
  (forall tr b', Slot b' = Slot b + 1 -> SaveBlock db tr b' <> None) ->
  processBlock db fuel b p w = None.
Proof.
  intros Hc Hb Hr Hh Hs Hin Hblk Hdb.
  destruct fuel as [|fuel]; [reflexivity|].
  rewrite processBlock_next; [|exact Hc|exact Hb|lia]. cbv zeta.
  destruct (BlockHash b); [|contradiction]. rewrite Hs.
  rewrite (wrap64_small (Slot b + 1)) by exact Hr.
  rewrite requestNextBlockBySlot_unfold.
  destruct (committed_fields b (upd (observe (Slot b)) w)) as (Cc & Cm).
  rewrite observed_buffer in Cm.
  rewrite Cm, lookup_delete_ne, Hin by lia.
  apply (retry_never_returns db fuel blk noPeer _ blk).
  - intros tr b' Hb'. apply Hdb. congruence.
  - cbn [say sync]. rewrite Cc. lia.
  - cbn [say sync]. rewrite Cc. exact Hblk.
  - lia.
  - cbn [say sync]. rewrite Cm, Hblk, lookup_delete_ne by lia. exact Hin.
  - reflexivity.
Qed.

Lemma refused_buffered_block_never_returns_witness :
  processBlock (refusingDB 3) 50 (testBlock 2 9) 3
    (world (engineAt 1 3 9 (<[3 := testBlock 3 9]> ∅))) = None.
Proof.
  apply (refused_buffered_block_never_returns (refusingDB 3) 50 (testBlock 2 9)
           (testBlock 3 9) 3).
  - simpl. lia.
  - reflexivity.
  - reflexivity.
  - discriminate.
  - reflexivity.
  - simpl. apply lookup_insert_eq.
  - reflexivity.
  - intros tr b' Hb'. simpl in *. rewrite Hb'. discriminate.
Defined.

(** ** A batch and its blocks *)

(** X10: a batched response is handled as its blocks delivered one by one,
    in the order of the batch, from the same peer. *)
Theorem batch_is_sequence (db : beaconDB) (fuel : nat) (p : Peer) :
  forall (blocks : list BeaconBlock) (e : Engine),
    step db fuel (BatchedBlockResponse blocks p) e
    = run db fuel (map (fun b => BlockResponse b p) blocks) e.
Proof.
  intros blocks e. unfold step at 1. simpl deliverable.
  destruct (loopExited e) eqn:Hex; cbn [negb].
  - induction blocks as [|b blocks IH]; [reflexivity|].
    simpl. unfold step. simpl. rewrite Hex. simpl. exact IH.
  - revert e Hex. induction blocks as [|b blocks IH]; intros e Hex.
    + simpl. unfold in_world, ret. destruct e; reflexivity.
    + cbn [map run]. unfold step. simpl deliverable. rewrite Hex.
      cbn [negb handle processBatchedBlocks]. unfold in_world, bind.
      destruct (processBlock db fuel b p (world e)) as [[[] w1]|]; [|reflexivity].
      rewrite <- (IH (with_world w1 e) Hex). reflexivity.
Qed.


(** ** The subscriptions *)

Lemma is_unsubscribe_loop sub ev :
  is_unsubscribe sub ev = true -> is_loop_event ev = true.
Proof. destruct ev; simpl; try discriminate. reflexivity. Qed.

Section Subscriptions.

Context (db : beaconDB).
Variable sub : Subscription.
Hypothesis sub_block : sub <> crystallizedStateSub.

Lemma count_unsubscribe_deferred :
  count (is_unsubscribe sub) run_deferred = 1%nat.
Proof. destruct sub; reflexivity. Qed.

Lemma count_unsubscribe_state :
  count (is_unsubscribe sub) [Unsubscribe crystallizedStateSub] = 0%nat.
Proof. destruct sub; try reflexivity. contradiction. Qed.

Lemma step_unsubscribe fuel i e e' :
  step db fuel i e = Some e' ->
  (loopExited e = true -> loopExited e' = true)
  /\ count (is_unsubscribe sub) (trace (world e'))
     = (count (is_unsubscribe sub) (trace (world e))
        + if loopExited e then 0 else if loopExited e' then 1 else 0)%nat.
Proof.
  unfold step. destruct (deliverable i e) eqn:Hd.
  2:{ intros [= <-]. split; [auto|]. destruct (loopExited e); lia. }
  assert (Hblock :
            rtc (block_step db) (world e) (world e')
            /\ loopExited e' = loopExited e
            /\ crystallizedStateSubscribed e' = crystallizedStateSubscribed e ->
            (loopExited e = true -> loopExited e' = true)
            /\ count (is_unsubscribe sub) (trace (world e'))
               = (count (is_unsubscribe sub) (trace (world e))
                  + if loopExited e then 0
                    else if loopExited e' then 1 else 0)%nat).
  { intros (H & -> & _). apply block_steps_effect in H.
    rewrite (block_effect_count (is_unsubscribe sub) _ _
               (is_unsubscribe_loop sub) H).
    split; [auto|]. destruct (loopExited e); lia. }
  destruct i.
  - simpl handle. intros [= <-].
    destruct (loopExited e) eqn:Hl; simpl; rewrite ?Hl, ?count_app,
      ?count_unsubscribe_deferred; split; auto; lia.
  - simpl in Hd. apply negb_true_iff in Hd. simpl handle.
    unfold on_delay. cbv zeta.
    destruct (currentSlot (sync (world e)) =? 0).
    { intros [= <-]. rewrite Hd. split; [auto|lia]. }
    destruct (highestObservedSlot (sync (world e))
              =? currentSlot (sync (world e))).
    { intros [= <-]. simpl. rewrite Hd, !count_app, count_unsubscribe_deferred.
      change (count (is_unsubscribe sub) [ResumeSync]) with 0%nat.
      split; [auto|lia]. }
    intros H. apply in_world_inv in H. destruct H as (w' & H & ->).
    unfold requestBatchedBlocks, bind, get, emit in H. simpl in H.
    injection H as <-. simpl. rewrite Hd, count_app.
    split; [auto|]. unfold count at 2. simpl. lia.
  - simpl in Hd. apply negb_true_iff in Hd. simpl handle.
    intros H. apply in_world_inv in H. destruct H as (w' & H & ->).
    rewrite on_blockAnnounce_unfold in H. injection H as <-. simpl.
    rewrite Hd, count_app. split; [auto|]. unfold count at 2. simpl. lia.
  - intros H. apply Hblock. eapply handle_block_inputs; [|exact H]. exact I.
  - simpl in Hd. apply negb_true_iff in Hd. simpl handle.
    intros H. apply on_crystallizedState_cases in H. cbv zeta in H.
    rewrite Hd.
    destruct H as [(_ & ->)|[(_ & _ & _ & ->)
                            |(_ & _ & _ & w3 & H & _ & Hw & Hl & _)]].
    + rewrite Hd. split; [discriminate|lia].
    + simpl. rewrite Hd, count_app. split; [discriminate|].
      unfold count at 2. simpl. lia.
    + apply block_steps_effect in H. rewrite Hl, Hd, Hw. simpl.
      rewrite count_app, count_unsubscribe_state.
      rewrite (block_effect_count (is_unsubscribe sub) _ _
                 (is_unsubscribe_loop sub) H). simpl.
      rewrite count_app. split; [discriminate|].
      unfold count at 2. simpl. lia.
  - intros H. apply Hblock. eapply handle_block_inputs; [|exact H]. exact I.
  - intros H. apply Hblock. eapply handle_block_inputs; [|exact H]. exact I.
Qed.

Lemma run_unsubscribe fuel : forall inputs e e',
  run db fuel inputs e = Some e' ->
  count (is_unsubscribe sub) (trace (world e))
  = (if loopExited e then 1 else 0)%nat ->
  count (is_unsubscribe sub) (trace (world e'))
  = (if loopExited e' then 1 else 0)%nat.
Proof.
  induction inputs as [|i inputs IH]; intros e e'; simpl.
  - intros [= <-]. auto.
  - destruct (step db fuel i e) as [e1|] eqn:E; [|discriminate].
    intros H Hinv. apply (IH e1 e' H).
    apply step_unsubscribe in E. destruct E as (E1 & E2).
    rewrite E2, Hinv. destruct (loopExited e).
    + rewrite (E1 eq_refl). reflexivity.
    + destruct (loopExited e1); reflexivity.
Qed.

End Subscriptions.

(** X11: in every run of a fresh service, each of the subscriptions to block
    responses, batched block responses and announcements is released
    exactly once when [run] has returned, and not at all while it runs. *)
Theorem subscriptions_released_at_exit (db : beaconDB) (fuel : nat)
    (inputs : list Input) (e : Engine) (sub : Subscription) :
  run db fuel inputs NewInitialSyncService = Some e ->
  sub <> crystallizedStateSub ->
  count (is_unsubscribe sub) (trace (world e))
  = (if loopExited e then 1 else 0)%nat.
Proof.
  intros Hrun Hsub.
  apply (run_unsubscribe db sub Hsub fuel inputs _ _ Hrun). reflexivity.
Qed.

Lemma subscriptions_released_at_exit_witness :
  exists e,
    run reliableDB 4 scenario NewInitialSyncService = Some e
    /\ count (is_unsubscribe blockAnnounceSub) (trace (world e))
       = (if loopExited e then 1 else 0)%nat.
Proof.
  destruct (run reliableDB 4 scenario NewInitialSyncService) as [e|] eqn:Hrun;
    [|vm_compute in Hrun; discriminate Hrun].
  exists e. split; [reflexivity|].
  apply (subscriptions_released_at_exit reliableDB 4 scenario e
           blockAnnounceSub Hrun).
  discriminate.
Defined.

(** ** Blocks that cannot be hashed *)

Section Hashing.

Context (db : beaconDB).

Lemma adds_hashable_refl w : adds_hashable w w.
Proof. exists []. rewrite app_nil_r. split; [reflexivity|constructor]. Qed.

Lemma adds_hashable_trans w1 w2 w3 :
  adds_hashable w1 w2 -> adds_hashable w2 w3 -> adds_hashable w1 w3.
Proof.
  intros (n1 & E1 & F1) (n2 & E2 & F2). exists (n1 ++ n2).
  rewrite E2, E1, app_assoc. split; [reflexivity|].
  apply Forall_app. split; assumption.
Qed.

Lemma adds_hashable_say ev w : stored_hashable ev -> adds_hashable w (say ev w).
Proof.
  intros H. exists [ev]. split; [reflexivity|].
  constructor; [exact H|constructor].
Qed.

Lemma adds_hashable_upd f w : adds_hashable w (upd f w).
Proof. exists []. simpl. rewrite app_nil_r. split; [reflexivity|constructor]. Qed.

Lemma dispatch_hashable fuel slot w w' :
  (forall b p v v',
      processBlock db fuel b p v = Some (tt, v') -> adds_hashable v v') ->
  requestNextBlockBySlot db fuel slot w = Some (tt, w') ->
  adds_hashable w w'.
Proof.
  intros IH. rewrite requestNextBlockBySlot_unfold.
  destruct (inMemoryBlocks (sync w) !! slot) as [blk|]; intros H.
  - apply IH in H. eapply adds_hashable_trans; [|exact H].
    apply adds_hashable_say. exact I.
  - injection H as <-.
    eapply adds_hashable_trans; apply adds_hashable_say; exact I.
Qed.

Lemma processBlock_hashable fuel : forall b p w w',
  processBlock db fuel b p w = Some (tt, w') -> adds_hashable w w'.
Proof.
  induction fuel as [|fuel IH]; intros b p w w'; [discriminate|].
  rewrite processBlock_unfold. cbv zeta.
  pose proof (adds_hashable_upd (observe (Slot b)) w) as Hobs.
  revert Hobs. generalize (upd (observe (Slot b)) w). intros w1 Hobs.
  pose proof (fun slot v v' => dispatch_hashable fuel slot v v' IH) as Hreq.
  intros H. eapply adds_hashable_trans; [exact Hobs|]. clear Hobs. revert H.
  destruct (Slot b <? currentSlot (sync w1)).
  { intros [= <-]. apply adds_hashable_refl. }
  destruct (currentSlot (sync w1) =? 0).
  - destruct (negb (initialCrystallizedStateRoot (sync w1) =? zeroRoot)).
    { intros [= <-]. apply adds_hashable_refl. }
    destruct (negb (Slot b =? 1)).
    + intros H. apply Hreq in H.
      eapply adds_hashable_trans; [apply adds_hashable_upd|exact H].
    + destruct (BlockHash b) as [h|] eqn:Hh.
      * assert (Hb : stored_hashable (DBSaveBlock b None)
                     /\ forall e, stored_hashable (DBSaveBlock b (Some e))).
        { simpl. rewrite Hh. split; [discriminate|intros _; discriminate]. }
        destruct Hb as [Hok Herr].
        destruct (SaveBlock db (trace w1) b) as [e|].
        -- intros [= <-].
           eapply adds_hashable_trans;
             [apply adds_hashable_say, Herr|apply adds_hashable_say; exact I].
        -- destruct (requestNextBlockBySlot db fuel (wrap64 (Slot b + 1))
                       (anchored b w1)) as [[[] w2]|] eqn:E; [|discriminate].
           intros [= <-]. apply Hreq in E.
           eapply adds_hashable_trans; [|apply adds_hashable_say; exact I].
           eapply adds_hashable_trans; [|exact E].
           exists [DBSaveBlock b None]. split; [reflexivity|].
           constructor; [exact Hok|constructor].
      * intros [= <-]. apply adds_hashable_say. exact I.
  - destruct (negb (Slot b =? wrap64 (currentSlot (sync w1) + 1))).
    { intros [= <-]. apply adds_hashable_upd. }
    destruct (BlockHash b) as [h|] eqn:Hh.
    + assert (Hb : stored_hashable (DBSaveBlock b None)
                   /\ forall e, stored_hashable (DBSaveBlock b (Some e))).
      { simpl. rewrite Hh. split; [discriminate|intros _; discriminate]. }
      destruct Hb as [Hok Herr].
      destruct (SaveBlock db (trace w1) b) as [e|]; intros H; apply Hreq in H.
      * eapply adds_hashable_trans; [apply adds_hashable_say, Herr|exact H].
      * eapply adds_hashable_trans; [|exact H].
        exists [DBSaveBlock b None]. split; [reflexivity|].
        constructor; [exact Hok|constructor].
    + intros H. apply Hreq in H. exact H.
Qed.

End Hashing.

(** X12: [processBlock], with all the buffered blocks it goes on to process,
    calls [SaveBlock] only on blocks whose [Hash] succeeded: a block that
    cannot be hashed is never handed to the store. *)
Theorem unhashable_never_stored (db : beaconDB) (fuel : nat)
    (b : BeaconBlock) (p : Peer) (w w' : World) :
  processBlock db fuel b p w = Some (tt, w') ->
  exists new,
    trace w' = trace w ++ new
    /\ forall blk r, In (DBSaveBlock blk r) new -> BlockHash blk <> None.
Proof.
  intros H. apply processBlock_hashable in H. destruct H as (new & E & F).
  exists new. split; [exact E|]. intros blk r Hin.
  rewrite Forall_forall in F. apply (F (DBSaveBlock blk r)).
  apply list_elem_of_In. exact Hin.
Qed.

Lemma unhashable_never_stored_witness :
  exists w' new,
    processBlock reliableDB 2
      {| Slot := 5; CrystallizedStateRoot := 9; BlockHash := None |} 3
      (world (engineAt 4 6 9 (<[5 := testBlock 5 9]> ∅))) = Some (tt, w')
    /\ trace w' = [] ++ new
    /\ forall blk r, In (DBSaveBlock blk r) new -> BlockHash blk <> None.
Proof.
  destruct (processBlock reliableDB 2
              {| Slot := 5; CrystallizedStateRoot := 9; BlockHash := None |} 3
              (world (engineAt 4 6 9 (<[5 := testBlock 5 9]> ∅))))
    as [[[] w']|] eqn:H; [|vm_compute in H; discriminate H].
  destruct (unhashable_never_stored reliableDB 2 _ 3 _ w' H) as (new & E & F).
  exists w', new. split; [reflexivity|]. split; [exact E|exact F].
Defined.


(** ** Crystallized states given to the store *)

Section SavedStates.

Context (db : beaconDB).

Lemma steps_invariant (P : World -> Prop) w w' :
  (forall v v', loop_step db v v' -> P v -> P v') ->
  rtc (loop_step db) w w' -> P w -> P w'.
Proof.
  intros Hstep H. induction H as [|w1 w2 w3 H1 _ IH]; [auto|].
  intros Hw. apply IH. eapply Hstep; eassumption.
Qed.

Lemma step_root fuel i e e' :
  step db fuel i e = Some e' ->
  initialCrystallizedStateRoot (sync (world e)) <> zeroRoot
  \/ currentSlot (sync (world e)) <> 0 ->
  initialCrystallizedStateRoot (sync (world e'))
  = initialCrystallizedStateRoot (sync (world e))
  /\ (initialCrystallizedStateRoot (sync (world e)) <> zeroRoot
      \/ currentSlot (sync (world e')) <> 0).
Proof.
  intros H Hset. apply step_loop_steps in H.
  apply (steps_invariant
           (fun w => initialCrystallizedStateRoot (sync w)
                     = initialCrystallizedStateRoot (sync (world e))
                     /\ (initialCrystallizedStateRoot (sync (world e)) <> zeroRoot
                         \/ currentSlot (sync w) <> 0))
           (world e) (world e')); [|exact H|auto].
  intros v v'. apply loop_step_root.
Qed.

(** The crystallized states a step gives to the store match the anchor
    root, which is then set. *)
Lemma step_state_saves fuel i e e' :
  step db fuel i e = Some e' ->
  exists new,
    trace (world e') = trace (world e) ++ new
    /\ forall c r,
        In (DBSaveCrystallizedState c r) new ->
        initialCrystallizedStateRoot (sync (world e)) <> zeroRoot
        /\ StateHash c = initialCrystallizedStateRoot (sync (world e)).
Proof.
  assert (Hnone : forall new : list Event,
             Forall (fun ev => is_loop_event ev = false) new ->
             forall c r, In (DBSaveCrystallizedState c r) new -> False).
  { intros new F c r Hin. rewrite Forall_forall in F.
    apply list_elem_of_In, F in Hin. discriminate Hin. }
  assert (Hblock : rtc (block_step db) (world e) (world e') ->
                   exists new,
                     trace (world e') = trace (world e) ++ new
                     /\ forall c r,
                         In (DBSaveCrystallizedState c r) new ->
                         initialCrystallizedStateRoot (sync (world e)) <> zeroRoot
                         /\ StateHash c
                            = initialCrystallizedStateRoot (sync (world e))).
  { intros H. apply block_steps_effect in H.
    destruct H as [_ _ _ _ (new & E & F)]. exists new. split; [exact E|].
    intros c r Hin. destruct (Hnone new F c r Hin). }
  unfold step. destruct (deliverable i e).
  2:{ intros [= <-]. exists []. rewrite app_nil_r. split; [reflexivity|].
      intros c r []. }
  destruct i.
  - simpl. intros [= <-]. destruct (loopExited e); simpl.
    + exists []. rewrite app_nil_r. split; [reflexivity|]. intros c r [].
    + exists run_deferred. split; [reflexivity|]. intros c r Hin.
      exfalso. simpl in Hin. intuition discriminate.
  - simpl. unfold on_delay. cbv zeta.
    destruct (currentSlot (sync (world e)) =? 0).
    { intros [= <-]. exists []. rewrite app_nil_r. split; [reflexivity|].
      intros c r []. }
    destruct (highestObservedSlot (sync (world e))
              =? currentSlot (sync (world e))).
    { intros [= <-]. simpl. exists (ResumeSync :: run_deferred).
      rewrite <- app_assoc. split; [reflexivity|]. intros c r Hin.
      exfalso. simpl in Hin. intuition discriminate. }
    intros H. apply in_world_inv in H. destruct H as (w' & H & ->).
    unfold requestBatchedBlocks, bind, get, emit in H. simpl in H.
    injection H as <-. simpl. eexists. split; [reflexivity|].
    intros c r Hin. exfalso. simpl in Hin. intuition discriminate.
  - simpl. intros H. apply in_world_inv in H. destruct H as (w' & H & ->).
    rewrite on_blockAnnounce_unfold in H. injection H as <-. simpl.
    eexists. split; [reflexivity|].
    intros c r Hin. exfalso. simpl in Hin. intuition discriminate.
  - intros H. apply Hblock. eapply handle_block_inputs; [|exact H]. exact I.
  - simpl. intros H. apply on_crystallizedState_cases in H. cbv zeta in H.
    destruct H as [(_ & ->)|[(Hr & Hh & _ & ->)
                            |(Hr & Hh & _ & w3 & H & _ & Hw & _)]].
    + exists []. rewrite app_nil_r. split; [reflexivity|]. intros c0 r [].
    + simpl. eexists. split; [reflexivity|].
      intros c0 r [Hin|[]]. injection Hin as <- _. auto.
    + apply block_steps_effect in H.
      destruct H as [_ _ _ _ (new & E & F)]. simpl in E. rewrite Hw. simpl.
      rewrite E.
      exists ([DBSaveCrystallizedState c
                 (SaveCrystallizedState db (trace (world e)) c)]
              ++ new ++ [Unsubscribe crystallizedStateSub]).
      rewrite <- !app_assoc. split; [reflexivity|].
      intros c0 r Hin. apply in_app_iff in Hin. destruct Hin as [[Hin|[]]|Hin].
      * injection Hin as <- _. auto.
      * apply in_app_iff in Hin. destruct Hin as [Hin|[Hin|[]]].
        -- destruct (Hnone new F c0 r Hin).
        -- discriminate Hin.
  - intros H. apply Hblock. eapply handle_block_inputs; [|exact H]. exact I.
  - intros H. apply Hblock. eapply handle_block_inputs; [|exact H]. exact I.
Qed.

Lemma run_state_saves fuel : forall inputs e e',
  run db fuel inputs e = Some e' ->
  exists new,
    trace (world e') = trace (world e) ++ new
    /\ (initialCrystallizedStateRoot (sync (world e)) <> zeroRoot
        \/ currentSlot (sync (world e)) <> 0 ->
        initialCrystallizedStateRoot (sync (world e'))
        = initialCrystallizedStateRoot (sync (world e)))
    /\ forall c r,
        In (DBSaveCrystallizedState c r) new ->
        initialCrystallizedStateRoot (sync (world e')) <> zeroRoot
        /\ StateHash c = initialCrystallizedStateRoot (sync (world e')).
Proof.
  induction inputs as [|i inputs IH]; intros e e'; simpl.
  - intros [= <-]. exists []. rewrite app_nil_r.
    split; [reflexivity|]. split; [auto|]. intros c r [].
  - destruct (step db fuel i e) as [e1|] eqn:E; [|discriminate].
    intros H. destruct (IH e1 e' H) as (n2 & E2 & R2 & S2).
    destruct (step_state_saves fuel i e e1 E) as (n1 & E1 & S1).
    pose proof (step_root fuel i e e1 E) as R1.
    exists (n1 ++ n2). rewrite E2, E1, app_assoc.
    split; [reflexivity|]. split.
    + intros Hset. destruct (R1 Hset) as (Hr1 & Hset1).
      rewrite R2; [exact Hr1|]. rewrite Hr1. exact Hset1.
    + intros c r Hin. apply in_app_iff in Hin. destruct Hin as [Hin|Hin].
      * destruct (S1 c r Hin) as (Hnz & Hh).
        destruct (R1 (or_introl Hnz)) as (Hr1 & Hset1).
        rewrite R2 by (rewrite Hr1; exact Hset1).
        rewrite Hr1. auto.
      * apply (S2 c r Hin).
Qed.

End SavedStates.

(** X13: in every run of a fresh service, every crystallized state given to
    the store hashes to the anchor root of the service, and that root is
    not the zero array. *)
Theorem saved_states_match_anchor (db : beaconDB) (fuel : nat)
    (inputs : list Input) (e : Engine) :
  run db fuel inputs NewInitialSyncService = Some e ->
  forall c r,
    In (DBSaveCrystallizedState c r) (trace (world e)) ->
    StateHash c = initialCrystallizedStateRoot (sync (world e))
    /\ initialCrystallizedStateRoot (sync (world e)) <> zeroRoot.
Proof.
  intros Hrun c r Hin.
  destruct (run_state_saves db fuel inputs _ _ Hrun) as (new & E & _ & S).
  simpl in E. rewrite E in Hin. destruct (S c r Hin) as (Hnz & Hh). auto.
Qed.

Lemma saved_states_match_anchor_witness :
  exists e,
    run reliableDB 4 scenario NewInitialSyncService = Some e
    /\ forall c r,
        In (DBSaveCrystallizedState c r) (trace (world e)) ->
        StateHash c = initialCrystallizedStateRoot (sync (world e))
        /\ initialCrystallizedStateRoot (sync (world e)) <> zeroRoot.
Proof.
  destruct (run reliableDB 4 scenario NewInitialSyncService) as [e|] eqn:Hrun;
    [|vm_compute in Hrun; discriminate Hrun].
  exists e. split; [reflexivity|].
  exact (saved_states_match_anchor reliableDB 4 scenario e Hrun).
Defined.

(** X14: a service anchored on a block whose crystallized-state root is the
    zero array (cursor past 0, anchor root zero) keeps the zero root and
    never gives a crystallized state to the store, whatever responses
    arrive. *)
Theorem zero_root_never_matches (db : beaconDB) (fuel : nat)
    (inputs : list Input) (e e' : Engine) :
  run db fuel inputs e = Some e' ->
  currentSlot (sync (world e)) <> 0 ->
  initialCrystallizedStateRoot (sync (world e)) = zeroRoot ->
  initialCrystallizedStateRoot (sync (world e')) = zeroRoot
  /\ exists new,
      trace (world e') = trace (world e) ++ new
      /\ count is_state_store_call new = 0%nat.
Proof.
  intros Hrun Hc Hz.
  destruct (run_state_saves db fuel inputs _ _ Hrun) as (new & E & R & S).
  assert (Hz' : initialCrystallizedStateRoot (sync (world e')) = zeroRoot)
    by (rewrite R; auto).
  split; [exact Hz'|]. exists new. split; [exact E|].
  unfold count.
  destruct (List.filter is_state_store_call new) as [|ev rest] eqn:F;
    [reflexivity|].
  exfalso. assert (Hin : In ev (List.filter is_state_store_call new))
    by (rewrite F; left; reflexivity).
  apply List.filter_In in Hin. destruct Hin as [Hin Hev].
  destruct ev; try discriminate Hev.
  destruct (S _ _ Hin) as (Hnz & _). contradiction.
Qed.

Lemma zero_root_never_matches_witness :
  exists e',
    run reliableDB 4
      [CrystallizedStateResponse (testState 0 3);
       BlockResponse (testBlock 2 0) 3;
       CrystallizedStateResponse (testState 0 5)]
      (engineAt 1 1 zeroRoot ∅) = Some e'
    /\ initialCrystallizedStateRoot (sync (world e')) = zeroRoot
    /\ exists new,
        trace (world e') = [] ++ new
        /\ count is_state_store_call new = 0%nat.
Proof.
  destruct (run reliableDB 4
              [CrystallizedStateResponse (testState 0 3);
               BlockResponse (testBlock 2 0) 3;
               CrystallizedStateResponse (testState 0 5)]
              (engineAt 1 1 zeroRoot ∅)) as [e'|] eqn:Hrun;
    [|vm_compute in Hrun; discriminate Hrun].
  exists e'. split; [reflexivity|].
  apply (zero_root_never_matches reliableDB 4 _ (engineAt 1 1 zeroRoot ∅) e' Hrun).
  - simpl. lia.
  - reflexivity.
Defined.


(** ** Deliveries in any order *)

Section FuelBounds.

Context (db : beaconDB).

Lemma dispatch_fuel_mono n slot w r :
  (forall b p v r',
      processBlock db n b p v = Some r' ->
      processBlock db (S n) b p v = Some r') ->
  requestNextBlockBySlot db n slot w = Some r ->
  requestNextBlockBySlot db (S n) slot w = Some r.
Proof.
  intros IH. rewrite !requestNextBlockBySlot_unfold.
  destruct (inMemoryBlocks (sync w) !! slot); [apply IH|auto].
Qed.

Lemma processBlock_fuel_S n : forall b p w r,
  processBlock db n b p w = Some r -> processBlock db (S n) b p w = Some r.
Proof.
  induction n as [|n IH]; intros b p w r; [discriminate|].
  pose proof (fun slot v r' => dispatch_fuel_mono n slot v r' IH) as Hreq.
  rewrite (processBlock_unfold db n), (processBlock_unfold db (S n)).
  cbv zeta. generalize (upd (observe (Slot b)) w). intros w1.
  destruct (Slot b <? currentSlot (sync w1)); [auto|].
  destruct (currentSlot (sync w1) =? 0).
  - destruct (negb (initialCrystallizedStateRoot (sync w1) =? zeroRoot)); [auto|].
    destruct (negb (Slot b =? 1)); [apply Hreq|].
    destruct (BlockHash b); [|auto].
    destruct (SaveBlock db (trace w1) b); [auto|].
    destruct (requestNextBlockBySlot db n (wrap64 (Slot b + 1)) (anchored b w1))
      as [r0|] eqn:E; [|discriminate].
    rewrite (Hreq _ _ _ E). auto.
  - destruct (negb (Slot b =? wrap64 (currentSlot (sync w1) + 1))); [auto|].
    destruct (BlockHash b); [|apply Hreq].
    destruct (SaveBlock db (trace w1) b); apply Hreq.
Qed.

Lemma processBlock_fuel_le n m b p w r :
  (n <= m)%nat ->
  processBlock db n b p w = Some r -> processBlock db m b p w = Some r.
Proof.
  induction 1 as [|m _ IH]; [auto|].
  intros H. apply processBlock_fuel_S, IH, H.
Qed.

(** Processing a hashable block keeps the buffer in order and adds at most
    the block itself to it. *)
Lemma dispatch_ok fuel slot w w' :
  (forall b p v v',
      processBlock db fuel b p v = Some (tt, v') ->
      buffer_ok (inMemoryBlocks (sync v)) ->
      BlockHash b <> None ->
      buffer_ok (inMemoryBlocks (sync v'))
      /\ (size (inMemoryBlocks (sync v'))
          <= size (inMemoryBlocks (sync v))
             + match inMemoryBlocks (sync v) !! Slot b with
               | Some _ => 0
               | None => 1
               end)%nat) ->
  requestNextBlockBySlot db fuel slot w = Some (tt, w') ->
  buffer_ok (inMemoryBlocks (sync w)) ->
  buffer_ok (inMemoryBlocks (sync w'))
  /\ (size (inMemoryBlocks (sync w')) <= size (inMemoryBlocks (sync w)))%nat.
Proof.
  intros IH. rewrite requestNextBlockBySlot_unfold.
  destruct (inMemoryBlocks (sync w) !! slot) as [blk|] eqn:E; intros H Hok.
  - destruct (Hok _ _ E) as [Hk Hh].
    apply IH in H; [|exact Hok|exact Hh]. simpl in H.
    rewrite Hk, E in H. destruct H as [H1 H2]. split; [exact H1|lia].
  - injection H as <-. simpl. auto.
Qed.

Lemma processBlock_ok fuel : forall b p w w',
  processBlock db fuel b p w = Some (tt, w') ->
  buffer_ok (inMemoryBlocks (sync w)) ->
  BlockHash b <> None ->
  buffer_ok (inMemoryBlocks (sync w'))
  /\ (size (inMemoryBlocks (sync w'))
      <= size (inMemoryBlocks (sync w))
         + match inMemoryBlocks (sync w) !! Slot b with
           | Some _ => 0
           | None => 1
           end)%nat.
Proof.
  induction fuel as [|fuel IH]; intros b p w w'; [discriminate|].
  rewrite processBlock_unfold. cbv zeta.
  rewrite <- (observed_buffer (Slot b) w).
  generalize (upd (observe (Slot b)) w). clear w. intros w.
  pose proof (fun slot v v' => dispatch_ok fuel slot v v' IH) as Hreq.
  assert (Hstore :
            buffer_ok (inMemoryBlocks (sync w)) -> BlockHash b <> None ->
            buffer_ok (inMemoryBlocks (store_if_absent b (sync w)))
            /\ size (inMemoryBlocks (store_if_absent b (sync w)))
               = (size (inMemoryBlocks (sync w))
                  + match inMemoryBlocks (sync w) !! Slot b with
                    | Some _ => 0
                    | None => 1
                    end)%nat).
  { intros Hok Hb. split; [apply buffer_ok_store; assumption|].
    unfold store_if_absent.
    destruct (inMemoryBlocks (sync w) !! Slot b) eqn:E; simpl; [lia|].
    rewrite map_size_insert_None by exact E. lia. }
  assert (Hsame : buffer_ok (inMemoryBlocks (sync w)) ->
                  buffer_ok (inMemoryBlocks (sync w))
                  /\ (size (inMemoryBlocks (sync w))
                      <= size (inMemoryBlocks (sync w))
                         + match inMemoryBlocks (sync w) !! Slot b with
                           | Some _ => 0
                           | None => 1
                           end)%nat).
  { intros Hok. split; [exact Hok|lia]. }
  assert (Hdisp : forall slot v v',
             inMemoryBlocks (sync v) = inMemoryBlocks (sync w) ->
             requestNextBlockBySlot db fuel slot v = Some (tt, v') ->
             buffer_ok (inMemoryBlocks (sync w)) ->
             buffer_ok (inMemoryBlocks (sync v'))
             /\ (size (inMemoryBlocks (sync v'))
                 <= size (inMemoryBlocks (sync w))
                    + match inMemoryBlocks (sync w) !! Slot b with
                      | Some _ => 0
                      | None => 1
                      end)%nat).
  { intros slot v v' Hv H Hok. rewrite <- Hv in Hok.
    destruct (Hreq slot v v' H Hok) as [H1 H2]. rewrite Hv in H2.
    split; [exact H1|lia]. }
  destruct (Slot b <? currentSlot (sync w)).
  { intros [= <-] Hok _. auto. }
  destruct (currentSlot (sync w) =? 0).
  - destruct (negb (initialCrystallizedStateRoot (sync w) =? zeroRoot)).
    { intros [= <-] Hok _. auto. }
    destruct (negb (Slot b =? 1)).
    + intros H Hok Hb. destruct (Hstore Hok Hb) as [S1 S2].
      destruct (Hreq 1 _ w' H S1) as [H1 H2]. cbn [upd sync] in H2.
      split; [exact H1|lia].
    + destruct (BlockHash b) as [h|]; [|intros _ _ Hb; contradiction].
      destruct (SaveBlock db (trace w) b).
      * intros [= <-] Hok _. auto.
      * destruct (requestNextBlockBySlot db fuel (wrap64 (Slot b + 1))
                    (anchored b w)) as [[[] w2]|] eqn:E; [|discriminate].
        intros [= <-] Hok _. simpl.
        eapply (Hdisp _ (anchored b w) w2); [reflexivity|exact E|exact Hok].
  - destruct (negb (Slot b =? wrap64 (currentSlot (sync w) + 1))).
    { intros [= <-] Hok Hb. destruct (Hstore Hok Hb) as [S1 S2].
      cbn [upd sync]. split; [exact S1|lia]. }
    destruct (BlockHash b) as [h|]; [|intros _ _ Hb; contradiction].
    destruct (SaveBlock db (trace w) b).
    + intros H Hok _. eapply Hdisp; [|exact H|exact Hok]. reflexivity.
    + intros H Hok _. destruct (committed_fields b w) as (_ & Cm).
      destruct (Hreq _ _ w' H) as [H1 H2].
      { rewrite Cm. apply buffer_ok_delete. exact Hok. }
      rewrite Cm in H2. split; [exact H1|].
      pose proof (map_size_delete (Slot b) (inMemoryBlocks (sync w))) as Hs.
      destruct (inMemoryBlocks (sync w) !! Slot b); simpl in Hs; lia.
Qed.

Lemma covered_step k w w' :
  block_step db w w' -> covered k (sync w) -> covered k (sync w').
Proof.
  unfold covered. destruct 1; simpl; auto.
  - destruct (observe_fields slot (sync w)) as (-> & _ & _ & ->). auto.
  - destruct (store_if_absent_fields b (sync w)) as (-> & _).
    intros [H|H]; [left; exact H|right].
    unfold store_if_absent.
    destruct (inMemoryBlocks (sync w) !! Slot b) eqn:E; [exact H|]. simpl.
    destruct (decide (Slot b = k)) as [<-|Hne].
    + rewrite lookup_insert_eq. eauto.
    + rewrite lookup_insert_ne by exact Hne. exact H.
  - intros [Hle|Hin]; [left; lia|right; exact Hin].
  - destruct (delete_if_present_fields (Slot b)
                (set_currentSlot (Slot b) (sync w))) as (-> & _ & _ & ->).
    simpl. intros [Hle|Hin]; [left; lia|].
    destruct (decide (Slot b = k)) as [<-|Hne]; [left; lia|right].
    rewrite lookup_delete_ne by exact Hne. exact Hin.
Qed.

Lemma covered_steps k w w' :
  rtc (block_step db) w w' -> covered k (sync w) -> covered k (sync w').
Proof.
  induction 1 as [|w1 w2 w3 H _ IH]; [auto|].
  intros Hc. apply IH. eapply covered_step; eassumption.
Qed.

Hypothesis db_reliable : reliable db.

(** With a reliable store, a hashable block that has been processed is
    behind the cursor or in the buffer. *)
Lemma processBlock_covers fuel b p w w' :
  processBlock db fuel b p w = Some (tt, w') ->
  anchored_ok (sync w) ->
  BlockHash b <> None ->
  covered (Slot b) (sync w').
Proof.
  destruct fuel as [|fuel]; [discriminate|].
  rewrite processBlock_unfold. cbv zeta.
  destruct (observed_same (Slot b) w) as (Oc & Or & _).
  unfold anchored_ok. rewrite <- Oc, <- Or.
  generalize (upd (observe (Slot b)) w). clear w Oc Or. intros w.
  assert (Hstored : covered (Slot b) (store_if_absent b (sync w))).
  { right. unfold store_if_absent.
    destruct (inMemoryBlocks (sync w) !! Slot b) eqn:E; [rewrite E; eauto|].
    simpl. rewrite lookup_insert_eq. eauto. }
  destruct (N.ltb_spec (Slot b) (currentSlot (sync w))) as [Hlt|Hge].
  { intros [= <-] _ _. left. lia. }
  destruct (N.eqb_spec (currentSlot (sync w)) 0) as [Hz|Hnz].
  - destruct (N.eqb_spec (initialCrystallizedStateRoot (sync w)) zeroRoot)
      as [Hr|Hr]; cbn [negb].
    2:{ intros _ Ha _. exfalso. apply Hr, Ha, Hz. }
    destruct (N.eqb_spec (Slot b) 1) as [H1|H1]; cbn [negb].
    + destruct (BlockHash b); [|intros _ _ Hb; contradiction].
      rewrite db_reliable.
      destruct (requestNextBlockBySlot db fuel (wrap64 (Slot b + 1))
                  (anchored b w)) as [[[] w2]|] eqn:E; [|discriminate].
      intros [= <-] _ _. simpl.
      apply dispatch_steps in E.
      apply (covered_steps _ _ _ E). left. simpl. lia.
    + intros H _ _. apply dispatch_steps in H.
      apply (covered_steps _ _ _ H). exact Hstored.
  - destruct (N.eqb_spec (Slot b) (wrap64 (currentSlot (sync w) + 1)))
      as [Hn|Hn]; cbn [negb].
    + destruct (BlockHash b); [|intros _ _ Hb; contradiction].
      rewrite db_reliable. intros H _ _. apply dispatch_steps in H.
      apply (covered_steps _ _ _ H). left.
      destruct (committed_fields b w) as (-> & _). lia.
    + intros [= <-] _ _. exact Hstored.
Qed.

End FuelBounds.


Section Delivery.

Context (db : beaconDB).
Hypothesis db_reliable : reliable db.

Lemma buffer_ok_keyed buf : buffer_ok buf -> well_keyed buf.
Proof. intros H k b Hk. apply (H k b Hk). Qed.

(** Block responses delivered one after the other, in any order: each is
    processed on the fuel the buffer and the blocks still to come ask for,
    and each block delivered ends behind the cursor or in the buffer. *)
Lemma run_deliveries fuel : forall (ds : list (BeaconBlock * Peer)) e,
  loopExited e = false ->
  buffer_ok (inMemoryBlocks (sync (world e))) ->
  at_rest (sync (world e)) ->
  Forall (fun d => BlockHash (fst d) <> None) ds ->
  (size (inMemoryBlocks (sync (world e))) + length ds + 3 <= fuel)%nat ->
  exists e',
    run db fuel (map (fun d => BlockResponse (fst d) (snd d)) ds) e = Some e'
    /\ at_rest (sync (world e'))
    /\ currentSlot (sync (world e)) <= currentSlot (sync (world e'))
    /\ (forall k, covered k (sync (world e)) -> covered k (sync (world e')))
    /\ (forall d, In d ds -> covered (Slot (fst d)) (sync (world e'))).
Proof.
  induction ds as [|[b p] ds IH]; intros e Hex Hok Hrest Hds Hfuel.
  { exists e. simpl. split; [reflexivity|]. split; [exact Hrest|].
    split; [lia|]. split; [auto|]. intros d []. }
  apply Forall_cons in Hds. destruct Hds as [Hb Hds]. simpl in Hb.
  destruct (processBlock_returns db db_reliable b p (world e) Hok Hb)
    as [[[] w1] H1].
  apply (processBlock_fuel_le db _ fuel) in H1; [|simpl in Hfuel; lia].
  destruct (processBlock_ok db fuel b p _ _ H1 Hok Hb) as [Hok1 Hsize1].
  destruct Hrest as (Hk & Ha & Hn).
  pose proof (processBlock_rest db fuel b p _ _ H1 Hk Ha (or_introl Hn))
    as Hrest1.
  pose proof (processBlock_covers db db_reliable fuel b p _ _ H1 Ha Hb)
    as Hcov1.
  pose proof (processBlock_steps db fuel b p _ _ H1) as Hsteps.
  pose proof (be_cursor_mono _ _ (block_steps_effect db _ _ Hsteps)) as Hmono.
  destruct (IH (with_world w1 e)) as (e' & Hrun & Hrest' & Hmono' & Hkeep & Hall).
  - exact Hex.
  - exact Hok1.
  - exact Hrest1.
  - exact Hds.
  - cbn [with_world world]. simpl in Hfuel.
    destruct (inMemoryBlocks (sync (world e)) !! Slot b); lia.
  - exists e'. cbn [map run fst snd]. unfold step. simpl deliverable.
    rewrite Hex. cbn [negb handle]. unfold in_world. rewrite H1.
    split; [exact Hrun|]. split; [exact Hrest'|].
    cbn [with_world world] in Hmono', Hkeep.
    split; [lia|]. split.
    + intros k Hc. apply Hkeep. eapply covered_steps; eassumption.
    + intros d [<-|Hin]; [apply Hkeep; exact Hcov1|apply Hall; exact Hin].
Qed.

End Delivery.

(** X15: with a store that takes every block, block responses that can be
    hashed may arrive in any order: the run returns, on three units of fuel
    more than the buffered and the delivered blocks together, and the
    cursor ends on or past every slot [m] such that a block of each slot
    between the cursor at the start and [m] was delivered. *)
Theorem out_of_order_delivery (db : beaconDB) (fuel : nat)
    (ds : list (BeaconBlock * Peer)) (e : Engine) :
  reliable db ->
  loopExited e = false ->
  buffer_ok (inMemoryBlocks (sync (world e))) ->
  at_rest (sync (world e)) ->
  Forall (fun d => BlockHash (fst d) <> None) ds ->
  (size (inMemoryBlocks (sync (world e))) + length ds + 3 <= fuel)%nat ->
  exists e',
    run db fuel (map (fun d => BlockResponse (fst d) (snd d)) ds) e = Some e'
    /\ forall m,
        m < 2 ^ 64 ->
        (forall k, currentSlot (sync (world e)) < k <= m ->
                   exists d, In d ds /\ Slot (fst d) = k) ->
        m <= currentSlot (sync (world e')).
Proof.
  intros Hdb Hex Hok Hrest Hds Hfuel.
  destruct (run_deliveries db Hdb fuel ds e Hex Hok Hrest Hds Hfuel)
    as (e' & Hrun & (_ & _ & Hn) & Hmono & _ & Hall).
  exists e'. split; [exact Hrun|]. intros m Hm Hdel.
  destruct (N.le_gt_cases m (currentSlot (sync (world e')))) as [Hle|Hgt];
    [exact Hle|exfalso].
  destruct (Hdel (currentSlot (sync (world e')) + 1)) as (d & Hin & Hslot);
    [lia|].
  destruct (Hall d Hin) as [Hle|[blk Hblk]]; [lia|].
  rewrite Hslot, Hn in Hblk by lia. discriminate.
Qed.

Lemma out_of_order_delivery_witness :
  exists e',
    run reliableDB 6
      (map (fun d => BlockResponse (fst d) (snd d))
         [(testBlock 3 9, 7); (testBlock 2 9, 7); (testBlock 1 9, 7)])
      NewInitialSyncService = Some e'
    /\ 3 <= currentSlot (sync (world e')).
Proof.
  destruct (out_of_order_delivery reliableDB 6
              [(testBlock 3 9, 7); (testBlock 2 9, 7); (testBlock 1 9, 7)]
              NewInitialSyncService) as (e' & Hrun & H).
  - intros tr b. reflexivity.
  - reflexivity.
  - intros k b Hk. simpl in Hk. rewrite lookup_empty in Hk. discriminate.
  - apply fresh_at_rest.
  - repeat constructor; discriminate.
  - vm_compute. lia.
  - exists e'. split; [exact Hrun|]. apply H; [reflexivity|].
    intros k Hk. simpl in Hk.
    assert (Hcases : k = 1 \/ k = 2 \/ k = 3) by lia.
    destruct Hcases as [-> | [-> | ->]].
    + exists (testBlock 1 9, 7). simpl. auto.
    + exists (testBlock 2 9, 7). simpl. auto.
    + exists (testBlock 3 9, 7). simpl. auto.
Defined.


(** ** Writes without gaps *)

Section Gaps.

Context (db : beaconDB).

Lemma slots_upto_succ n : slots_upto (n + 1) = slots_upto n ++ [n + 1].
Proof.
  unfold slots_upto.
  replace (N.to_nat (n + 1)) with (S (N.to_nat n)) by lia.
  rewrite seq_S, map_app. simpl. f_equal. f_equal. lia.
Qed.

(** As long as no crystallized state was given to the store, the slots
    written are those up to the cursor. *)
Lemma loop_step_gaps w w' :
  loop_step db w w' ->
  (count is_state_store_call (trace w) = 0%nat ->
   persisted_slots (trace w) = slots_upto (currentSlot (sync w))) ->
  count is_state_store_call (trace w') = 0%nat ->
  persisted_slots (trace w') = slots_upto (currentSlot (sync w')).
Proof.
  assert (Hsay : forall ev v,
             is_persisted_block ev = false ->
             (count is_state_store_call (trace v) = 0%nat ->
              persisted_slots (trace v) = slots_upto (currentSlot (sync v))) ->
             count is_state_store_call (trace (say ev v)) = 0%nat ->
             persisted_slots (trace (say ev v))
             = slots_upto (currentSlot (sync (say ev v)))).
  { intros ev v Hev Hv Hc. rewrite count_say in Hc. simpl.
    rewrite persisted_slots_other by exact Hev. apply Hv. lia. }
  assert (Hwrite : forall b v,
             Slot b = currentSlot (sync v) + 1 ->
             (count is_state_store_call (trace v) = 0%nat ->
              persisted_slots (trace v) = slots_upto (currentSlot (sync v))) ->
             count is_state_store_call (trace (say (DBSaveBlock b None) v))
             = 0%nat ->
             persisted_slots (trace v ++ [DBSaveBlock b None])
             = slots_upto (Slot b)).
  { intros b v Hb Hv Hc. rewrite count_say in Hc.
    rewrite persisted_slots_app, Hv by lia. simpl.
    rewrite Hb, slots_upto_succ. reflexivity. }
  intros Hstep Hw.
  destruct Hstep as [w w' Hb|w slot|w ev Hev|w slot Hlt Hsaved].
  - destruct Hb.
    + simpl. destruct (observe_fields slot (sync w)) as (-> & _). exact Hw.
    + simpl. destruct (store_if_absent_fields b (sync w)) as (-> & _). exact Hw.
    + apply Hsay; [reflexivity|exact Hw].
    + apply Hsay; [reflexivity|exact Hw].
    + apply Hsay; [reflexivity|exact Hw].
    + apply Hsay; [reflexivity|exact Hw].
    + intros Hc. simpl. apply (Hwrite b w); [lia|exact Hw|exact Hc].
    + intros Hc. simpl.
      destruct (delete_if_present_fields (Slot b)
                  (set_currentSlot (Slot b) (sync w))) as (-> & _).
      simpl. apply (Hwrite b w); [assumption|exact Hw|exact Hc].
  - simpl. destruct (observe_fields slot (sync w)) as (-> & _). exact Hw.
  - apply Hsay; [|exact Hw].
    destruct ev as [b [g|]| | | | | |]; try reflexivity; discriminate Hev.
  - simpl. intros Hc. contradiction.
Qed.

End Gaps.

(** X16: in every run of a fresh service whose [checkInMemoryBlocks] has
    returned, so that [run] alone works on the struct, and in which no
    crystallized state was given to the store, the blocks written to the
    store are those of the slots 1, 2, ... up to the cursor, each once and
    in this order: no slot is left out. *)
Theorem writes_without_gaps (db : beaconDB) (fuel : nat)
    (inputs : list Input) (e : Engine) :
  run db fuel inputs (stop_checker NewInitialSyncService) = Some e ->
  count is_state_store_call (trace (world e)) = 0%nat ->
  persisted_slots (trace (world e))
  = slots_upto (currentSlot (sync (world e))).
Proof.
  intros Hrun.
  apply (run_invariant db
           (fun w => count is_state_store_call (trace w) = 0%nat ->
                     persisted_slots (trace w)
                     = slots_upto (currentSlot (sync w)))
           fuel inputs (stop_checker NewInitialSyncService) e);
    [|exact Hrun|].
  - intros w w'. apply loop_step_gaps.
  - reflexivity.
Qed.

Lemma writes_without_gaps_witness :
  exists e,
    run reliableDB 4
      [BlockResponse (testBlock 2 9) 3; BlockAnnounce 5;
       BatchedBlockResponse [testBlock 3 9; testBlock 1 9] 3; DelayTick]
      (stop_checker NewInitialSyncService) = Some e
    /\ currentSlot (sync (world e)) = 3
    /\ persisted_slots (trace (world e))
       = slots_upto (currentSlot (sync (world e))).
Proof.
  destruct (run reliableDB 4
              [BlockResponse (testBlock 2 9) 3; BlockAnnounce 5;
               BatchedBlockResponse [testBlock 3 9; testBlock 1 9] 3; DelayTick]
              (stop_checker NewInitialSyncService)) as [e|] eqn:Hrun;
    [|vm_compute in Hrun; discriminate Hrun].
  exists e. split; [reflexivity|]. split.
  - pose proof Hrun as Hc. vm_compute in Hc. injection Hc as <-.
    reflexivity.
  - apply (writes_without_gaps reliableDB 4 _ e Hrun).
    pose proof Hrun as Hc. vm_compute in Hc. injection Hc as <-.
    vm_compute. reflexivity.
Defined.
